(** * h5ai-dl: the crawl / download engine, embedded and verified

    The repository holds three evolutions of one Go program:
    - [main.go]: the JSON-API lister ([getFileIndex]), configurable
      [maxThreads];
    - [part_000]: the HTML-table lister ([ParseEntry]), configurable
      [maxThreads];
    - [part_001]: the first HTML-table lister, a fixed limit of 12 and a
      fixed-offset path derivation.

    Layout of this development:
    - [Go]: the pieces of Go's standard library the program calls,
      as executable functions on byte strings;
    - [Html]: the [html.Node] tree and the row parsers of the two HTML
      variants;
    - [Paths]: [getDownloadPath] (main.go, part_000) and the path
      derivation of part_001;
    - [Crawl]: what one [crawlDirectory] call dispatches;
    - [Download]: [writeUrl], [downloadUrl], [saveContent] as a state
      monad over the local files, with a log of the operations; what the
      network and the operating system answer is a parameter;
    - [Sched]: goroutines, the shared [threads] counter and the
      [sync.WaitGroup] as an interleaving machine driven by a schedule;
    - [Fixtures]: listings, hosts and disks to run the program on.
    The statements about the program follow the definitions. *)

From Stdlib Require Import ZArith Lia Bool List Ascii String.
From stdpp Require Import base option list strings gmap.

Local Open Scope string_scope.
Local Open Scope Z_scope.

(* ===================================================================== *)
(** ** Go's standard library, as far as the program uses it              *)
(* ===================================================================== *)

Module Go.

(** [int64]: a [Z] kept in [-2^63, 2^63) by wrap-around. *)
Definition int64_min : Z := - 2 ^ 63.
Definition int64_max : Z := 2 ^ 63 - 1.

Definition wrap64 (z : Z) : Z := (z + 2 ^ 63) mod 2 ^ 64 - 2 ^ 63.

Definition is_int64 (z : Z) : Prop := int64_min <= z <= int64_max.

(** [len(s)] *)
Definition len (s : string) : nat := String.length s.

(** [s[i]]: out of range is a run-time panic, here [None]. *)
Definition index (s : string) (i : nat) : option ascii := String.get i s.

(** [s[i:]]: in range iff [i <= len(s)]; otherwise a run-time panic. *)
Definition slice_from (s : string) (i : nat) : option string :=
  if (i <=? len s)%nat then Some (String.substring i (len s - i) s) else None.

(** [strings.HasPrefix(s, prefix)] *)
Definition HasPrefix (s prefix : string) : bool := String.prefix prefix s.

(** [strings.HasSuffix(s, suffix)]:
    [len(s) >= len(suffix) && s[len(s)-len(suffix):] == suffix] *)
Definition HasSuffix (s suffix : string) : bool :=
  (len suffix <=? len s)%nat &&
  String.eqb (String.substring (len s - len suffix) (len suffix) s) suffix.

(** [strings.Split(s, sep)] for a one-byte separator: the pieces between
    the separators, [n+1] pieces for [n] separators (so [Split("", "/")]
    is the one-element list holding the empty string). *)
Fixpoint Split (s : string) (sep : ascii) : list string :=
  match s with
  | EmptyString => [EmptyString]
  | String c rest =>
      if Ascii.eqb c sep then EmptyString :: Split rest sep
      else match Split rest sep with
           | [] => [String c EmptyString]
           | w :: ws => String c w :: ws
           end
  end.

(** [strings.Join(parts, sep)] *)
Definition Join (parts : list string) (sep : string) : string :=
  String.concat sep parts.

(** *** [strings.TrimSpace]

    Go trims the code points of Unicode's White_Space property, read off
    the UTF-8 bytes: six ASCII bytes, U+0085 and U+00A0 (two bytes), and
    U+1680, U+2000..U+200A, U+2028, U+2029, U+202F, U+205F, U+3000
    (three bytes). A byte run that is no valid encoding decodes to
    U+FFFD, which is not white space, so trimming strips exactly these
    encodings from either end. *)
Definition asciiSpace (c : ascii) : bool :=
  let n := nat_of_ascii c in
  ((9 <=? n) && (n <=? 13) || (n =? 32))%nat.

Definition space2 (c1 c2 : ascii) : bool :=
  let a := nat_of_ascii c1 in
  let b := nat_of_ascii c2 in
  ((a =? 194) && ((b =? 133) || (b =? 160)))%nat.

Definition space3 (c1 c2 c3 : ascii) : bool :=
  let a := nat_of_ascii c1 in
  let b := nat_of_ascii c2 in
  let c := nat_of_ascii c3 in
  ((a =? 225) && (b =? 154) && (c =? 128)
   || (a =? 226) && (b =? 128)
        && ((128 <=? c) && (c <=? 138) || (c =? 168) || (c =? 169) || (c =? 175))
   || (a =? 226) && (b =? 129) && (c =? 159)
   || (a =? 227) && (b =? 128) && (c =? 128))%nat.

(** Strip white-space encodings from the front; [fwd] says whether the
    bytes are met in reading order (the front of the string) or in
    reverse (the back of the string, scanned from its end). *)
Fixpoint trim_front (fwd : bool) (s : string) : string :=
  match s with
  | EmptyString => EmptyString
  | String c1 r1 =>
      if asciiSpace c1 then trim_front fwd r1
      else match r1 with
           | String c2 r2 =>
               if (if fwd then space2 c1 c2 else space2 c2 c1)
               then trim_front fwd r2
               else match r2 with
                    | String c3 r3 =>
                        if (if fwd then space3 c1 c2 c3 else space3 c3 c2 c1)
                        then trim_front fwd r3
                        else s
                    | EmptyString => s
                    end
           | EmptyString => s
           end
  end.

Definition TrimSpace (s : string) : string :=
  String.rev (trim_front false (String.rev (trim_front true s))).

(** *** [net/url]: [PathUnescape] and [QueryUnescape]

    Both run [unescape]: [%XY] with two hex digits is the byte [0xXY], a
    [%] followed by anything else is an [EscapeError]; [+] is a space in
    query mode only. *)
Inductive encoding := encodePathSegment | encodeQueryComponent.

Definition ishex (c : ascii) : bool :=
  let n := nat_of_ascii c in
  ((48 <=? n) && (n <=? 57) || (97 <=? n) && (n <=? 102)
   || (65 <=? n) && (n <=? 70))%nat.

Definition unhex (c : ascii) : nat :=
  let n := nat_of_ascii c in
  if ((48 <=? n) && (n <=? 57))%nat then n - 48
  else if ((97 <=? n) && (n <=? 102))%nat then n - 97 + 10
  else if ((65 <=? n) && (n <=? 70))%nat then n - 65 + 10
  else 0.

Fixpoint unescape (s : string) (mode : encoding) : option string :=
  match s with
  | EmptyString => Some EmptyString
  | String c rest =>
      if Ascii.eqb c "%" then
        match rest with
        | String a (String b rest') =>
            if ishex a && ishex b
            then String (ascii_of_nat (unhex a * 16 + unhex b)) <$> unescape rest' mode
            else None
        | _ => None
        end
      else if Ascii.eqb c "+" then
        String (match mode with
                | encodeQueryComponent => " "%char
                | encodePathSegment => "+"%char
                end) <$> unescape rest mode
      else String c <$> unescape rest mode
  end.

Definition PathUnescape (s : string) : option string := unescape s encodePathSegment.
Definition QueryUnescape (s : string) : option string := unescape s encodeQueryComponent.

(** *** [strconv.ParseInt(s, 10, 64)]

    An optional sign, then one or more decimal digits; a value outside
    [int64] is a range error. Any error is [None]. *)
Definition digit (c : ascii) : option Z :=
  let n := nat_of_ascii c in
  if ((48 <=? n) && (n <=? 57))%nat then Some (Z.of_nat (n - 48)) else None.

Fixpoint digits (acc : Z) (s : string) : option Z :=
  match s with
  | EmptyString => Some acc
  | String c rest =>
      match digit c with
      | Some d => digits (10 * acc + d) rest
      | None => None
      end
  end.

Definition ParseUint (s : string) : option Z :=
  match s with
  | EmptyString => None
  | _ => digits 0 s
  end.

Definition ParseInt (s : string) : option Z :=
  match s with
  | EmptyString => None
  | String c rest =>
      let neg := Ascii.eqb c "-" in
      let body := if Ascii.eqb c "+" || neg then rest else s in
      match ParseUint body with
      | None => None
      | Some un =>
          if neg then (if un <=? 2 ^ 63 then Some (- un) else None)
          else (if un <? 2 ^ 63 then Some un else None)
      end
  end.

End Go.

(* ===================================================================== *)
(** ** What a directory listing turns into                               *)
(* ===================================================================== *)

(** A unit of work the crawler hands to [...Async]:
    [crawlDirectory(entryPath)] or [saveContent(entryPath, fileSize)].
    (main.go also hands [entry.Time] down to [downloadUrl], whose
    parameter [modifiedTime] is never read; it is not carried here.) *)
Inductive Work :=
| Crawl (entryPath : string)
| Save (entryPath : string) (fileSize : Z).

(** What processing one listed entry does: nothing, a call of
    [crawlDirectoryAsync] / [saveContentAsync], or a run-time panic. *)
Inductive Dispatch :=
| Skips
| Calls (w : Work)
| Panics.

Definition work_path (w : Work) : string :=
  match w with
  | Crawl p => p
  | Save p _ => p
  end.

(* ===================================================================== *)
(** ** The HTML listers (part_000, part_001)                             *)
(* ===================================================================== *)

Module Html.

(** [golang.org/x/net/html]: a node with its children in sibling order
    ([FirstChild] is the head, [NextSibling] the rest). *)
Inductive NodeType :=
| ErrorNode | TextNode | DocumentNode | ElementNode | CommentNode | DoctypeNode.

Record Attribute := { Key : string; Val : string }.

#[local] Set Warnings "-register-all".

Inductive Node :=
| mkNode (NType : NodeType) (Data : string) (Attr : list Attribute)
         (children : list Node).

Definition NType (n : Node) : NodeType := let 'mkNode t _ _ _ := n in t.
Definition Data (n : Node) : string := let 'mkNode _ d _ _ := n in d.
Definition Attr (n : Node) : list Attribute := let 'mkNode _ _ a _ := n in a.
Definition children (n : Node) : list Node := let 'mkNode _ _ _ c := n in c.
Definition FirstChild (n : Node) : option Node := head (children n).

Definition NodeType_eqb (a b : NodeType) : bool :=
  match a, b with
  | ErrorNode, ErrorNode | TextNode, TextNode | DocumentNode, DocumentNode
  | ElementNode, ElementNode | CommentNode, CommentNode
  | DoctypeNode, DoctypeNode => true
  | _, _ => false
  end.

Inductive EntryType := InvalidEntry | FileEntry | FolderEntry | FolderParentEntry.

(** A [*html.Node] argument may be nil: [option Node]. *)
Definition getSubNodes (node : option Node) (nodeKey : string) : list Node :=
  match node with
  | None => []
  | Some n => List.filter (fun child => String.eqb (Data child) nodeKey) (children n)
  end.

Definition getAttribute (node : option Node) (attrKey : string) : option Attribute :=
  match node with
  | None => None
  | Some n => List.find (fun attribute => String.eqb (Key attribute) attrKey) (Attr n)
  end.

(** The [GetEntry...] functions write their result through a pointer and
    return whether they succeeded: here the pair of both. *)
Definition GetEntryType (node : option Node) : bool * EntryType :=
  match node with
  | None => (false, InvalidEntry)
  | Some n =>
      match FirstChild n with
      | None => (false, InvalidEntry)
      | Some img =>
          if negb (String.eqb (Data img) "img") then (false, InvalidEntry)
          else match getAttribute (Some img) "alt" with
               | None => (false, InvalidEntry)
               | Some altAttr =>
                   let entryType :=
                     if String.eqb (Val altAttr) "file" then FileEntry
                     else if String.eqb (Val altAttr) "folder" then FolderEntry
                     else if String.eqb (Val altAttr) "folder-parent" then FolderParentEntry
                     else InvalidEntry in
                   (match entryType with InvalidEntry => false | _ => true end,
                    entryType)
               end
      end
  end.

Definition GetEntryPath (node : option Node) : bool * string :=
  match node with
  | None => (false, "")
  | Some n =>
      match FirstChild n with
      | None => (false, "")
      | Some a =>
          if negb (String.eqb (Data a) "a") then (false, "")
          else match getAttribute (Some a) "href" with
               | None => (false, "")
               | Some altAttr => (true, Val altAttr)
               end
      end
  end.

Section Parse.

(** [time.Parse("2006-01-02 15:04", data)]: only whether it succeeds
    matters, the parsed time is never read. *)
Variable time_Parse_ok : string -> bool.

Definition GetEntryTime (node : option Node) : bool :=
  match node with
  | None => false
  | Some n =>
      match FirstChild n with
      | None => false
      | Some c => time_Parse_ok (Data c)
      end
  end.

(** part_000: a bare byte count, or a count with the suffix [" KB"],
    which is multiplied by 1000 (in [int64], so with wrap-around). *)
Definition GetEntrySize_000 (node : option Node) : bool * Z :=
  match node with
  | None => (false, 0)
  | Some n =>
      match FirstChild n with
      | None => (false, 0)
      | Some c =>
          let data := Data c in
          let isKb := Go.HasSuffix data " KB" in
          let data := if isKb then String.substring 0 (Go.len data - 3) data else data in
          match Go.ParseInt data with
          | None => (false, 0)
          | Some i => (true, if isKb then Go.wrap64 (i * 1000) else i)
          end
      end
  end.

(** part_001: the suffix [" KB"] is required and the number is kept as
    it stands. *)
Definition GetEntrySize_001 (node : option Node) : bool * Z :=
  match node with
  | None => (false, 0)
  | Some n =>
      match FirstChild n with
      | None => (false, 0)
      | Some c =>
          let data := Data c in
          if negb (Go.HasSuffix data " KB") then (false, 0)
          else match Go.ParseInt (String.substring 0 (Go.len data - 3) data) with
               | None => (false, 0)
               | Some i => (true, i)
               end
      end
  end.

(** The four locals of [ParseEntry]; [entryTime] is kept as "parsed or
    not" only. *)
Record Fields := {
  entryType : EntryType;
  entryPath : string;
  entrySize : Z;
}.

Definition Fields0 : Fields :=
  {| entryType := InvalidEntry; entryPath := ""; entrySize := 0 |}.

Variable GetEntrySize : option Node -> bool * Z.

(** One turn of [for _, tdNode := range getSubNodes(node, "td")]:
    [None] is the [return] out of [ParseEntry]. *)
Definition parseCell (tdNode : Node) (f : Fields) : option Fields :=
  match getAttribute (Some tdNode) "class" with
  | None => None
  | Some classAttr =>
      let cls := Val classAttr in
      if String.eqb cls "fb-i" then
        let '(parseResult, t) := GetEntryType (Some tdNode) in
        if parseResult
        then Some {| entryType := t; entryPath := entryPath f; entrySize := entrySize f |}
        else None
      else if String.eqb cls "fb-n" then
        let '(parseResult, p) := GetEntryPath (Some tdNode) in
        if parseResult
        then Some {| entryType := entryType f; entryPath := p; entrySize := entrySize f |}
        else None
      else if String.eqb cls "fb-d" then
        if GetEntryTime (Some tdNode) then Some f else None
      else if String.eqb cls "fb-s" then
        let '(parseResult, z) := GetEntrySize (Some tdNode) in
        if parseResult
        then Some {| entryType := entryType f; entryPath := entryPath f; entrySize := z |}
        else None
      else None
  end.

Fixpoint parseCells (tds : list Node) (f : Fields) : option Fields :=
  match tds with
  | [] => Some f
  | tdNode :: rest =>
      match parseCell tdNode f with
      | None => None
      | Some f' => parseCells rest f'
      end
  end.

(** The row's fields if the cell loop ran to its end. *)
Definition rowFields (node : option Node) : option Fields :=
  match node with
  | None => None
  | Some _ => parseCells (getSubNodes node "td") Fields0
  end.

End Parse.

(** The check after the cell loop:
    [if entryType == InvalidEntry || entryType == FolderParentEntry { return }]. *)
Definition accepted (time_Parse_ok : string -> bool)
    (GetEntrySize : option Node -> bool * Z) (node : option Node) : option Fields :=
  match rowFields time_Parse_ok GetEntrySize node with
  | None => None
  | Some f =>
      match entryType f with
      | InvalidEntry | FolderParentEntry => None
      | _ => Some f
      end
  end.

(** Whether a row has a size cell at all. *)
Definition has_size_cell (node : option Node) : bool :=
  existsb (fun tdNode =>
             match getAttribute (Some tdNode) "class" with
             | Some classAttr => String.eqb (Val classAttr) "fb-s"
             | None => false
             end)
          (getSubNodes node "td").

(** part_000 [ParseEntry]: the href is dispatched as it stands. *)
Definition ParseEntry_000 (time_Parse_ok : string -> bool) (node : option Node) : Dispatch :=
  match rowFields time_Parse_ok GetEntrySize_000 node with
  | None => Skips
  | Some f =>
      match entryType f with
      | InvalidEntry | FolderParentEntry => Skips
      | FolderEntry => Calls (Crawl (entryPath f))
      | FileEntry => Calls (Save (entryPath f) (entrySize f))
      end
  end.

(** part_001 [ParseEntry]: [entryPath[0]] is read without a length
    check, a leading ['/'] is cut, and the result is appended to
    [baseUrl]. *)
Definition ParseEntry_001 (time_Parse_ok : string -> bool) (baseUrl : string)
    (node : option Node) : Dispatch :=
  match rowFields time_Parse_ok GetEntrySize_001 node with
  | None => Skips
  | Some f =>
      match entryType f with
      | InvalidEntry | FolderParentEntry => Skips
      | t =>
          match Go.index (entryPath f) 0 with
          | None => Panics
          | Some c0 =>
              let entryPath :=
                if Ascii.eqb c0 "/"
                then String.substring 1 (Go.len (entryPath f) - 1) (entryPath f)
                else entryPath f in
              let entryUrl := baseUrl ++ entryPath in
              match t with
              | FolderEntry => Calls (Crawl entryUrl)
              | _ => Calls (Save entryUrl (entrySize f))
              end
          end
      end
  end.

(** The closure [f] of [crawlDirectory]: at a [tbody] element every
    [tr] child goes through [ParseEntry]; then every child is visited. *)
Fixpoint walk (ParseEntry : option Node -> Dispatch) (node : Node) : list Dispatch :=
  let 'mkNode t d _ cs := node in
  (if NodeType_eqb t ElementNode && String.eqb d "tbody"
   then List.map (fun trNode => ParseEntry (Some trNode)) (getSubNodes (Some node) "tr")
   else [])
  ++ List.flat_map (walk ParseEntry) cs.

End Html.

(* ===================================================================== *)
(** ** Local paths                                                       *)
(* ===================================================================== *)

Module Paths.

(** main.go and part_000, [getDownloadPath]: the loop over
    [strings.Split(entryPath, "/")], [parts] growing by [append];
    a component that does not unescape ends the function with the
    error. *)
Fixpoint getDownloadPath_loop (strs : list string) (parts : list string)
  : option (list string) :=
  match strs with
  | [] => Some parts
  | str :: rest =>
      match Go.PathUnescape str with
      | None => None
      | Some str =>
          let str := Go.TrimSpace str in
          if (0 <? Go.len str)%nat
          then getDownloadPath_loop rest (parts ++ [str])
          else getDownloadPath_loop rest parts
      end
  end.

Definition getDownloadPath (entryPath : string) : option string :=
  match getDownloadPath_loop (Go.Split entryPath "/") ["downloads"] with
  | None => None
  | Some parts => Some (Go.Join parts "/")
  end.

(** The derivation in the words of the specification: split the remote
    path into components, percent-decode each, trim white space, drop
    the components that became empty, join the rest under the root
    ["downloads"]. *)
Definition spec_local_path (location : string) : option string :=
  match mapM Go.PathUnescape (Go.Split location "/") with
  | None => None
  | Some decoded =>
      Some (Go.Join
              ("downloads" ::
                 List.filter (fun c => negb (String.eqb c ""))
                             (List.map Go.TrimSpace decoded))
              "/")
  end.

(** part_001, the head of [downloadUrl]: [fileUrl[25:]] (a panic when
    the URL is shorter), [url.QueryUnescape] of that, and ["downloads/"]
    put in front. *)
Inductive Derived :=
| OutOfRange
| EscapeError
| LocalPath (fileName : string).

Definition fileName_001 (fileUrl : string) : Derived :=
  match Go.slice_from fileUrl 25 with
  | None => OutOfRange
  | Some tail =>
      match Go.QueryUnescape tail with
      | None => EscapeError
      | Some fileName => LocalPath ("downloads/" ++ fileName)
      end
  end.

End Paths.

(* ===================================================================== *)
(** ** One [crawlDirectory] call                                        *)
(* ===================================================================== *)

Module Crawl.

(** main.go: an item of the JSON listing. *)
Record FileEntry := { Path : string; Time : Z; Size : Z }.

(** main.go, the body of [for _, entry := range fileEntries]. *)
Definition visit (entryPath : string) (entry : FileEntry) : Dispatch :=
  if String.eqb entryPath (Path entry) || negb (Go.HasPrefix (Path entry) entryPath)
  then Skips
  else if Go.HasSuffix (Path entry) "/"
       then Calls (Crawl (Path entry))
       else Calls (Save (Path entry) (Size entry)).

(** main.go [crawlDirectory]: [getFileIndex] answers with the items or
    with an error ([None]), which ends the call. *)
Definition crawlDirectory (getFileIndex : string -> option (list FileEntry))
    (entryPath : string) : list Dispatch :=
  match getFileIndex entryPath with
  | None => []
  | Some fileEntries => List.map (visit entryPath) fileEntries
  end.

(** part_000 and part_001 [crawlDirectory]: [http.Get] and [html.Parse]
    answer with the document or fail ([None]); the document is walked. *)
Definition crawlDirectory_html (ParseEntry : option Html.Node -> Dispatch)
    (fetch : string -> option Html.Node) (url : string) : list Dispatch :=
  match fetch url with
  | None => []
  | Some doc => Html.walk ParseEntry doc
  end.

(** The calls a dispatch list really makes, in order: a panic ends the
    process, so nothing after it is reached. *)
Fixpoint reached (ds : list Dispatch) : list Work :=
  match ds with
  | [] => []
  | Skips :: rest => reached rest
  | Calls w :: rest => w :: reached rest
  | Panics :: _ => []
  end.

End Crawl.

(* ===================================================================== *)
(** ** Recording and downloading one file                                *)
(* ===================================================================== *)

Module Download.

(** The status word of a printed line. *)
Inductive Status := Intact | Damaged | Downloading | Saving | Failure.

(** What [resp.Body.Read(buffer)] answers with an error. *)
Inductive ReadError := io_EOF | io_Broken.

(** A response body, seen through [Read]: the reads that return
    [err == nil], then the first read that returns an error ([io.EOF] at
    the end of the stream), which may hand over bytes as well. *)
Record Body := {
  chunks : list string;
  last_data : string;
  last_err : ReadError;
}.

(** Every byte of the body, in order. *)
Definition content (b : Body) : string :=
  String.concat "" (chunks b) ++ last_data b.

(** The operations the program performs on the outside world. *)
Inductive Event :=
| EWriteString (s : string)
| EMkdirAll (fileName : string)
| EStat (name : string)
| ERemove (name : string)
| EGet (url : string)
| ECreate (name : string)
| EWrite (name : string) (data : string)
| EPrintf (nThreads : option Z) (status : Status) (subject : string).

Definition is_EGet (e : Event) : bool :=
  match e with EGet _ => true | _ => false end.

Definition is_EWriteString (e : Event) : bool :=
  match e with EWriteString _ => true | _ => false end.

(** What the network and the operating system answer. The local disk
    itself is state ([files] below); that an operation on it fails is
    the environment's choice. *)
Record Env := {
  (** [getDownloadUrl(hostUrl, entryPath)] *)
  getDownloadUrl : string -> string;
  (** [http.Get(url)]: the body, or [None] for an error *)
  http_Get : string -> option Body;
  (** [os.MkdirAll(filepath.Dir(fileName), os.ModePerm) == nil] *)
  os_MkdirAll_ok : string -> bool;
  (** [os.Create(fileName)] succeeds *)
  os_Create_ok : string -> bool;
  (** [file.Write] succeeds on the file of this name holding this many bytes *)
  file_Write_ok : string -> nat -> bool;
  (** [urlFile.WriteString] succeeds *)
  urlFile_Write_ok : string -> bool;
  (** [os.Remove(name) == nil], for a file this process holds open
      ([true]) or does not ([false]): where an open file cannot be
      deleted (Windows), the answer for [true] is [false] *)
  os_Remove_ok : string -> bool -> bool;
}.

(** The local state: the files under the working directory by name, and
    the text of [urls.txt]. *)
Record World := {
  files : gmap string string;
  urlFile : string;
}.

Record Outcome (A : Type) := {
  value : A;
  world : World;
  events : list Event;
}.
Arguments value {A} _.
Arguments world {A} _.
Arguments events {A} _.

(** State passing with a log of the operations performed. *)
Definition M (A : Type) : Type := World -> Outcome A.

#[global] Instance M_ret : MRet M :=
  fun A a w => {| value := a; world := w; events := [] |}.

#[global] Instance M_bind : MBind M :=
  fun A B f m w =>
    let r := m w in
    let r' := f (value r) (world r) in
    {| value := value r'; world := world r'; events := events r ++ events r' |}.

Definition emit (e : Event) : M unit :=
  fun w => {| value := tt; world := w; events := [e] |}.

Definition Printf (nThreads : option Z) (status : Status) (subject : string) : M unit :=
  emit (EPrintf nThreads status subject).

(** The size of the copy buffer: the literal 4096 of [make([]byte, 4096)]
    and of [n != 4096]. *)
Definition bufferSize : nat := 4096%nat.

(** [make([]byte, n)] *)
Fixpoint make (n : nat) : string :=
  match n with
  | O => EmptyString
  | S n' => String zero (make n')
  end.

(** [n, err := resp.Body.Read(buffer)] handing over [data]: the bytes
    fill the front of the buffer, the rest of it is left as it was. *)
Definition Read (buffer data : string) : nat * string :=
  (Go.len data,
   data ++ String.substring (Go.len data) (Go.len buffer - Go.len data) buffer).

Section Program.

Variable env : Env.
Variable writeUrlOnly : bool.

Definition os_MkdirAll (fileName : string) : M bool :=
  fun w => {| value := os_MkdirAll_ok env fileName; world := w;
              events := [EMkdirAll fileName] |}.

(** [GetFileSize]: [os.Stat] fails when there is no such file. *)
Definition GetFileSize (name : string) : M (option Z) :=
  fun w => {| value := (fun c => Z.of_nat (Go.len c)) <$> files w !! name;
              world := w; events := [EStat name] |}.

(** [os.Remove(name)], its error dropped as the program drops it:
    the file is gone when the call succeeds and stays as it is when it
    fails. [opened] says whether the program holds the file open at
    the call. *)
Definition os_Remove (name : string) (opened : bool) : M unit :=
  fun w => {| value := tt;
              world := if os_Remove_ok env name opened
                       then {| files := delete name (files w); urlFile := urlFile w |}
                       else w;
              events := [ERemove name] |}.

Definition http_Get_ (url : string) : M (option Body) :=
  fun w => {| value := http_Get env url; world := w; events := [EGet url] |}.

(** [os.Create]: the file exists and is empty afterwards. *)
Definition os_Create (name : string) : M bool :=
  fun w =>
    if os_Create_ok env name
    then {| value := true;
            world := {| files := <[name := ""]> (files w); urlFile := urlFile w |};
            events := [ECreate name] |}
    else {| value := false; world := w; events := [ECreate name] |}.

(** [file.Write(data)]: the bytes go to the end of the file. *)
Definition file_Write (name data : string) : M bool :=
  fun w =>
    let old := default "" (files w !! name) in
    if file_Write_ok env name (Go.len old)
    then {| value := true;
            world := {| files := <[name := old ++ data]> (files w);
                        urlFile := urlFile w |};
            events := [EWrite name data] |}
    else {| value := false; world := w; events := [EWrite name data] |}.

(** [writeUrl]: under the mutex, [urlFile.WriteString(fileUrl + "\n")];
    its error is dropped. *)
Definition writeUrl (fileUrl : string) : M unit :=
  fun w =>
    let line := fileUrl ++ String "010" "" in
    {| value := tt;
       world := if urlFile_Write_ok env line
                then {| files := files w; urlFile := urlFile w ++ line |}
                else w;
       events := [EWriteString line] |}.

(** The [for] loop of [downloadUrl]. [tag] is the thread count the
    printed lines carry (main.go, part_000) or nothing (part_001). The
    file is open throughout: [defer file.Close()] runs when
    [downloadUrl] returns, after every [os.Remove] of the loop. *)
Fixpoint copy (tag : option Z) (fileName buffer : string)
    (reads : list string) (last : string * ReadError) : M unit :=
  match reads with
  | data :: rest =>
      (* err == nil *)
      let '(n, buffer) := Read buffer data in
      ok ← (if negb (n =? bufferSize)%nat
            then file_Write fileName (String.substring 0 n buffer)
            else file_Write fileName buffer);
      if (ok : bool) then copy tag fileName buffer rest last
      else Printf tag Failure fileName ;; os_Remove fileName true
  | [] =>
      (* err != nil: the function returns before any Write *)
      let '(n, buffer) := Read buffer (fst last) in
      match snd last with
      | io_EOF => mret tt
      | io_Broken => Printf tag Failure fileName ;; os_Remove fileName true
      end
  end.

(** [downloadUrl] from [folder := filepath.Dir(fileName)] to its end,
    the text the three variants share. *)
Definition download (tag : option Z) (fileName entryUrl : string)
    (downloadSize : Z) : M unit :=
  made ← os_MkdirAll fileName;
  if negb (made : bool) then mret tt else
  (* Verify file integrity *)
  size ← GetFileSize fileName;
  intact ← match size with
           | Some fileSize =>
               if fileSize =? downloadSize
               then Printf tag Intact fileName ;; mret true
               else Printf tag Damaged fileName ;; os_Remove fileName false ;; mret false
           | None => mret false
           end;
  if (intact : bool) then mret tt else
  Printf tag Downloading entryUrl ;;
  resp ← http_Get_ entryUrl;
  match resp with
  | None => Printf None Failure entryUrl
  | Some body =>
      Printf tag Saving fileName ;;
      created ← os_Create fileName;
      if negb (created : bool)
      then Printf None Failure fileName ;; os_Remove fileName false
      else copy tag fileName (make bufferSize) (chunks body) (last_data body, last_err body)
  end.

(** main.go and part_000 [downloadUrl]; [nThreads] is what
    [atomic.LoadInt64(&threads)] reads. *)
Definition downloadUrl (nThreads : Z) (entryPath : string) (downloadSize : Z) : M unit :=
  match Paths.getDownloadPath entryPath with
  | None => mret tt
  | Some fileName =>
      download (Some nThreads) fileName (getDownloadUrl env entryPath) downloadSize
  end.

(** main.go and part_000 [saveContent] *)
Definition saveContent (nThreads : Z) (fileUrl : string) (downloadSize : Z) : M unit :=
  writeUrl fileUrl ;;
  if negb writeUrlOnly then downloadUrl nThreads fileUrl downloadSize else mret tt.

(** How a call ends: it returns, or the process dies in a panic. *)
Inductive Exit := Returned | Panicked.

(** part_001 [downloadUrl] *)
Definition downloadUrl_001 (fileUrl : string) (downloadSize : Z) : M Exit :=
  match Paths.fileName_001 fileUrl with
  | Paths.OutOfRange => mret Panicked
  | Paths.EscapeError => mret Returned
  | Paths.LocalPath fileName =>
      download None fileName fileUrl downloadSize ;; mret Returned
  end.

(** part_001 [saveContent] *)
Definition saveContent_001 (fileUrl : string) (downloadSize : Z) : M Exit :=
  writeUrl fileUrl ;;
  if negb writeUrlOnly then downloadUrl_001 fileUrl downloadSize else mret Returned.

End Program.

(** Whether every [Write] of the loop succeeds, the file holding
    [written] bytes before the first of them. *)
Fixpoint writes_ok (env : Env) (name : string) (written : nat) (reads : list string) : bool :=
  match reads with
  | [] => true
  | data :: rest =>
      file_Write_ok env name written
      && writes_ok env name (written + Go.len data) rest
  end.

(** The reads the loop has written when it ends: those before the first
    [Write] that fails. *)
Fixpoint kept (env : Env) (name : string) (written : nat) (reads : list string)
    : list string :=
  match reads with
  | [] => []
  | data :: rest =>
      if file_Write_ok env name written
      then data :: kept env name (written + Go.len data) rest
      else []
  end.

(** The stream ends cleanly: every [Write] succeeds and the error that
    ends the reads is [io.EOF]. *)
Definition clean (env : Env) (fileName : string) (written : nat) (reads : list string)
    (err : ReadError) : bool :=
  writes_ok env fileName written reads
  && match err with io_EOF => true | io_Broken => false end.

(** The integrity check lets the download through: there is no local
    file of that name, or its size is not [downloadSize]. *)
Definition local_differs (w : World) (fileName : string) (downloadSize : Z) : bool :=
  match files w !! fileName with
  | Some c => negb (Z.of_nat (Go.len c) =? downloadSize)
  | None => true
  end.

(** An event that is neither a fetch nor a manifest record. *)
Definition quiet (e : Event) : bool := negb (is_EGet e) && negb (is_EWriteString e).

(** The events of a run that are network fetches. *)
Definition fetches {A} (r : Outcome A) : list Event := List.filter is_EGet (events r).

(** The events of a run that record a URL in the manifest. *)
Definition records {A} (r : Outcome A) : list Event :=
  List.filter is_EWriteString (events r).

End Download.

(* ===================================================================== *)
(** ** Goroutines, the admission counter and the wait group              *)
(* ===================================================================== *)

Module Sched.

(** What a goroutine has left to do, one entry per atomic step.
    - [IAsync w]: the entry of [crawlDirectoryAsync] / [saveContentAsync],
      up to and including [nThreads := atomic.AddInt64(&threads, 1)];
    - [IBranch nThreads w]: [if nThreads <= maxThreads { go f_async() }
      else { ... }], up to the [go] statement or to the [else];
    - [IAddInt64 delta]: [atomic.AddInt64(&threads, delta)];
    - [IRun w]: the call [crawlDirectory(p)] (the listing is fetched and
      the loop over its entries is laid out) or [saveContent(p, size)]
      (one step: its file operations are not interleaved with those of
      other goroutines, and no statement below depends on that);
    - [IWgAdd], [IWgDone], [IWgWait]: the [sync.WaitGroup] [wg], seen
      as its counter: [Add] and [Done] change it and panic when it would
      go negative, [Wait] returns once it is 0. The library's own checks
      for misuse (a [Wait] that wakes to find the group in use again) are
      not part of the machine; they need a [Wait] in progress, so they
      cannot fire before [main] has called [wg.Wait()];
    - [ISleep]: [time.Sleep(time.Second)], which orders nothing;
    - [IPrintln]: [println];
    - [IPanic]: a run-time panic. *)
Inductive Instr :=
| IAsync (w : Work)
| IBranch (nThreads : Z) (w : Work)
| IAddInt64 (delta : Z)
| IRun (w : Work)
| IWgAdd (delta : Z)
| IWgDone
| ISleep
| IWgWait
| IPrintln (s : string)
| IPanic.

(** The whole program: goroutine 0 is [main], [go] appends. *)
Record State := {
  threads : Z;
  wg : Z;
  pool : list (list Instr);
  disk : Download.World;
  log : list Download.Event;
  printed : list string;
}.

Definition with_pool (p : list (list Instr)) (s : State) : State :=
  {| threads := threads s; wg := wg s; pool := p; disk := disk s;
     log := log s; printed := printed s |}.

Definition with_threads (n : Z) (s : State) : State :=
  {| threads := n; wg := wg s; pool := pool s; disk := disk s;
     log := log s; printed := printed s |}.

Definition with_wg (n : Z) (s : State) : State :=
  {| threads := threads s; wg := n; pool := pool s; disk := disk s;
     log := log s; printed := printed s |}.

(** The closure [f_async] of both [...Async] functions: [wg.Add(1)], the
    work, the decrement, and last the deferred [wg.Done()]. *)
Definition f_async (w : Work) : list Instr :=
  [IWgAdd 1; IRun w; IAddInt64 (-1); IWgDone].

Definition lay_out (d : Dispatch) : list Instr :=
  match d with
  | Skips => []
  | Calls w => [IAsync w]
  | Panics => [IPanic]
  end.

(** [main] from [crawlDirectory(requestPath)] on. *)
Definition main (requestPath : string) : list Instr :=
  [IRun (Crawl requestPath); ISleep; IWgWait; IPrintln "Done!"].

Definition init (requestPath : string) (w : Download.World) : State :=
  {| threads := 0; wg := 0; pool := [main requestPath]; disk := w;
     log := []; printed := [] |}.

(** [main] has returned: the process is over, whatever the other
    goroutines had left. *)
Definition exited (s : State) : bool :=
  match pool s !! 0%nat with
  | Some [] => true
  | _ => false
  end.

(** Every goroutine has run to its end. *)
Definition all_done (s : State) : bool :=
  forallb (fun g => match g with [] => true | _ => false end) (pool s).

(** A step of [main]'s tail: it neither dispatches nor runs work, and
    does not touch [threads]. *)
Definition idle (instr : Instr) : bool :=
  match instr with
  | ISleep | IWgWait | IPrintln _ => true
  | _ => false
  end.

(** Every branch, concurrent or inline, has run to its end: no
    goroutine has anything left but steps of [main]'s tail. *)
Definition branches_complete (s : State) : bool :=
  forallb (forallb idle) (pool s).

Section Machine.

(** The admission limit: [maxThreads] in main.go and part_000, the
    constant 12 in part_001. *)
Variable maxThreads : Z.
(** The variant's [crawlDirectory]: what it dispatches, in order. *)
Variable crawlDirectory : string -> list Dispatch.
(** The variant's [saveContent], given what [threads] holds. *)
Variable saveContent : Z -> string -> Z -> Download.M Download.Exit.

(** One atomic step of goroutine [i]; [None] when it has none: the
    goroutine is finished or blocked in [wg.Wait()], or the process is
    over (by [main] returning, or by the panic this step would be). *)
Definition exec (i : nat) (s : State) : option State :=
  if exited s then None else
  match pool s !! i with
  | Some (instr :: k) =>
      match instr with
      | IAsync w =>
          let nThreads := Go.wrap64 (threads s + 1) in
          Some (with_pool (<[i := IBranch nThreads w :: k]> (pool s))
                          (with_threads nThreads s))
      | IBranch nThreads w =>
          if nThreads <=? maxThreads
          then Some (with_pool (<[i := k]> (pool s) ++ [f_async w])%list s)
          else Some (with_pool (<[i := IAddInt64 (-1) :: IRun w :: k]> (pool s)) s)
      | IAddInt64 delta =>
          Some (with_pool (<[i := k]> (pool s))
                          (with_threads (Go.wrap64 (threads s + delta)) s))
      | IRun (Crawl entryPath) =>
          Some (with_pool
                  (<[i := (List.flat_map lay_out (crawlDirectory entryPath) ++ k)%list]> (pool s))
                  s)
      | IRun (Save entryPath fileSize) =>
          let r := saveContent (threads s) entryPath fileSize (disk s) in
          match Download.value r with
          | Download.Returned =>
              Some {| threads := threads s; wg := wg s;
                      pool := <[i := k]> (pool s);
                      disk := Download.world r;
                      log := log s ++ Download.events r;
                      printed := printed s |}
          | Download.Panicked => None
          end
      | IWgAdd delta =>
          if wg s + delta <? 0 then None
          else Some (with_pool (<[i := k]> (pool s)) (with_wg (wg s + delta) s))
      | IWgDone =>
          if wg s - 1 <? 0 then None
          else Some (with_pool (<[i := k]> (pool s)) (with_wg (wg s - 1) s))
      | ISleep => Some (with_pool (<[i := k]> (pool s)) s)
      | IWgWait =>
          if wg s =? 0 then Some (with_pool (<[i := k]> (pool s)) s) else None
      | IPrintln line =>
          Some {| threads := threads s; wg := wg s;
                  pool := <[i := k]> (pool s);
                  disk := disk s; log := log s;
                  printed := printed s ++ [line] |}
      | IPanic => None
      end
  | _ => None
  end.

(** A schedule names the goroutine that steps next. *)
Fixpoint run (schedule : list nat) (s : State) : option State :=
  match schedule with
  | [] => Some s
  | i :: rest =>
      match exec i s with
      | Some s' => run rest s'
      | None => None
      end
  end.

End Machine.

(** What a goroutine's remaining steps will still take from [threads]:
    a pending branch owes the decrement of either arm. *)
Definition owed (instr : Instr) : Z :=
  match instr with
  | IBranch _ _ => 1
  | IAddInt64 delta => - delta
  | _ => 0
  end.

Fixpoint owed_by (g : list Instr) : Z :=
  match g with
  | [] => 0
  | instr :: k => owed instr + owed_by k
  end.

Fixpoint owed_in (p : list (list Instr)) : Z :=
  match p with
  | [] => 0
  | g :: rest => owed_by g + owed_in rest
  end.

(** [threads] holds what the goroutines still owe it, in [int64]. *)
Definition balanced (s : State) : Prop :=
  threads s = Go.wrap64 (owed_in (pool s)).

(** The three programs as instances of the machine. *)
Definition saveContent_main (env : Download.Env) (writeUrlOnly : bool)
    (nThreads : Z) (fileUrl : string) (downloadSize : Z) : Download.M Download.Exit :=
  Download.saveContent env writeUrlOnly nThreads fileUrl downloadSize ;;
  mret Download.Returned.

Definition exec_main (maxThreads : Z)
    (getFileIndex : string -> option (list Crawl.FileEntry))
    (env : Download.Env) (writeUrlOnly : bool) : nat -> State -> option State :=
  exec maxThreads (Crawl.crawlDirectory getFileIndex) (saveContent_main env writeUrlOnly).

Definition run_main (maxThreads : Z)
    (getFileIndex : string -> option (list Crawl.FileEntry))
    (env : Download.Env) (writeUrlOnly : bool) : list nat -> State -> option State :=
  run maxThreads (Crawl.crawlDirectory getFileIndex) (saveContent_main env writeUrlOnly).

Definition run_000 (maxThreads : Z) (time_Parse_ok : string -> bool)
    (fetch : string -> option Html.Node)
    (env : Download.Env) (writeUrlOnly : bool) : list nat -> State -> option State :=
  run maxThreads
      (Crawl.crawlDirectory_html (Html.ParseEntry_000 time_Parse_ok) fetch)
      (saveContent_main env writeUrlOnly).

Definition run_001 (time_Parse_ok : string -> bool) (baseUrl : string)
    (fetch : string -> option Html.Node)
    (env : Download.Env) (writeUrlOnly : bool) : list nat -> State -> option State :=
  run 12
      (Crawl.crawlDirectory_html (Html.ParseEntry_001 time_Parse_ok baseUrl) fetch)
      (fun _ => Download.saveContent_001 env writeUrlOnly).

End Sched.

(* ===================================================================== *)
(** ** Listings and worlds to run the program on                         *)
(* ===================================================================== *)

Module Fixtures.

Import Html.

Definition element (tag : string) (attrs : list Attribute) (cs : list Node) : Node :=
  mkNode ElementNode tag attrs cs.

Definition text (s : string) : Node := mkNode TextNode s [] [].

(** [<td class="fb-i"><img alt=...></td>] *)
Definition icon_cell (alt : string) : Node :=
  element "td" [{| Key := "class"; Val := "fb-i" |}]
          [element "img" [{| Key := "alt"; Val := alt |}] []].

(** [<td class="fb-n"><a href=...>name</a></td>] *)
Definition name_cell (href name : string) : Node :=
  element "td" [{| Key := "class"; Val := "fb-n" |}]
          [element "a" [{| Key := "href"; Val := href |}] [text name]].

(** [<td class="fb-s">size</td>] *)
Definition size_cell (size : string) : Node :=
  element "td" [{| Key := "class"; Val := "fb-s" |}] [text size].

Definition row (cells : list Node) : Node := element "tr" [] cells.

(** [<html><body><table><tbody>rows</tbody></table></body></html>] *)
Definition page (rows : list Node) : Node :=
  mkNode DocumentNode "" []
    [element "html" []
       [element "body" []
          [element "table" [] [element "tbody" [] rows]]]].

(** No row below has a date cell, so the date parser is never asked. *)
Definition no_dates : string -> bool := fun _ => false.

(** A listing of [/docs/] that lists [/docs/] itself as a folder. *)
Definition echo_row : Node := row [icon_cell "folder"; name_cell "/docs/" "docs"].
Definition echo_page (url : string) : option Node :=
  if String.eqb url "/docs/" then Some (page [echo_row]) else None.

(** A file row whose link has an empty [href]. *)
Definition empty_href_row : Node := row [icon_cell "file"; name_cell "" "x"].

(** A file row under a short base URL. *)
Definition short_row : Node :=
  row [icon_cell "file"; name_cell "/x" "x"; size_cell "1 KB"].

(** A file row that reports no size. *)
Definition sizeless_row : Node := row [icon_cell "file"; name_cell "/a.txt" "a.txt"].

(** A remote host: the file [/d/f] arrives as two reads and a last read
    that brings one more byte together with [io.EOF]; [/d/broken]
    breaks after its first read; everything on the local side works. *)
Definition host : Download.Env := {|
  Download.getDownloadUrl := fun entryPath => "http://h" ++ entryPath;
  Download.http_Get := fun url =>
    if String.eqb url "http://h/d/f"
    then Some {| Download.chunks := ["abc"; "de"]; Download.last_data := "f";
                 Download.last_err := Download.io_EOF |}
    else if String.eqb url "http://h/d/broken"
    then Some {| Download.chunks := ["abc"]; Download.last_data := "";
                 Download.last_err := Download.io_Broken |}
    else None;
  Download.os_MkdirAll_ok := fun _ => true;
  Download.os_Create_ok := fun _ => true;
  Download.file_Write_ok := fun _ _ => true;
  Download.urlFile_Write_ok := fun _ => true;
  Download.os_Remove_ok := fun _ _ => true;
|}.

(** The same host, reached from a system on which a file that is open
    cannot be deleted, as on Windows: [os.Remove] succeeds on a closed
    file only. *)
Definition host_on_windows : Download.Env := {|
  Download.getDownloadUrl := Download.getDownloadUrl host;
  Download.http_Get := Download.http_Get host;
  Download.os_MkdirAll_ok := fun _ => true;
  Download.os_Create_ok := fun _ => true;
  Download.file_Write_ok := fun _ _ => true;
  Download.urlFile_Write_ok := fun _ => true;
  Download.os_Remove_ok := fun _ opened => negb opened;
|}.

Definition empty_disk : Download.World :=
  {| Download.files := ∅; Download.urlFile := "" |}.

(** The local copy of [/a.txt] exists and holds 5 bytes. *)
Definition disk_with_copy : Download.World :=
  {| Download.files := {[ "downloads/a.txt" := "hello" ]}; Download.urlFile := "" |}.

(** The local copy of [/a.txt] exists and is empty. *)
Definition disk_with_empty_file : Download.World :=
  {| Download.files := {[ "downloads/a.txt" := "" ]}; Download.urlFile := "" |}.

(** The tree behind [host]: [/] holds the directory [/d/], which holds
    the file [/d/f] of 6 bytes. *)
Definition tree (entryPath : string) : option (list Crawl.FileEntry) :=
  if String.eqb entryPath "/"
  then Some [ {| Crawl.Path := "/d/"; Crawl.Time := 0; Crawl.Size := 0 |} ]
  else if String.eqb entryPath "/d/"
  then Some [ {| Crawl.Path := "/d/f"; Crawl.Time := 0; Crawl.Size := 6 |} ]
  else None.

End Fixtures.

(* ===================================================================== *)
(** ** Predicates for the statements about paths                         *)
(* ===================================================================== *)

Module Plain.

(** A visible ASCII byte other than ['%']: it needs no unescaping and
    is no white space. *)
Definition visible (c : ascii) : bool :=
  let n := nat_of_ascii c in
  ((33 <=? n) && (n <=? 126) && negb (n =? 37))%nat.

Fixpoint all_visible (s : string) : bool :=
  match s with
  | EmptyString => true
  | String c rest => visible c && all_visible rest
  end.

(** A path component that [getDownloadPath] keeps as it is: not empty,
    made of visible bytes only. *)
Definition component (s : string) : bool :=
  negb (String.eqb s "") && all_visible s.

End Plain.

(* ===================================================================== *)
(** ** part_001: the start of [main]                                     *)
(* ===================================================================== *)

Module Startup.

(** [strconv.ParseBool] *)
Definition ParseBool (str : string) : option bool :=
  if existsb (String.eqb str) ["1"; "t"; "T"; "TRUE"; "true"; "True"] then Some true
  else if existsb (String.eqb str) ["0"; "f"; "F"; "FALSE"; "false"; "False"]
       then Some false
       else None.

(** How [main] gets on before the crawl. *)
Inductive Started :=
| Usage                       (* [printUsage(); return] *)
| IndexPanic                  (* [baseUrl[len(baseUrl)-1]] out of range *)
| NoManifest                  (* [os.Create("urls.txt")] failed *)
| Run (baseUrl : string) (writeUrlOnly : bool).

(** part_001 [main] up to [crawlDirectory(baseUrl)]; [Args] is
    [os.Args] (the program's name first), [urls_created] whether
    [os.Create("urls.txt")] succeeds. For an empty [baseUrl] the index
    [len(baseUrl)-1] is -1, out of range like every index of the empty
    string. *)
Definition main_001 (Args : list string) (urls_created : bool) : Started :=
  if negb (length Args =? 3)%nat then Usage else
  match Args !! 1%nat, Args !! 2%nat with
  | Some arg1, Some arg2 =>
      match Go.index arg1 (Go.len arg1 - 1) with
      | None => IndexPanic
      | Some last =>
          let baseUrl := if negb (Ascii.eqb last "/") then arg1 ++ "/" else arg1 in
          match ParseBool arg2 with
          | None => Usage
          | Some writeUrlOnly =>
              if urls_created then Run baseUrl writeUrlOnly else NoManifest
          end
      end
  | _, _ => Usage
  end.

End Startup.

(** part_001 [ParseEntry]: [if entryPath[0] == '/' { entryPath =
    entryPath[1:] }], for a path that is not empty. *)
Definition without_leading_slash (entryPath : string) : string :=
  match entryPath with
  | EmptyString => EmptyString
  | String c rest => if Ascii.eqb c "/" then rest else entryPath
  end.

(* ===================================================================== *)
(** ** Running the program again                                         *)
(* ===================================================================== *)

Module Again.

(** The local state after [k] successive calls of [downloadUrl] for the
    same entry (as successive runs of the program make them). *)
Fixpoint rerun (env : Download.Env) (nThreads : Z) (entryPath : string)
    (downloadSize : Z) (k : nat) (w : Download.World) : Download.World :=
  match k with
  | O => w
  | S k' =>
      Download.world
        (Download.downloadUrl env nThreads entryPath downloadSize
           (rerun env nThreads entryPath downloadSize k' w))
  end.

End Again.

(* ===================================================================== *)
(** ** More hosts to run the program on                                  *)
(* ===================================================================== *)

Module Hosts.

(** A host whose file [/d/g] arrives as two reads followed by a read
    that returns no bytes and [io.EOF]. *)
Definition tidy : Download.Env := {|
  Download.getDownloadUrl := fun entryPath => "http://t" ++ entryPath;
  Download.http_Get := fun url =>
    if String.eqb url "http://t/d/g"
    then Some {| Download.chunks := ["abc"; "de"]; Download.last_data := "";
                 Download.last_err := Download.io_EOF |}
    else None;
  Download.os_MkdirAll_ok := fun _ => true;
  Download.os_Create_ok := fun _ => true;
  Download.file_Write_ok := fun _ _ => true;
  Download.urlFile_Write_ok := fun _ => true;
  Download.os_Remove_ok := fun _ _ => true;
|}.

End Hosts.

(* ===================================================================== *)
(** ** Predicates for the statements about listings                      *)
(* ===================================================================== *)

Module Listing.

(** main.go: the entries [crawlDirectory] does not pass over. *)
Definition proper_descendant (entryPath : string) (entry : Crawl.FileEntry) : bool :=
  negb (String.eqb entryPath (Crawl.Path entry))
  && Go.HasPrefix (Crawl.Path entry) entryPath.

(** main.go: the call made for an entry that is not passed over. *)
Definition work_of (entry : Crawl.FileEntry) : Work :=
  if Go.HasSuffix (Crawl.Path entry) "/"
  then Crawl (Crawl.Path entry)
  else Save (Crawl.Path entry) (Crawl.Size entry).

(** Whether a row has a cell of the given class. *)
Definition has_cell (cls : string) (node : option Html.Node) : bool :=
  existsb (fun tdNode =>
             match Html.getAttribute (Some tdNode) "class" with
             | Some classAttr => String.eqb (Html.Val classAttr) cls
             | None => false
             end)
          (Html.getSubNodes node "td").

(** Whether the parser knows a cell: it has a class, one of the four. *)
Definition known_cell (tdNode : Html.Node) : bool :=
  match Html.getAttribute (Some tdNode) "class" with
  | Some classAttr =>
      existsb (String.eqb (Html.Val classAttr)) ["fb-i"; "fb-n"; "fb-d"; "fb-s"]
  | None => false
  end.

(** Whether a document holds a [tbody] element anywhere. *)
Fixpoint has_tbody (node : Html.Node) : bool :=
  let 'Html.mkNode t d _ cs := node in
  (Html.NodeType_eqb t Html.ElementNode && String.eqb d "tbody")
  || existsb has_tbody cs.

End Listing.

(* ===================================================================== *)
(** ** What the goroutines of a run look like, and what the counters count *)
(* ===================================================================== *)

Module Pool.

Import Sched.

(** A step of the loop of [crawlDirectory] or of a branch taken by the
    caller itself: a dispatch, its branch, the decrement of the [else]
    arm, the work, or a panic. *)
Definition inline (instr : Instr) : bool :=
  match instr with
  | IAsync _ | IBranch _ _ | IRun _ | IPanic => true
  | IAddInt64 delta => delta =? -1
  | _ => false
  end.

(** What the closure [f_async] has left when its work has returned:
    [atomic.AddInt64(&threads, -1)] and the deferred [wg.Done()]. *)
Definition release : list Instr := [IAddInt64 (-1); IWgDone].

(** What [main] has left when [crawlDirectory(requestPath)] has
    returned. *)
Definition epilogue : list Instr := [ISleep; IWgWait; IPrintln "Done!"].

(** A goroutine started by [go f_async()]: not yet begun, at work
    between [wg.Add(1)] and the decrement, about to call [wg.Done()],
    or over. *)
Inductive Spawned : list Instr -> Prop :=
| unstarted (w : Work) : Spawned (f_async w)
| working (b : list Instr) : forallb inline b = true -> Spawned (b ++ release)
| released : Spawned [IWgDone]
| finished : Spawned [].

(** The goroutine of [main]. *)
Inductive Main : list Instr -> Prop :=
| crawling (b : list Instr) : forallb inline b = true -> Main (b ++ epilogue)
| waiting : Main [IWgWait; IPrintln "Done!"]
| printing : Main [IPrintln "Done!"]
| returned : Main [].

(** The goroutine is between its [wg.Add(1)] and its [wg.Done()]. *)
Definition registered (g : list Instr) : bool :=
  match g with
  | [] | IWgAdd _ :: _ => false
  | _ :: _ => true
  end.

(** The goroutine was started by [go f_async()] and has not yet given
    its place back: [atomic.AddInt64(&threads, -1)] followed by
    [wg.Done()] is still the end of what it has left. *)
Fixpoint holds (g : list Instr) : bool :=
  match g with
  | [] => false
  | instr :: k =>
      match instr, k with
      | IAddInt64 _, [IWgDone] => true
      | _, _ => holds k
      end
  end.

(** The goroutines other than [main]. *)
Definition spawned (s : State) : list (list Instr) := drop 1 (pool s).

(** A branch that is pending with a count within the limit: it will
    start a goroutine. *)
Definition ticket (maxThreads : Z) (instr : Instr) : Z :=
  match instr with
  | IBranch nThreads _ => if nThreads <=? maxThreads then 1 else 0
  | _ => 0
  end.

Fixpoint tickets (maxThreads : Z) (g : list Instr) : Z :=
  match g with
  | [] => 0
  | instr :: k => ticket maxThreads instr + tickets maxThreads k
  end.

(** The places a goroutine has taken or is about to hand out. *)
Definition places (maxThreads : Z) (g : list Instr) : Z :=
  Z.b2z (holds g) + tickets maxThreads g.

Fixpoint places_in (maxThreads : Z) (p : list (list Instr)) : Z :=
  match p with
  | [] => 0
  | g :: rest => places maxThreads g + places_in maxThreads rest
  end.

(** Every change of [threads] still to come that is not the increment
    of a dispatch takes 1 off. *)
Definition decrements (instr : Instr) : bool :=
  match instr with
  | IAddInt64 delta => delta =? -1
  | _ => true
  end.

(** The goroutines have the shapes above and the wait group counts the
    registered ones. *)
Definition joined (s : State) : Prop :=
  exists m rest,
    pool s = m :: rest
    /\ Main m
    /\ Forall Spawned rest
    /\ wg s = Z.of_nat (length (List.filter registered rest)).

(** After at most [n] steps: [threads] has not overflowed, and the
    places taken or about to be handed out are within the limit. *)
Definition admitting (maxThreads : Z) (n : Z) (s : State) : Prop :=
  Forall (fun g => forallb decrements g = true) (pool s)
  /\ balanced s
  /\ owed_in (pool s) <= n
  /\ places_in maxThreads (pool s) <= Z.max 0 maxThreads.

(** A step that ends the process in a panic: [IPanic], or a
    [saveContent] that panics. *)
Definition panics (saveContent : Z -> string -> Z -> Download.M Download.Exit)
    (s : State) (instr : Instr) : bool :=
  match instr with
  | IPanic => true
  | IRun (Save entryPath fileSize) =>
      match Download.value (saveContent (threads s) entryPath fileSize (disk s)) with
      | Download.Panicked => true
      | Download.Returned => false
      end
  | _ => false
  end.

(** A step that is not a panic. *)
Definition calm (instr : Instr) : bool :=
  match instr with
  | IPanic => false
  | _ => true
  end.

(** The lines of the manifest the log records as written. *)
Fixpoint manifest (env : Download.Env) (l : list Download.Event) : string :=
  match l with
  | [] => ""
  | Download.EWriteString line :: rest =>
      (if Download.urlFile_Write_ok env line then line else "") ++ manifest env rest
  | _ :: rest => manifest env rest
  end.

End Pool.

(* ===================================================================== *)
(** * Facts                                                              *)
(* ===================================================================== *)

(** ** The library functions on small inputs *)

Example Split_root : Go.Split "/docs/a.txt" "/" = [""; "docs"; "a.txt"].
Proof. reflexivity. Qed.

Example Split_empty : Go.Split "" "/" = [""].
Proof. reflexivity. Qed.

Example TrimSpace_both : Go.TrimSpace "  a b	" = "a b".
Proof. reflexivity. Qed.

Example PathUnescape_space : Go.PathUnescape "a%20b+c" = Some "a b+c".
Proof. reflexivity. Qed.

Example QueryUnescape_plus : Go.QueryUnescape "a%20b+c" = Some "a b c".
Proof. reflexivity. Qed.

Example PathUnescape_bad : Go.PathUnescape "100%" = None.
Proof. reflexivity. Qed.

Example ParseInt_neg : Go.ParseInt "-42" = Some (-42).
Proof. reflexivity. Qed.

Example ParseInt_range : Go.ParseInt "9223372036854775808" = None.
Proof. reflexivity. Qed.

Example HasSuffix_dir : Go.HasSuffix "/docs/sub/" "/" = true.
Proof. reflexivity. Qed.

(** U+00A0 in front, U+2003 behind; a lone [0xE2 0x80] is no white space. *)
Example TrimSpace_unicode :
  Go.TrimSpace (String (ascii_of_nat 194) (String (ascii_of_nat 160)
                  ("a" ++ String (ascii_of_nat 226) (String (ascii_of_nat 128)
                            (String (ascii_of_nat 131) "")))))
  = "a"
  /\ Go.TrimSpace ("a" ++ String (ascii_of_nat 226) (String (ascii_of_nat 128) ""))
     = "a" ++ String (ascii_of_nat 226) (String (ascii_of_nat 128) "").
Proof. split; reflexivity. Qed.

Example TrimSpace_blank : Go.TrimSpace "   " = "".
Proof. reflexivity. Qed.

Example PathUnescape_short : Go.PathUnescape "a%2" = None.
Proof. reflexivity. Qed.

Example ParseInt_forms :
  Go.ParseInt "+5" = Some 5 /\ Go.ParseInt "-9223372036854775808" = Some Go.int64_min
  /\ Go.ParseInt "" = None /\ Go.ParseInt "-" = None /\ Go.ParseInt "1_000" = None
  /\ Go.ParseInt "12 KB" = None.
Proof. repeat split; reflexivity. Qed.

(** ** Arithmetic of [int64] *)

Lemma wrap64_small z : Go.is_int64 z -> Go.wrap64 z = z.
Proof.
  unfold Go.is_int64, Go.int64_min, Go.int64_max, Go.wrap64. intros H.
  rewrite Z.mod_small by lia. lia.
Qed.

Lemma wrap64_range z : Go.is_int64 (Go.wrap64 z).
Proof.
  unfold Go.is_int64, Go.int64_min, Go.int64_max, Go.wrap64.
  pose proof (Z.mod_pos_bound (z + 2 ^ 63) (2 ^ 64) ltac:(lia)). lia.
Qed.

Lemma wrap64_add_l a b : Go.wrap64 (Go.wrap64 a + b) = Go.wrap64 (a + b).
Proof.
  unfold Go.wrap64. f_equal.
  replace ((a + 2 ^ 63) mod 2 ^ 64 - 2 ^ 63 + b + 2 ^ 63)
    with ((a + 2 ^ 63) mod 2 ^ 64 + b) by lia.
  rewrite Zplus_mod_idemp_l. f_equal. lia.
Qed.

(** ** Byte strings *)

#[local] Arguments String.append !_ _ / : simpl nomatch.

Lemma len_zero_iff s : Go.len s = 0%nat <-> s = "".
Proof. destruct s; simpl; split; intros H; (discriminate || reflexivity). Qed.

Lemma nonempty_eqb s : (0 <? Go.len s)%nat = negb (String.eqb s "").
Proof. destruct s; reflexivity. Qed.

Lemma len_app a b : Go.len (a ++ b) = (Go.len a + Go.len b)%nat.
Proof. unfold Go.len. induction a; simpl; congruence. Qed.

Lemma substring_all s : String.substring 0 (Go.len s) s = s.
Proof. induction s; simpl; congruence. Qed.

Lemma substring_app_l a b : String.substring 0 (Go.len a) (a ++ b) = a.
Proof.
  induction a as [|c a IH]; simpl.
  - destruct b; reflexivity.
  - now rewrite IH.
Qed.

Lemma substring_none n s : String.substring n 0 s = "".
Proof.
  revert s. induction n as [|n IH]; intros [|c s]; simpl; auto.
Qed.

Lemma substring_skip a b n :
  String.substring (Go.len a) n (a ++ b) = String.substring 0 n b.
Proof. induction a; simpl; auto. Qed.

Lemma app_empty_r s : s ++ "" = s.
Proof. induction s; simpl; congruence. Qed.

Lemma app_assoc_s (a b c : string) : (a ++ b) ++ c = a ++ (b ++ c).
Proof. induction a; simpl; congruence. Qed.

(** [strings.HasPrefix] is the prefix order: two strings that extend
    each other are equal. *)
Lemma HasPrefix_split s p :
  Go.HasPrefix s p = true <-> exists t, s = p ++ t.
Proof.
  unfold Go.HasPrefix. revert s. induction p as [|c p IH]; intros s; simpl.
  - split; [intros _; now exists s | intros _; now destruct s].
  - destruct s as [|d s]; simpl.
    + split; [discriminate | intros [t Ht]; discriminate].
    + destruct (ascii_dec c d) as [->|Hne].
      * rewrite IH. split; intros [t Ht]; exists t; congruence.
      * split; [discriminate | intros [t Ht]; congruence].
Qed.

Lemma HasPrefix_antisym s p :
  Go.HasPrefix s p = true -> Go.HasPrefix p s = true -> s = p.
Proof.
  rewrite !HasPrefix_split. intros [t ->] [u Hu].
  assert (Hlen : Go.len p = Go.len ((p ++ t) ++ u)) by (f_equal; exact Hu).
  rewrite !len_app in Hlen.
  assert (Ht : Go.len t = 0%nat) by lia.
  apply len_zero_iff in Ht. subst t. apply app_empty_r.
Qed.

(** ** C8: the local path *)

Lemma getDownloadPath_loop_spec strs parts :
  Paths.getDownloadPath_loop strs parts =
  match mapM Go.PathUnescape strs with
  | None => None
  | Some decoded =>
      Some (parts ++ List.filter (fun c => negb (String.eqb c ""))
                                 (List.map Go.TrimSpace decoded))%list
  end.
Proof.
  revert parts. induction strs as [|str rest IH]; intros parts; simpl.
  - now rewrite app_nil_r.
  - destruct (Go.PathUnescape str) as [d|]; simpl; [|reflexivity].
    rewrite nonempty_eqb.
    destruct (negb (String.eqb (Go.TrimSpace d) "")) eqn:E; rewrite IH;
      destruct (mapM Go.PathUnescape rest) as [ds|]; simpl; rewrite ?E;
      try reflexivity.
    now rewrite <- app_assoc.
Qed.

Example getDownloadPath_decodes :
  Paths.getDownloadPath "/docs// %20/a%20b.txt" = Some "downloads/docs/a b.txt".
Proof. reflexivity. Qed.

Example getDownloadPath_bad_escape : Paths.getDownloadPath "/docs/%zz" = None.
Proof. reflexivity. Qed.

Lemma substring_split s n :
  (n <= Go.len s)%nat ->
  s = String.substring 0 n s ++ String.substring n (Go.len s - n) s.
Proof.
  revert n. induction s as [|c s IH]; intros [|n] Hn; simpl in *;
    try lia; try reflexivity.
  - now rewrite substring_all.
  - f_equal. apply IH. lia.
Qed.

Lemma len_substring_0 s n : (n <= Go.len s)%nat -> Go.len (String.substring 0 n s) = n.
Proof.
  revert n. induction s as [|c s IH]; intros [|n] Hn; simpl in *;
    try lia; try reflexivity.
  f_equal. apply IH. lia.
Qed.

Lemma slice_from_app head tail :
  Go.slice_from (head ++ tail) (Go.len head) = Some tail.
Proof.
  unfold Go.slice_from. rewrite len_app.
  destruct (Nat.leb_spec (Go.len head) (Go.len head + Go.len tail)); [|lia].
  rewrite substring_skip.
  replace (Go.len head + Go.len tail - Go.len head)%nat with (Go.len tail) by lia.
  now rewrite substring_all.
Qed.

Lemma slice_from_Some s n tail :
  Go.slice_from s n = Some tail <->
  exists head, s = head ++ tail /\ Go.len head = n.
Proof.
  split.
  - unfold Go.slice_from. destruct (Nat.leb_spec n (Go.len s)) as [Hn|Hn]; [|discriminate].
    intros [= <-]. exists (String.substring 0 n s). split.
    + now apply substring_split.
    + now apply len_substring_0.
  - intros (head & -> & <-). apply slice_from_app.
Qed.

Lemma slice_from_None s n : Go.slice_from s n = None <-> (Go.len s < n)%nat.
Proof.
  unfold Go.slice_from. destruct (Nat.leb_spec n (Go.len s)); split;
    intros; try discriminate; try reflexivity; lia.
Qed.

(** C8, amended. In main.go and part_000 the local path of a remote
    location is the one the specification describes: the location is
    split at ["/"], every component is percent-decoded and trimmed, the
    components that became empty are dropped, and the rest is joined
    under ["downloads"]; when a component does not decode, neither
    function yields a path. In part_001 the local path is ["downloads/"]
    followed by the query-unescaped remainder of the URL after its first
    25 bytes, and nothing else. *)
Theorem local_path_derivation :
  (forall entryPath : string,
      Paths.getDownloadPath entryPath = Paths.spec_local_path entryPath)
  /\ (forall fileUrl fileName : string,
        Paths.fileName_001 fileUrl = Paths.LocalPath fileName <->
        exists head tail decoded : string,
          fileUrl = head ++ tail /\ Go.len head = 25%nat
          /\ Go.QueryUnescape tail = Some decoded
          /\ fileName = "downloads/" ++ decoded).
Proof.
  split.
  - intros entryPath. unfold Paths.getDownloadPath, Paths.spec_local_path.
    rewrite getDownloadPath_loop_spec.
    now destruct (mapM Go.PathUnescape (Go.Split entryPath "/")).
  - intros fileUrl fileName. unfold Paths.fileName_001. split.
    + destruct (Go.slice_from fileUrl 25) as [tail|] eqn:Hs; [|discriminate].
      destruct (Go.QueryUnescape tail) as [decoded|] eqn:Hq; [|discriminate].
      intros [= <-]. apply slice_from_Some in Hs as (head & -> & Hlen).
      now exists head, tail, decoded.
    + intros (head & tail & decoded & -> & Hlen & Hq & ->).
      rewrite <- Hlen, slice_from_app, Hq. reflexivity.
Qed.

(** C8 as stated fails on part_001: the URL below is given the local
    path [downloads/a//b.txt], with its empty component kept, where the
    stated derivation drops it, whichever part of the URL is taken for
    "the remote path": the part after the base URL, the URL's path, or
    the whole URL. *)
Lemma part_001_path_not_componentwise :
  Paths.fileName_001 "http://example.com/files/a//b.txt"
    = Paths.LocalPath "downloads/a//b.txt"
  /\ Paths.spec_local_path "a//b.txt" = Some "downloads/a/b.txt"
  /\ Paths.spec_local_path "/files/a//b.txt" = Some "downloads/files/a/b.txt"
  /\ Paths.spec_local_path "http://example.com/files/a//b.txt"
       = Some "downloads/http:/example.com/files/a/b.txt".
Proof. repeat split; reflexivity. Qed.

(** ** C7: what the crawler discards *)

Lemma visit_Skips entryPath entry :
  Crawl.visit entryPath entry = Skips <->
  Crawl.Path entry = entryPath \/ Go.HasPrefix (Crawl.Path entry) entryPath = false.
Proof.
  unfold Crawl.visit.
  destruct (String.eqb_spec entryPath (Crawl.Path entry)) as [->|Hne]; simpl.
  - split; auto.
  - destruct (Go.HasPrefix (Crawl.Path entry) entryPath); simpl.
    + destruct (Go.HasSuffix (Crawl.Path entry) "/"); split;
        try discriminate; intros [H|H]; congruence.
    + split; auto.
Qed.

Lemma visit_Calls entryPath entry w :
  Crawl.visit entryPath entry = Calls w ->
  work_path w = Crawl.Path entry
  /\ Crawl.Path entry <> entryPath
  /\ Go.HasPrefix (Crawl.Path entry) entryPath = true.
Proof.
  unfold Crawl.visit.
  destruct (String.eqb_spec entryPath (Crawl.Path entry)) as [->|Hne]; simpl;
    [discriminate|].
  destruct (Go.HasPrefix (Crawl.Path entry) entryPath); simpl; [|discriminate].
  destruct (Go.HasSuffix (Crawl.Path entry) "/"); intros [= <-]; simpl; auto.
Qed.

Lemma reached_map_visit entryPath entries :
  Forall (fun w => work_path w <> entryPath
                   /\ Go.HasPrefix (work_path w) entryPath = true)
         (Crawl.reached (List.map (Crawl.visit entryPath) entries)).
Proof.
  induction entries as [|entry rest IH]; simpl; [constructor|].
  destruct (Crawl.visit entryPath entry) as [|w|] eqn:Hv; auto.
  constructor; [|exact IH].
  apply visit_Calls in Hv as (-> & Hne & Hp). auto.
Qed.

(** C7, amended. main.go: whatever [getFileIndex] answers, every call
    [crawlDirectory] makes is for a path that differs from the
    directory's and has it as a prefix; an entry is passed over exactly
    when its path is the directory's or does not extend it, and so is
    every entry whose path the directory's path extends (the directory
    itself, its parent, any ancestor). part_000 and part_001: a row
    whose type is [folder-parent] (or none) is passed over; the path of
    a row is not compared with the directory's. *)
Theorem crawler_discards :
  (forall getFileIndex entryPath,
      Forall (fun w => work_path w <> entryPath
                       /\ Go.HasPrefix (work_path w) entryPath = true)
             (Crawl.reached (Crawl.crawlDirectory getFileIndex entryPath)))
  /\ (forall entryPath entry,
        Crawl.visit entryPath entry = Skips <->
        Crawl.Path entry = entryPath
        \/ Go.HasPrefix (Crawl.Path entry) entryPath = false)
  /\ (forall parent rest time size,
        Crawl.visit (parent ++ rest)
                    {| Crawl.Path := parent; Crawl.Time := time; Crawl.Size := size |}
        = Skips)
  /\ (forall time_Parse_ok baseUrl node f,
        Html.entryType f = Html.FolderParentEntry
        \/ Html.entryType f = Html.InvalidEntry ->
        (Html.rowFields time_Parse_ok Html.GetEntrySize_000 node = Some f ->
         Html.ParseEntry_000 time_Parse_ok node = Skips)
        /\ (Html.rowFields time_Parse_ok Html.GetEntrySize_001 node = Some f ->
            Html.ParseEntry_001 time_Parse_ok baseUrl node = Skips)).
Proof.
  split; [|split; [|split]].
  - intros getFileIndex entryPath. unfold Crawl.crawlDirectory.
    destruct (getFileIndex entryPath) as [entries|]; [|constructor].
    apply reached_map_visit.
  - apply visit_Skips.
  - intros parent rest time size. apply visit_Skips. simpl.
    destruct (String.eqb_spec parent (parent ++ rest)) as [He|Hne]; [now left|].
    right. destruct (Go.HasPrefix parent (parent ++ rest)) eqn:Hp; [|reflexivity].
    exfalso. apply Hne. apply HasPrefix_antisym; [exact Hp|].
    apply HasPrefix_split. now exists rest.
  - intros tp baseUrl node f Ht.
    unfold Html.ParseEntry_000, Html.ParseEntry_001.
    split; intros ->; destruct Ht as [-> | ->]; reflexivity.
Qed.

(** The theorem at a listing: [/docs/] lists itself, its parent, a file
    and a sub-directory. *)
Lemma crawler_discards_witness :
  Forall (fun w => work_path w <> "/docs/"
                   /\ Go.HasPrefix (work_path w) "/docs/" = true)
         (Crawl.reached
            (Crawl.crawlDirectory
               (fun _ => Some [ {| Crawl.Path := "/docs/"; Crawl.Time := 0; Crawl.Size := 0 |};
                                {| Crawl.Path := "/"; Crawl.Time := 0; Crawl.Size := 0 |};
                                {| Crawl.Path := "/docs/a.txt"; Crawl.Time := 0; Crawl.Size := 100 |};
                                {| Crawl.Path := "/docs/sub/"; Crawl.Time := 0; Crawl.Size := 0 |} ])
               "/docs/"))
  /\ Html.ParseEntry_000 Fixtures.no_dates
       (Some (Fixtures.row [Fixtures.icon_cell "folder-parent";
                            Fixtures.name_cell "/" ".."])) = Skips.
Proof.
  split.
  - exact (proj1 crawler_discards _ _).
  - refine (proj1 (proj2 (proj2 (proj2 crawler_discards)) Fixtures.no_dates ""
                     (Some (Fixtures.row [Fixtures.icon_cell "folder-parent";
                                          Fixtures.name_cell "/" ".."]))
                     {| Html.entryType := Html.FolderParentEntry;
                        Html.entryPath := "/"; Html.entrySize := 0 |}
                     (or_introl eq_refl)) eq_refl).
Defined.

(** C7 as stated fails on part_000: the listing of [/docs/] holds a
    folder row whose link is [/docs/] itself, and [crawlDirectory]
    dispatches a crawl of [/docs/]; part_001 does the same with the
    link appended to its base URL. *)
Lemma html_crawler_recurses_into_itself :
  Crawl.reached
    (Crawl.crawlDirectory_html (Html.ParseEntry_000 Fixtures.no_dates)
                               Fixtures.echo_page "/docs/")
    = [Crawl "/docs/"]
  /\ Crawl.reached
       (Crawl.crawlDirectory_html (Html.ParseEntry_001 Fixtures.no_dates "/")
                                  Fixtures.echo_page "/docs/")
     = [Crawl "/docs/"].
Proof. split; reflexivity. Qed.

(** ** C10: index and slice bounds in part_001 *)

Lemma index_0_None s : Go.index s 0 = None <-> s = "".
Proof. destruct s; simpl; split; intros H; (discriminate || reflexivity). Qed.

Lemma fileName_001_OutOfRange fileUrl :
  Paths.fileName_001 fileUrl = Paths.OutOfRange <-> (Go.len fileUrl < 25)%nat.
Proof.
  unfold Paths.fileName_001. rewrite <- slice_from_None.
  destruct (Go.slice_from fileUrl 25) as [tail|]; [|tauto].
  destruct (Go.QueryUnescape tail); split; discriminate.
Qed.

(** C10. In part_001, an entry that passed the parser's type check makes
    [ParseEntry] panic at [entryPath[0]] exactly when its href is empty,
    and [downloadUrl] panics at [fileUrl[25:]] exactly when the URL is
    shorter than 25 bytes (so does [saveContent], unless only URLs are
    written). Both happen: a file row with an empty href is accepted and
    panics, and under the base URL [http://a.b/] the row of the file
    [/x] is dispatched with a 12-byte URL, which is out of range. *)
Theorem part_001_bounds (time_Parse_ok : string -> bool) (baseUrl : string) :
  (forall node,
      Html.ParseEntry_001 time_Parse_ok baseUrl node = Panics <->
      exists f, Html.accepted time_Parse_ok Html.GetEntrySize_001 node = Some f
                /\ Html.entryPath f = "")
  /\ (forall fileUrl,
        Paths.fileName_001 fileUrl = Paths.OutOfRange <-> (Go.len fileUrl < 25)%nat)
  /\ (forall env fileUrl size w,
        Download.value (Download.saveContent_001 env false fileUrl size w)
          = Download.Panicked <-> (Go.len fileUrl < 25)%nat)
  /\ Html.ParseEntry_001 time_Parse_ok baseUrl (Some Fixtures.empty_href_row) = Panics
  /\ (Html.ParseEntry_001 time_Parse_ok "http://a.b/" (Some Fixtures.short_row)
        = Calls (Save "http://a.b/x" 1)
      /\ (Go.len "http://a.b/" < 25)%nat
      /\ Paths.fileName_001 "http://a.b/x" = Paths.OutOfRange).
Proof.
  split; [|split; [|split; [|split]]].
  - intros node. unfold Html.ParseEntry_001, Html.accepted.
    destruct (Html.rowFields time_Parse_ok Html.GetEntrySize_001 node) as [f|].
    + destruct (Html.entryType f) eqn:Ht.
      * split; [discriminate | intros (f' & Hf & _); discriminate].
      * destruct (Go.index (Html.entryPath f) 0) as [c0|] eqn:Hi.
        -- split; [discriminate|]. intros (f' & [= <-] & He).
           apply index_0_None in He. congruence.
        -- split; [|reflexivity]. intros _. exists f.
           split; [reflexivity | now apply index_0_None].
      * destruct (Go.index (Html.entryPath f) 0) as [c0|] eqn:Hi.
        -- split; [discriminate|]. intros (f' & [= <-] & He).
           apply index_0_None in He. congruence.
        -- split; [|reflexivity]. intros _. exists f.
           split; [reflexivity | now apply index_0_None].
      * split; [discriminate | intros (f' & Hf & _); discriminate].
    + split; [discriminate | intros (f' & Hf & _); discriminate].
  - apply fileName_001_OutOfRange.
  - intros env fileUrl size w. rewrite <- fileName_001_OutOfRange.
    unfold Download.saveContent_001, Download.downloadUrl_001. simpl.
    destruct (Paths.fileName_001 fileUrl); simpl; split;
      intros H; (discriminate || reflexivity).
  - reflexivity.
  - repeat split. simpl. lia.
Qed.

(** ** Recording and downloading: how [download] runs *)

Import Download.
Section DownloadFacts.
Variable env : Env.

Lemma len_substring s n m :
  (n + m <= Go.len s)%nat -> Go.len (String.substring n m s) = m.
Proof.
  revert n m. induction s as [|c s IH]; intros [|n] [|m] H; simpl in *;
    try lia; try reflexivity.
  - f_equal. apply (IH 0%nat). lia.
  - apply IH. lia.
  - apply IH. lia.
Qed.

Lemma Read_spec buffer data :
  Go.len buffer = bufferSize -> (Go.len data <= bufferSize)%nat ->
  fst (Read buffer data) = Go.len data
  /\ Go.len (snd (Read buffer data)) = bufferSize
  /\ (if negb (fst (Read buffer data) =? bufferSize)%nat
      then String.substring 0 (fst (Read buffer data)) (snd (Read buffer data))
      else snd (Read buffer data)) = data.
Proof.
  intros Hb Hd. unfold Read. cbn [fst snd]. split; [reflexivity|]. split.
  - rewrite len_app, len_substring by lia. lia.
  - destruct (Nat.eqb_spec (Go.len data) bufferSize) as [He|Hne]; cbn [negb].
    + rewrite He, Hb, Nat.sub_diag, substring_none. apply app_empty_r.
    + apply substring_app_l.
Qed.

Lemma concat_cons x xs : String.concat "" (x :: xs) = x ++ String.concat "" xs.
Proof. destruct xs; simpl; [now rewrite app_empty_r | reflexivity]. Qed.

Lemma copy_cons tag fileName buffer data rest last :
  Go.len buffer = bufferSize -> (Go.len data <= bufferSize)%nat ->
  copy env tag fileName buffer (data :: rest) last =
  (ok ← file_Write env fileName data;
   if (ok : bool) then copy env tag fileName (snd (Read buffer data)) rest last
   else Printf tag Failure fileName ;; os_Remove env fileName true).
Proof.
  intros Hb Hd. simpl.
  destruct (Nat.eqb_spec (Go.len data) bufferSize) as [He|Hne]; cbn [negb].
  - rewrite He, Hb, Nat.sub_diag, substring_none, app_empty_r. reflexivity.
  - rewrite substring_app_l. reflexivity.
Qed.

Lemma copy_outcome tag fileName reads :
  forall buffer last w old,
    Go.len buffer = bufferSize ->
    Forall (fun c => (Go.len c <= bufferSize)%nat) reads ->
    files w !! fileName = Some old ->
    let r := copy env tag fileName buffer reads last w in
    files (world r) !! fileName
      = (if clean env fileName (Go.len old) reads (snd last)
         then Some (old ++ String.concat "" reads)
         else if os_Remove_ok env fileName true then None
              else Some (old ++ String.concat "" (kept env fileName (Go.len old) reads)))
    /\ urlFile (world r) = urlFile w
    /\ (forall other, other <> fileName -> files (world r) !! other = files w !! other).
Proof.
  induction reads as [|data rest IH]; intros buffer last w old Hb Hall Hold.
  - destruct last as [d [|]]; simpl.
    + rewrite Hold, app_empty_r. auto.
    + destruct (os_Remove_ok env fileName true); cbn [files urlFile].
      * rewrite lookup_delete_eq. repeat split; auto.
        intros other Hne. now rewrite lookup_delete_ne.
      * rewrite Hold, app_empty_r. auto.
  - inversion Hall as [|? ? Hd Hrest]; subst.
    destruct (Read_spec buffer data Hb Hd) as (_ & Hb' & _).
    rewrite (copy_cons _ _ _ _ _ _ Hb Hd).
    unfold clean. cbn [writes_ok kept].
    unfold mbind, M_bind, file_Write. rewrite Hold. cbn [default from_option id].
    destruct (file_Write_ok env fileName (Go.len old)) eqn:Hok; cbn [value world events andb].
    + specialize (IH (snd (Read buffer data)) last
                     {| files := <[fileName := old ++ data]> (files w);
                        urlFile := urlFile w |}
                     (old ++ data) Hb' Hrest).
      cbn [files urlFile] in IH. rewrite lookup_insert_eq in IH.
      specialize (IH eq_refl). cbn zeta in IH.
      destruct IH as (Hf & Hu & Ho).
      rewrite len_app in Hf. unfold clean in Hf.
      rewrite !concat_cons, <- !app_assoc_s.
      repeat split; auto.
      intros other Hne. rewrite Ho by exact Hne. now rewrite lookup_insert_ne.
    + simpl. destruct (os_Remove_ok env fileName true); cbn [files urlFile].
      * rewrite lookup_delete_eq. repeat split; auto.
        intros other Hne. now rewrite lookup_delete_ne.
      * rewrite Hold, app_empty_r. auto.
Qed.


#[local] Arguments make : simpl never.

Lemma make_len n : Go.len (make n) = n.
Proof. induction n; cbn [make]; simpl; congruence. Qed.

Lemma last_cons_Some {A} (x y : A) (l : list A) :
  last l = Some y -> last (x :: l) = Some y.
Proof. intros H. rewrite last_cons, H. reflexivity. Qed.

(** A stream that does not end cleanly ends in [os.Remove(fileName)]. *)
Lemma copy_ends_in_Remove tag fileName reads :
  forall buffer last w old,
    Go.len buffer = bufferSize ->
    Forall (fun c => (Go.len c <= bufferSize)%nat) reads ->
    files w !! fileName = Some old ->
    clean env fileName (Go.len old) reads (snd last) = false ->
    list.last (events (copy env tag fileName buffer reads last w))
    = Some (ERemove fileName).
Proof.
  induction reads as [|data rest IH]; intros buffer last w old Hb Hall Hold.
  - destruct last as [d [|]]; [discriminate|reflexivity].
  - inversion Hall as [|? ? Hd Hrest]; subst.
    destruct (Read_spec buffer data Hb Hd) as (_ & Hb' & _).
    rewrite (copy_cons _ _ _ _ _ _ Hb Hd).
    unfold clean. cbn [writes_ok].
    unfold mbind, M_bind, file_Write. rewrite Hold. cbn [default from_option id].
    destruct (file_Write_ok env fileName (Go.len old)) eqn:Hok;
      cbn [value world events andb app]; [|reflexivity].
    intros Hcl. apply last_cons_Some.
    apply (IH _ _ _ (old ++ data) Hb' Hrest).
    + cbn [files]. apply lookup_insert_eq.
    + unfold clean. now rewrite len_app.
Qed.

Lemma copy_quiet tag fileName reads :
  forall buffer last w,
    forallb quiet (events (copy env tag fileName buffer reads last w)) = true.
Proof.
  induction reads as [|data rest IH]; intros buffer last w.
  - destruct last as [d [|]]; reflexivity.
  - simpl. unfold mbind, M_bind.
    destruct (negb (Go.len data =? bufferSize)%nat); unfold file_Write;
      destruct (file_Write_ok env fileName _); cbn [value world events forallb];
      try apply IH; reflexivity.
Qed.

Lemma quiet_filters l :
  forallb quiet l = true ->
  List.filter is_EGet l = [] /\ List.filter is_EWriteString l = [].
Proof.
  induction l as [|e l IH]; simpl; [auto|].
  unfold quiet at 1. destruct (is_EGet e), (is_EWriteString e); simpl;
    try discriminate. exact IH.
Qed.


Ltac unfold_io :=
  unfold download, mbind, M_bind, mret, M_ret, os_MkdirAll, GetFileSize,
         Printf, emit, os_Remove, http_Get_, os_Create;
  cbn [value world events negb andb fmap option_fmap option_map app
       List.filter is_EGet is_EWriteString files urlFile].

Ltac after_check :=
  destruct (http_Get env _) as [body|]; unfold_io; [|reflexivity];
  destruct (os_Create_ok env _); unfold_io; [|reflexivity];
  f_equal; apply quiet_filters, copy_quiet.

Lemma download_fetches tag fileName entryUrl downloadSize w :
  fetches (download env tag fileName entryUrl downloadSize w)
  = if os_MkdirAll_ok env fileName && local_differs w fileName downloadSize
    then [EGet entryUrl] else [].
Proof.
  unfold fetches, local_differs. unfold_io.
  destruct (os_MkdirAll_ok env fileName); unfold_io; [|reflexivity].
  destruct (files w !! fileName) as [c|] eqn:Hc; unfold_io.
  - destruct (Z.of_nat (Go.len c) =? downloadSize); unfold_io; [reflexivity|].
    after_check.
  - after_check.
Qed.

Lemma download_records tag fileName entryUrl downloadSize w :
  records (download env tag fileName entryUrl downloadSize w) = [].
Proof.
  unfold records. unfold_io.
  destruct (os_MkdirAll_ok env fileName); unfold_io; [|reflexivity].
  destruct (files w !! fileName) as [c|] eqn:Hc; unfold_io.
  - destruct (Z.of_nat (Go.len c) =? downloadSize); unfold_io; [reflexivity|].
    after_check.
  - after_check.
Qed.

Lemma download_unmade tag fileName entryUrl downloadSize w :
  os_MkdirAll_ok env fileName = false ->
  world (download env tag fileName entryUrl downloadSize w) = w.
Proof. intros H. unfold_io. rewrite H. reflexivity. Qed.

Lemma download_intact tag fileName entryUrl downloadSize w c :
  files w !! fileName = Some c -> Z.of_nat (Go.len c) = downloadSize ->
  world (download env tag fileName entryUrl downloadSize w) = w.
Proof.
  intros Hc Hs. unfold_io.
  destruct (os_MkdirAll_ok env fileName); unfold_io; [|reflexivity].
  rewrite Hc. unfold_io. apply Z.eqb_eq in Hs. rewrite Hs. reflexivity.
Qed.

(** The stream, once it is reached: the directory was made, the local
    copy is missing or of another size, the request was answered, the
    file was created. A stream that does not end cleanly ends in
    [os.Remove] on the open file: the file is gone when that succeeds,
    and holds the reads written so far when it fails. *)
Lemma download_stream tag fileName entryUrl downloadSize w body :
  os_MkdirAll_ok env fileName = true ->
  local_differs w fileName downloadSize = true ->
  http_Get env entryUrl = Some body ->
  os_Create_ok env fileName = true ->
  Forall (fun c => (Go.len c <= bufferSize)%nat) (chunks body) ->
  files (world (download env tag fileName entryUrl downloadSize w)) !! fileName
  = if clean env fileName 0 (chunks body) (last_err body)
    then Some (String.concat "" (chunks body))
    else if os_Remove_ok env fileName true then None
         else Some (String.concat "" (kept env fileName 0 (chunks body))).
Proof.
  intros Hm Hd Hg Hc Hall. unfold local_differs in Hd. unfold_io.
  rewrite Hm. unfold_io.
  destruct (files w !! fileName) as [c|] eqn:Hl; unfold_io.
  - destruct (Z.of_nat (Go.len c) =? downloadSize); [discriminate|]. unfold_io.
    rewrite Hg. unfold_io. rewrite Hc. unfold_io.
    match goal with
    | |- context [copy env tag fileName ?b ?r ?l ?w0] =>
        destruct (copy_outcome tag fileName r b l w0 "" (make_len bufferSize) Hall) as (Hf & _)
    end.
    + cbn [files]. apply lookup_insert_eq.
    + exact Hf.
  - rewrite Hg. unfold_io. rewrite Hc. unfold_io.
    match goal with
    | |- context [copy env tag fileName ?b ?r ?l ?w0] =>
        destruct (copy_outcome tag fileName r b l w0 "" (make_len bufferSize) Hall) as (Hf & _)
    end.
    + cbn [files]. apply lookup_insert_eq.
    + exact Hf.
Qed.

Lemma download_ends_in_Remove tag fileName entryUrl downloadSize w body :
  os_MkdirAll_ok env fileName = true ->
  local_differs w fileName downloadSize = true ->
  http_Get env entryUrl = Some body ->
  os_Create_ok env fileName = true ->
  Forall (fun c => (Go.len c <= bufferSize)%nat) (chunks body) ->
  clean env fileName 0 (chunks body) (last_err body) = false ->
  list.last (events (download env tag fileName entryUrl downloadSize w))
  = Some (ERemove fileName).
Proof.
  intros Hm Hd Hg Hc Hall Hcl. unfold local_differs in Hd. unfold_io.
  rewrite Hm. unfold_io.
  destruct (files w !! fileName) as [c|] eqn:Hl; unfold_io.
  - destruct (Z.of_nat (Go.len c) =? downloadSize); [discriminate|]. unfold_io.
    rewrite Hg. unfold_io. rewrite Hc. unfold_io.
    repeat apply last_cons_Some.
    apply (copy_ends_in_Remove _ _ _ _ _ _ "" (make_len bufferSize) Hall);
      [cbn [files]; apply lookup_insert_eq | exact Hcl].
  - rewrite Hg. unfold_io. rewrite Hc. unfold_io.
    repeat apply last_cons_Some.
    apply (copy_ends_in_Remove _ _ _ _ _ _ "" (make_len bufferSize) Hall);
      [cbn [files]; apply lookup_insert_eq | exact Hcl].
Qed.

Lemma downloadUrl_records nThreads entryPath downloadSize w :
  records (downloadUrl env nThreads entryPath downloadSize w) = [].
Proof.
  unfold downloadUrl. destruct (Paths.getDownloadPath entryPath);
    [apply download_records | reflexivity].
Qed.

Lemma downloadUrl_001_records fileUrl downloadSize w :
  records (downloadUrl_001 env fileUrl downloadSize w) = [].
Proof.
  unfold downloadUrl_001. destruct (Paths.fileName_001 fileUrl); try reflexivity.
  unfold records. unfold mbind at 1, M_bind at 1. cbn [events].
  rewrite app_nil_r. apply download_records.
Qed.

(** ** C6: the manifest record *)

(** C6. [saveContent] (main.go and part_000, and part_001's) records
    the URL exactly once, as the first thing it does, whatever
    [writeUrlOnly] holds: the run's first operation is the
    [WriteString] of the URL's line and no other operation of the run
    is a [WriteString]. With [writeUrlOnly] set that is all it does: no
    further operation, and the local files are as they were. *)
Theorem record_once_and_first (writeUrlOnly : bool) (nThreads : Z)
    (fileUrl : string) (downloadSize : Z) (w : World) :
  let line := fileUrl ++ String "010" "" in
  (head (events (saveContent env writeUrlOnly nThreads fileUrl downloadSize w))
     = Some (EWriteString line)
   /\ records (saveContent env writeUrlOnly nThreads fileUrl downloadSize w)
      = [EWriteString line])
  /\ (head (events (saveContent_001 env writeUrlOnly fileUrl downloadSize w))
        = Some (EWriteString line)
      /\ records (saveContent_001 env writeUrlOnly fileUrl downloadSize w)
         = [EWriteString line])
  /\ (events (saveContent env true nThreads fileUrl downloadSize w)
        = [EWriteString line]
      /\ files (world (saveContent env true nThreads fileUrl downloadSize w))
         = files w)
  /\ (events (saveContent_001 env true fileUrl downloadSize w)
        = [EWriteString line]
      /\ files (world (saveContent_001 env true fileUrl downloadSize w))
         = files w).
Proof.
  cbn zeta. unfold saveContent, saveContent_001, records.
  unfold mbind at 1 2 3 4 5 6 7 8, M_bind at 1 2 3 4 5 6 7 8, writeUrl.
  cbn [value world events app head List.filter is_EWriteString negb].
  repeat split.
  - f_equal. destruct writeUrlOnly; cbn [negb]; [reflexivity|].
    apply downloadUrl_records.
  - f_equal. destruct writeUrlOnly; cbn [negb]; [reflexivity|].
    apply downloadUrl_001_records.
  - now destruct (urlFile_Write_ok env _).
  - now destruct (urlFile_Write_ok env _).
Qed.

(** ** C2: when a file is fetched *)

Lemma local_differs_true w fileName downloadSize :
  local_differs w fileName downloadSize = true <->
  files w !! fileName = None
  \/ exists c, files w !! fileName = Some c /\ Z.of_nat (Go.len c) <> downloadSize.
Proof.
  unfold local_differs. destruct (files w !! fileName) as [c|].
  - destruct (Z.eqb_spec (Z.of_nat (Go.len c)) downloadSize) as [He|Hne]; simpl.
    + split; [discriminate|]. intros [H|(c' & [= <-] & H)]; congruence.
    + split; [|reflexivity]. intros _. right. now exists c.
  - split; [now left | reflexivity].
Qed.

Lemma downloadUrl_fetches nThreads entryPath downloadSize w :
  fetches (downloadUrl env nThreads entryPath downloadSize w)
  = match Paths.getDownloadPath entryPath with
    | Some fileName =>
        if os_MkdirAll_ok env fileName && local_differs w fileName downloadSize
        then [EGet (getDownloadUrl env entryPath)] else []
    | None => []
    end.
Proof.
  unfold downloadUrl. destruct (Paths.getDownloadPath entryPath);
    [apply download_fetches | reflexivity].
Qed.

(** A row without a size cell leaves [entrySize] at its zero value. *)
Lemma parseCells_keeps_size tp GetEntrySize tds :
  forall f f',
    existsb (fun tdNode =>
               match Html.getAttribute (Some tdNode) "class" with
               | Some classAttr => String.eqb (Html.Val classAttr) "fb-s"
               | None => false
               end) tds = false ->
    Html.parseCells tp GetEntrySize tds f = Some f' ->
    Html.entrySize f' = Html.entrySize f.
Proof.
  induction tds as [|td rest IH]; intros f f' Hno Hp;
    cbn [existsb Html.parseCells] in *.
  - now injection Hp as <-.
  - apply orb_false_iff in Hno as [Htd Hrest].
    destruct (Html.parseCell tp GetEntrySize td f) as [f1|] eqn:Hc; [|discriminate].
    rewrite (IH f1 f' Hrest Hp).
    unfold Html.parseCell in Hc.
    destruct (Html.getAttribute (Some td) "class") as [a|] eqn:Ha; [|discriminate].
    destruct (String.eqb (Html.Val a) "fb-i").
    { destruct (Html.GetEntryType (Some td)) as [[|] t]; now inversion Hc. }
    destruct (String.eqb (Html.Val a) "fb-n").
    { destruct (Html.GetEntryPath (Some td)) as [[|] p]; now inversion Hc. }
    destruct (String.eqb (Html.Val a) "fb-d").
    { destruct (Html.GetEntryTime tp (Some td)); now inversion Hc. }
    rewrite Htd in Hc. discriminate.
Qed.

(** C2, amended. Outside manifest-only mode [downloadUrl] (main.go,
    part_000) issues a network fetch exactly when the local path
    derives, its directory could be made, and the local file is absent
    or of a size other than the entry's. When the local file exists
    with the entry's size, nothing is fetched and the local state is
    left as it was. A size the listing does not report reaches
    [downloadUrl] as 0 (shown here for part_000's row parser), and such
    an entry is fetched exactly when the local file is absent or not
    empty. *)
Theorem fetch_iff_local_differs (nThreads : Z) (entryPath : string)
    (downloadSize : Z) (w : World) :
  let r := downloadUrl env nThreads entryPath downloadSize w in
  (fetches r <> [] <->
   exists fileName,
     Paths.getDownloadPath entryPath = Some fileName
     /\ os_MkdirAll_ok env fileName = true
     /\ (files w !! fileName = None
         \/ exists c, files w !! fileName = Some c
                      /\ Z.of_nat (Go.len c) <> downloadSize))
  /\ (forall fileName c,
        Paths.getDownloadPath entryPath = Some fileName ->
        files w !! fileName = Some c ->
        Z.of_nat (Go.len c) = downloadSize ->
        fetches r = [] /\ world r = w)
  /\ (forall fileName,
        Paths.getDownloadPath entryPath = Some fileName ->
        os_MkdirAll_ok env fileName = true ->
        downloadSize = 0 ->
        (fetches r <> [] <-> files w !! fileName <> Some ""))
  /\ (forall time_Parse_ok node f,
        Html.rowFields time_Parse_ok Html.GetEntrySize_000 node = Some f ->
        Html.has_size_cell node = false ->
        Html.entrySize f = 0).
Proof.
  cbn zeta. rewrite downloadUrl_fetches. split; [|split; [|split]].
  - destruct (Paths.getDownloadPath entryPath) as [fileName|].
    + destruct (os_MkdirAll_ok env fileName) eqn:Hm; cbn [andb].
      * destruct (local_differs w fileName downloadSize) eqn:Hd.
        -- split; [|discriminate]. intros _. exists fileName.
           repeat split; auto. now apply local_differs_true.
        -- split; [congruence|]. intros (f' & [= <-] & _ & H).
           apply local_differs_true in H. congruence.
      * split; [congruence|]. intros (f' & [= <-] & H & _). congruence.
    + split; [congruence|]. intros (f' & H & _). discriminate.
  - intros fileName c Hp Hc Hs. rewrite Hp. split.
    + unfold local_differs. rewrite Hc.
      apply Z.eqb_eq in Hs. rewrite Hs, andb_false_r. reflexivity.
    + unfold downloadUrl. rewrite Hp. eapply download_intact; eauto.
  - intros fileName Hp Hm ->. rewrite Hp, Hm. cbn [andb].
    unfold local_differs. destruct (files w !! fileName) as [c|].
    + destruct c as [|a c]; simpl.
      * split; congruence.
      * split; [discriminate | intros _; discriminate].
    + split; [discriminate | intros _; discriminate].
  - intros tp node f Hrow Hno. unfold Html.rowFields in Hrow.
    destruct node as [n|]; [|discriminate].
    apply (parseCells_keeps_size _ _ _ _ _ Hno Hrow).
Qed.

(** ** C4 and C5: the stream *)

Lemma downloadUrl_stream nThreads entryPath fileName downloadSize w body :
  Paths.getDownloadPath entryPath = Some fileName ->
  os_MkdirAll_ok env fileName = true ->
  local_differs w fileName downloadSize = true ->
  http_Get env (getDownloadUrl env entryPath) = Some body ->
  os_Create_ok env fileName = true ->
  Forall (fun c => (Go.len c <= bufferSize)%nat) (chunks body) ->
  files (world (downloadUrl env nThreads entryPath downloadSize w)) !! fileName
  = if clean env fileName 0 (chunks body) (last_err body)
    then Some (String.concat "" (chunks body))
    else if os_Remove_ok env fileName true then None
         else Some (String.concat "" (kept env fileName 0 (chunks body))).
Proof.
  intros Hp. unfold downloadUrl. rewrite Hp. apply download_stream.
Qed.

Lemma downloadUrl_001_stream fileUrl fileName downloadSize w body :
  Paths.fileName_001 fileUrl = Paths.LocalPath fileName ->
  os_MkdirAll_ok env fileName = true ->
  local_differs w fileName downloadSize = true ->
  http_Get env fileUrl = Some body ->
  os_Create_ok env fileName = true ->
  Forall (fun c => (Go.len c <= bufferSize)%nat) (chunks body) ->
  files (world (downloadUrl_001 env fileUrl downloadSize w)) !! fileName
  = if clean env fileName 0 (chunks body) (last_err body)
    then Some (String.concat "" (chunks body))
    else if os_Remove_ok env fileName true then None
         else Some (String.concat "" (kept env fileName 0 (chunks body))).
Proof.
  intros Hp. unfold downloadUrl_001. rewrite Hp.
  unfold mbind at 1, M_bind at 1. cbn [world].
  apply download_stream.
Qed.

(** C4 fails on the code. Once the stream of a download is reached
    (the directory was made, the integrity check let the entry through,
    the request was answered and the local file created), a read that
    fails with an error other than [io.EOF], or a write that fails,
    makes [downloadUrl] call [os.Remove(fileName)] as its last
    operation, while the file is still open, and drop the call's error.
    Where the call succeeds no file is left at the local path. Where it
    fails, as on a system that cannot delete an open file, the partial
    file stays, holding the reads written before the error. So it is
    in main.go and part_000, and in part_001. Each read hands over at
    most the 4096 bytes of the buffer ([bufferSize]). *)
Theorem partial_file_left_when_remove_fails (fileName : string) (downloadSize : Z)
    (w : World) (body : Body) :
  os_MkdirAll_ok env fileName = true ->
  local_differs w fileName downloadSize = true ->
  os_Create_ok env fileName = true ->
  Forall (fun c => (Go.len c <= bufferSize)%nat) (chunks body) ->
  last_err body = io_Broken \/ writes_ok env fileName 0 (chunks body) = false ->
  let left := if os_Remove_ok env fileName true then None
              else Some (String.concat "" (kept env fileName 0 (chunks body))) in
  (forall nThreads entryPath,
      Paths.getDownloadPath entryPath = Some fileName ->
      http_Get env (getDownloadUrl env entryPath) = Some body ->
      files (world (downloadUrl env nThreads entryPath downloadSize w)) !! fileName
      = left
      /\ list.last (events (downloadUrl env nThreads entryPath downloadSize w))
         = Some (ERemove fileName))
  /\ (forall fileUrl,
        Paths.fileName_001 fileUrl = Paths.LocalPath fileName ->
        http_Get env fileUrl = Some body ->
        files (world (downloadUrl_001 env fileUrl downloadSize w)) !! fileName
        = left
        /\ list.last (events (downloadUrl_001 env fileUrl downloadSize w))
           = Some (ERemove fileName)).
Proof.
  intros Hm Hd Hc Hall Herr. cbn zeta.
  assert (Hclean : clean env fileName 0 (chunks body) (last_err body) = false).
  { unfold clean. destruct Herr as [-> | ->]; [apply andb_false_r | reflexivity]. }
  split.
  - intros nThreads entryPath Hp Hg. split.
    + rewrite (downloadUrl_stream _ _ _ _ _ _ Hp Hm Hd Hg Hc Hall), Hclean.
      reflexivity.
    + unfold downloadUrl. rewrite Hp.
      now apply (download_ends_in_Remove _ _ _ _ _ body).
  - intros fileUrl Hp Hg. split.
    + rewrite (downloadUrl_001_stream _ _ _ _ _ Hp Hm Hd Hg Hc Hall), Hclean.
      reflexivity.
    + unfold downloadUrl_001. rewrite Hp.
      unfold mbind at 1, M_bind at 1, mret, M_ret. cbn [events].
      rewrite app_nil_r. now apply (download_ends_in_Remove _ _ _ _ _ body).
Qed.

(** C5 fails on the code. A download whose stream ends cleanly (every
    write succeeds, the reads end with [io.EOF]) leaves in the local
    file the bytes of the reads that returned no error, and nothing
    else: the bytes that the last read hands over together with
    [io.EOF] are not written. When there are such bytes, the file is
    not the response body. So it is in main.go and part_000, and in
    part_001. *)
Theorem bytes_read_with_EOF_are_dropped (fileName : string) (downloadSize : Z)
    (w : World) (body : Body) :
  os_MkdirAll_ok env fileName = true ->
  local_differs w fileName downloadSize = true ->
  os_Create_ok env fileName = true ->
  Forall (fun c => (Go.len c <= bufferSize)%nat) (chunks body) ->
  writes_ok env fileName 0 (chunks body) = true ->
  last_err body = io_EOF ->
  (forall nThreads entryPath,
      Paths.getDownloadPath entryPath = Some fileName ->
      http_Get env (getDownloadUrl env entryPath) = Some body ->
      files (world (downloadUrl env nThreads entryPath downloadSize w)) !! fileName
        = Some (String.concat "" (chunks body)))
  /\ (forall fileUrl,
        Paths.fileName_001 fileUrl = Paths.LocalPath fileName ->
        http_Get env fileUrl = Some body ->
        files (world (downloadUrl_001 env fileUrl downloadSize w)) !! fileName
          = Some (String.concat "" (chunks body)))
  /\ (last_data body <> "" -> String.concat "" (chunks body) <> content body).
Proof.
  intros Hm Hd Hc Hall Hw He.
  assert (Hclean : clean env fileName 0 (chunks body) (last_err body) = true).
  { unfold clean. now rewrite Hw, He. }
  split; [|split].
  - intros nThreads entryPath Hp Hg.
    rewrite (downloadUrl_stream _ _ _ _ _ _ Hp Hm Hd Hg Hc Hall), Hclean.
    reflexivity.
  - intros fileUrl Hp Hg.
    rewrite (downloadUrl_001_stream _ _ _ _ _ Hp Hm Hd Hg Hc Hall), Hclean.
    reflexivity.
  - intros Hne Heq. unfold content in Heq.
    assert (Hl : Go.len (String.concat "" (chunks body))
                 = Go.len (String.concat "" (chunks body) ++ last_data body))
      by (f_equal; exact Heq).
    rewrite len_app in Hl.
    apply Hne, len_zero_iff. lia.
Qed.

End DownloadFacts.

(** The amended C2 at an intact local copy: [/a.txt] is listed with 5
    bytes and [downloads/a.txt] holds 5 bytes. *)
Lemma fetch_iff_local_differs_witness :
  Paths.getDownloadPath "/a.txt" = Some "downloads/a.txt"
  /\ files Fixtures.disk_with_copy !! "downloads/a.txt" = Some "hello"
  /\ fetches (downloadUrl Fixtures.host 1 "/a.txt" 5 Fixtures.disk_with_copy) = []
  /\ world (downloadUrl Fixtures.host 1 "/a.txt" 5 Fixtures.disk_with_copy)
     = Fixtures.disk_with_copy.
Proof.
  split; [reflexivity|]. split; [reflexivity|].
  exact (proj1 (proj2 (fetch_iff_local_differs Fixtures.host 1 "/a.txt" 5
                         Fixtures.disk_with_copy))
               "downloads/a.txt" "hello" eq_refl eq_refl eq_refl).
Defined.

(** C2 as stated fails twice. A file row of part_000 that reports no
    size is dispatched with size 0, and when the local copy exists and
    is empty [downloadUrl] reports it intact and fetches nothing: the
    entry is not re-downloaded. And an entry whose path does not
    percent-decode has no local file, yet nothing is fetched for it. *)
Lemma unreported_size_not_refetched :
  Html.ParseEntry_000 Fixtures.no_dates (Some Fixtures.sizeless_row)
    = Calls (Save "/a.txt" 0)
  /\ events (downloadUrl Fixtures.host 1 "/a.txt" 0 Fixtures.disk_with_empty_file)
     = [EMkdirAll "downloads/a.txt"; EStat "downloads/a.txt";
        EPrintf (Some 1) Intact "downloads/a.txt"]
  /\ fetches (downloadUrl Fixtures.host 1 "/a.txt" 0 Fixtures.disk_with_empty_file) = []
  /\ Paths.getDownloadPath "/%zz" = None
  /\ files Fixtures.empty_disk = ∅
  /\ events (downloadUrl Fixtures.host 1 "/%zz" 5 Fixtures.empty_disk) = [].
Proof. repeat split; reflexivity. Qed.

Lemma host_reads_fit (url : string) (body : Body) :
  http_Get Fixtures.host url = Some body ->
  Forall (fun c => (Go.len c <= bufferSize)%nat) (chunks body).
Proof.
  unfold Fixtures.host. cbn [http_Get].
  destruct (String.eqb url "http://h/d/f").
  - intros [= <-]. cbn [chunks].
    repeat (constructor; [apply Nat.leb_le; vm_compute; reflexivity|]).
    constructor.
  - destruct (String.eqb url "http://h/d/broken"); [|discriminate].
    intros [= <-]. cbn [chunks].
    repeat (constructor; [apply Nat.leb_le; vm_compute; reflexivity|]).
    constructor.
Qed.

(** C4 at its failing input: the stream of [/d/broken] breaks after
    its first read, on a system that cannot delete an open file. The
    three bytes were written, [os.Remove] is the last thing
    [downloadUrl] does, and the file is still there when it returns.
    On [Fixtures.host], where the call succeeds, the file is gone. *)
Lemma partial_file_left_when_remove_fails_witness :
  events (downloadUrl Fixtures.host_on_windows 1 "/d/broken" 9 Fixtures.empty_disk)
    = [EMkdirAll "downloads/d/broken"; EStat "downloads/d/broken";
       EPrintf (Some 1) Downloading "http://h/d/broken"; EGet "http://h/d/broken";
       EPrintf (Some 1) Saving "downloads/d/broken"; ECreate "downloads/d/broken";
       EWrite "downloads/d/broken" "abc";
       EPrintf (Some 1) Failure "downloads/d/broken"; ERemove "downloads/d/broken"]
  /\ files (world (downloadUrl Fixtures.host_on_windows 1 "/d/broken" 9
                     Fixtures.empty_disk))
       !! "downloads/d/broken" = Some "abc"
  /\ files (world (downloadUrl Fixtures.host 1 "/d/broken" 9 Fixtures.empty_disk))
       !! "downloads/d/broken" = None.
Proof.
  split; [reflexivity|]. split.
  - exact (proj1 (proj1 (partial_file_left_when_remove_fails Fixtures.host_on_windows
                           "downloads/d/broken" 9 Fixtures.empty_disk
                           {| chunks := ["abc"]; last_data := ""; last_err := io_Broken |}
                           eq_refl eq_refl eq_refl
                           (host_reads_fit "http://h/d/broken" _ eq_refl)
                           (or_introl eq_refl))
                        1 "/d/broken" eq_refl eq_refl)).
  - exact (proj1 (proj1 (partial_file_left_when_remove_fails Fixtures.host
                           "downloads/d/broken" 9 Fixtures.empty_disk
                           {| chunks := ["abc"]; last_data := ""; last_err := io_Broken |}
                           eq_refl eq_refl eq_refl
                           (host_reads_fit "http://h/d/broken" _ eq_refl)
                           (or_introl eq_refl))
                        1 "/d/broken" eq_refl eq_refl)).
Defined.

(** C5 at its failing input: the body of [/d/f] is [abcdef], the last
    byte arriving together with [io.EOF]; the file is left holding
    [abcde], and no error is reported. *)
Lemma bytes_read_with_EOF_are_dropped_witness :
  (content <$> http_Get Fixtures.host "http://h/d/f") = Some "abcdef"
  /\ files (world (downloadUrl Fixtures.host 1 "/d/f" 6 Fixtures.empty_disk))
       !! "downloads/d/f" = Some "abcde"
  /\ List.filter (fun e => match e with EPrintf _ Failure _ => true | _ => false end)
                 (events (downloadUrl Fixtures.host 1 "/d/f" 6 Fixtures.empty_disk))
     = [].
Proof.
  split; [reflexivity|]. split; [|reflexivity].
  exact (proj1 (bytes_read_with_EOF_are_dropped Fixtures.host "downloads/d/f" 6
                  Fixtures.empty_disk
                  {| chunks := ["abc"; "de"]; last_data := "f"; last_err := io_EOF |}
                  eq_refl eq_refl eq_refl
                  (host_reads_fit "http://h/d/f" _ eq_refl)
                  eq_refl eq_refl)
               1 "/d/f" eq_refl eq_refl).
Defined.

(** ** C1 and C3: admission and the counter *)

Import Sched.

Lemma owed_by_app g1 g2 : owed_by (g1 ++ g2) = owed_by g1 + owed_by g2.
Proof. induction g1 as [|instr g1 IH]; simpl; lia. Qed.

Lemma owed_in_app p1 p2 : owed_in (p1 ++ p2) = owed_in p1 + owed_in p2.
Proof. induction p1 as [|g p1 IH]; simpl; lia. Qed.

Lemma owed_in_insert (p : list (list Instr)) i g g' :
  p !! i = Some g ->
  owed_in (<[i := g']> p) = owed_in p - owed_by g + owed_by g'.
Proof.
  revert i. induction p as [|g0 p IH]; intros [|i] H; simpl in *; try discriminate.
  - injection H as ->. lia.
  - rewrite (IH i H). lia.
Qed.

Lemma owed_by_lay_out ds : owed_by (List.flat_map lay_out ds) = 0.
Proof.
  induction ds as [|d ds IH]; simpl; [reflexivity|].
  rewrite owed_by_app, IH. destruct d; reflexivity.
Qed.

Lemma idle_owes_nothing g : forallb idle g = true -> owed_by g = 0.
Proof.
  induction g as [|instr k IH]; simpl; [reflexivity|].
  intros H. apply andb_true_iff in H as [Hi Hk].
  rewrite (IH Hk). destruct instr; (discriminate || reflexivity).
Qed.

Lemma complete_owes_nothing s : branches_complete s = true -> owed_in (pool s) = 0.
Proof.
  unfold branches_complete. induction (pool s) as [|g p IH]; simpl; [reflexivity|].
  intros H. apply andb_true_iff in H as [Hg Hp].
  rewrite (idle_owes_nothing _ Hg), (IH Hp). reflexivity.
Qed.

Lemma all_done_complete s : all_done s = true -> branches_complete s = true.
Proof.
  unfold all_done, branches_complete.
  induction (pool s) as [|g p IH]; simpl; [reflexivity|].
  destruct g; [|discriminate]. simpl. exact IH.
Qed.

Section MachineFacts.

Variable maxThreads : Z.
Variable crawlDirectory : string -> list Dispatch.
Variable saveContent : Z -> string -> Z -> Download.M Download.Exit.

Abbreviation exec := (Sched.exec maxThreads crawlDirectory saveContent).
Abbreviation run := (Sched.run maxThreads crawlDirectory saveContent).

Lemma exec_balanced i s s' :
  balanced s -> exec i s = Some s' -> balanced s'.
Proof.
  unfold balanced, Sched.exec. intros Hb.
  destruct (exited s); [discriminate|].
  destruct (pool s !! i) as [[|instr k]|] eqn:Hi; try discriminate.
  destruct instr as [w|n w|delta|[p|p z]|delta| | | |line|].
  - intros [= <-]. cbn [threads pool with_pool with_threads].
    rewrite (owed_in_insert _ _ _ _ Hi), Hb, wrap64_add_l. f_equal. simpl. lia.
  - destruct (n <=? maxThreads); intros [= <-]; cbn [threads pool with_pool].
    + rewrite owed_in_app, (owed_in_insert _ _ _ _ Hi), Hb. f_equal. simpl. lia.
    + rewrite (owed_in_insert _ _ _ _ Hi), Hb. f_equal. simpl. lia.
  - intros [= <-]. cbn [threads pool with_pool with_threads].
    rewrite (owed_in_insert _ _ _ _ Hi), Hb, wrap64_add_l. f_equal. simpl. lia.
  - intros [= <-]. cbn [threads pool with_pool].
    rewrite (owed_in_insert _ _ _ _ Hi), owed_by_app, owed_by_lay_out, Hb.
    f_equal. simpl. lia.
  - destruct (Download.value _); [|discriminate].
    intros [= <-]. cbn [threads pool].
    rewrite (owed_in_insert _ _ _ _ Hi), Hb. f_equal. simpl. lia.
  - destruct (wg s + delta <? 0); [discriminate|].
    intros [= <-]. cbn [threads pool with_pool with_wg].
    rewrite (owed_in_insert _ _ _ _ Hi), Hb. f_equal. simpl. lia.
  - destruct (wg s - 1 <? 0); [discriminate|].
    intros [= <-]. cbn [threads pool with_pool with_wg].
    rewrite (owed_in_insert _ _ _ _ Hi), Hb. f_equal. simpl. lia.
  - intros [= <-]. cbn [threads pool with_pool].
    rewrite (owed_in_insert _ _ _ _ Hi), Hb. f_equal. simpl. lia.
  - destruct (wg s =? 0); [|discriminate].
    intros [= <-]. cbn [threads pool with_pool].
    rewrite (owed_in_insert _ _ _ _ Hi), Hb. f_equal. simpl. lia.
  - intros [= <-]. cbn [threads pool].
    rewrite (owed_in_insert _ _ _ _ Hi), Hb. f_equal. simpl. lia.
  - discriminate.
Qed.

Lemma run_balanced schedule :
  forall s s', balanced s -> run schedule s = Some s' -> balanced s'.
Proof.
  induction schedule as [|i rest IH]; intros s s' Hb; simpl.
  - now intros [= <-].
  - destruct (exec i s) as [s1|] eqn:He; [|discriminate].
    apply IH. exact (exec_balanced _ _ _ Hb He).
Qed.

Lemma init_balanced requestPath w : balanced (init requestPath w).
Proof. reflexivity. Qed.

(** C3. Whatever the limit, the listings, the downloads and the
    schedule: in every state the program reaches, [threads] holds what
    the goroutines still owe it (one decrement for each admission whose
    branch has not yet taken it), and once every branch, concurrent or
    inline, has run to its end, [threads] is 0; [main] may still be
    anywhere in its tail. *)
Theorem counter_returns_to_zero (requestPath : string) (w : Download.World)
    (schedule : list nat) (s : State) :
  run schedule (init requestPath w) = Some s ->
  branches_complete s = true ->
  threads s = 0.
Proof.
  intros Hrun Hdone.
  pose proof (run_balanced _ _ _ (init_balanced requestPath w) Hrun) as Hb.
  unfold balanced in Hb. rewrite Hb, (complete_owes_nothing _ Hdone). reflexivity.
Qed.

(** A step of goroutine [j] rewrites what [j] has left and may start
    one goroutine at the end of the pool; it leaves what the others
    have left as it is. *)
Lemma exec_pool j s s' :
  exec j s = Some s' ->
  exists g' sp, pool s' = (<[j := g']> (pool s) ++ sp)%list.
Proof.
  unfold Sched.exec. destruct (exited s); [discriminate|].
  destruct (pool s !! j) as [[|instr k]|]; try discriminate.
  destruct instr as [w|n w|delta|[p|p z]|delta| | | |line|].
  - intros [= <-]. eexists _, []. now rewrite app_nil_r.
  - destruct (n <=? maxThreads); intros [= <-].
    + now eexists _, _.
    + eexists _, []. now rewrite app_nil_r.
  - intros [= <-]. eexists _, []. now rewrite app_nil_r.
  - intros [= <-]. eexists _, []. now rewrite app_nil_r.
  - destruct (Download.value _); [|discriminate].
    intros [= <-]. eexists _, []. now rewrite app_nil_r.
  - destruct (wg s + delta <? 0); [discriminate|].
    intros [= <-]. eexists _, []. now rewrite app_nil_r.
  - destruct (wg s - 1 <? 0); [discriminate|].
    intros [= <-]. eexists _, []. now rewrite app_nil_r.
  - intros [= <-]. eexists _, []. now rewrite app_nil_r.
  - destruct (wg s =? 0); [|discriminate].
    intros [= <-]. eexists _, []. now rewrite app_nil_r.
  - intros [= <-]. eexists _, []. now rewrite app_nil_r.
  - discriminate.
Qed.

Lemma exec_elsewhere i j s s' g :
  j <> i -> pool s !! i = Some g -> exec j s = Some s' -> pool s' !! i = Some g.
Proof.
  intros Hne Hi He. destruct (exec_pool _ _ _ He) as (g' & sp & ->).
  apply lookup_app_l_Some. now rewrite list_lookup_insert_ne.
Qed.

Lemma run_elsewhere i g schedule :
  forall s s',
    Forall (fun j => j <> i) schedule ->
    pool s !! i = Some g ->
    run schedule s = Some s' ->
    pool s' !! i = Some g.
Proof.
  induction schedule as [|j rest IH]; intros s s' Hall Hi; simpl.
  - now intros [= <-].
  - inversion Hall as [|? ? Hj Hrest]; subst.
    destruct (exec j s) as [s1|] eqn:He; [|discriminate].
    apply IH; [exact Hrest|]. exact (exec_elsewhere _ _ _ _ _ Hj Hi He).
Qed.

(** C1. A goroutine at the entry of [crawlDirectoryAsync] or
    [saveContentAsync] adds 1 to [threads] in one step and keeps the new
    value; nothing else changes. When it steps next, whatever the other
    goroutines did to [threads] in between, it decides on the value it
    kept. If that value is at most the limit, a goroutine is started
    that has the closure's four statements to run ([wg.Add(1)], the
    work, the decrement, [wg.Done()]); the caller goes on with what
    follows the call and has not run the work; and the goroutine
    started, whenever it steps, registers and stands at the work.
    Otherwise no goroutine is started; the caller's next step, whenever
    it comes, takes 1 off [threads] again and leaves the caller at the
    work. And the work, in whichever goroutine it stands: a crawl puts
    the dispatches of the listing in front of what follows; a download
    is the call of [saveContent] on the disk, with its operations
    logged, or the panic it ends in. *)
Theorem admission_decision (s : State) (i : nat) (w : Work) (k : list Instr) :
  exited s = false ->
  pool s !! i = Some (IAsync w :: k) ->
  let nThreads := Go.wrap64 (threads s + 1) in
  (exists s0,
      exec i s = Some s0
      /\ threads s0 = nThreads
      /\ pool s0 = <[i := IBranch nThreads w :: k]> (pool s)
      /\ (wg s0, disk s0, log s0) = (wg s, disk s, log s))
  /\ (forall between s0 s1,
        exec i s = Some s0 ->
        Forall (fun j => j <> i) between ->
        run between s0 = Some s1 ->
        exited s1 = false ->
        (nThreads <= maxThreads ->
         exists s2,
           exec i s1 = Some s2
           /\ pool s2
              = (<[i := k]> (pool s1)
                 ++ [[IWgAdd 1; IRun w; IAddInt64 (-1); IWgDone]])%list
           /\ (threads s2, wg s2, disk s2, log s2)
              = (threads s1, wg s1, disk s1, log s1)
           /\ forall later s3,
                Forall (fun j => j <> length (pool s1)) later ->
                run later s2 = Some s3 ->
                exited s3 = false ->
                0 <= wg s3 + 1 ->
                exists s4,
                  exec (length (pool s1)) s3 = Some s4
                  /\ wg s4 = wg s3 + 1
                  /\ pool s4
                     = <[length (pool s1) := [IRun w; IAddInt64 (-1); IWgDone]]>
                         (pool s3))
        /\ (maxThreads < nThreads ->
            exists s2,
              exec i s1 = Some s2
              /\ pool s2 = <[i := IAddInt64 (-1) :: IRun w :: k]> (pool s1)
              /\ (threads s2, wg s2, disk s2, log s2)
                 = (threads s1, wg s1, disk s1, log s1)
              /\ forall later s3,
                   Forall (fun j => j <> i) later ->
                   run later s2 = Some s3 ->
                   exited s3 = false ->
                   exists s4,
                     exec i s3 = Some s4
                     /\ threads s4 = Go.wrap64 (threads s3 - 1)
                     /\ pool s4 = <[i := IRun w :: k]> (pool s3)))
  /\ (forall j rest s5,
        exited s5 = false ->
        pool s5 !! j = Some (IRun w :: rest) ->
        match w with
        | Crawl entryPath =>
            exists s6,
              exec j s5 = Some s6
              /\ pool s6
                 = <[j := (List.flat_map lay_out (crawlDirectory entryPath) ++ rest)%list]>
                     (pool s5)
              /\ (threads s6, wg s6, disk s6, log s6)
                 = (threads s5, wg s5, disk s5, log s5)
        | Save entryPath fileSize =>
            let r := saveContent (threads s5) entryPath fileSize (disk s5) in
            match Download.value r with
            | Download.Returned =>
                exists s6,
                  exec j s5 = Some s6
                  /\ pool s6 = <[j := rest]> (pool s5)
                  /\ disk s6 = Download.world r
                  /\ log s6 = (log s5 ++ Download.events r)%list
                  /\ (threads s6, wg s6) = (threads s5, wg s5)
            | Download.Panicked => exec j s5 = None
            end
        end).
Proof.
  intros Hx Hi. cbn zeta.
  assert (He : exec i s
               = Some (with_pool (<[i := IBranch (Go.wrap64 (threads s + 1)) w :: k]> (pool s))
                                 (with_threads (Go.wrap64 (threads s + 1)) s))).
  { unfold Sched.exec. now rewrite Hx, Hi. }
  split; [|split].
  - eexists. split; [exact He|]. repeat split.
  - intros between s0 s1 He0 Hb Hr Hx1.
    rewrite He in He0. injection He0 as <-.
    assert (Hi1 : pool s1 !! i = Some (IBranch (Go.wrap64 (threads s + 1)) w :: k)).
    { eapply (run_elsewhere i _ between _ s1 Hb); [|exact Hr].
      cbn [pool with_pool with_threads].
      apply list_lookup_insert_eq. now apply lookup_lt_Some in Hi. }
    split.
    + intros Hle. apply Z.leb_le in Hle.
      eexists. split; [unfold Sched.exec; rewrite Hx1, Hi1, Hle; reflexivity|].
      split; [reflexivity|]. split; [reflexivity|].
      intros later s3 Hl Hr3 Hx3 Hwg.
      assert (Hj : pool s3 !! length (pool s1)
                   = Some [IWgAdd 1; IRun w; IAddInt64 (-1); IWgDone]).
      { eapply (run_elsewhere _ _ later _ s3 Hl); [|exact Hr3].
        cbn [pool with_pool]. apply list_lookup_middle. now rewrite length_insert. }
      eexists. split.
      * unfold Sched.exec. rewrite Hx3, Hj.
        destruct (Z.ltb_spec (wg s3 + 1) 0); [lia|reflexivity].
      * split; reflexivity.
    + intros Hgt. apply Z.leb_gt in Hgt.
      eexists. split; [unfold Sched.exec; rewrite Hx1, Hi1, Hgt; reflexivity|].
      split; [reflexivity|]. split; [reflexivity|].
      intros later s3 Hl Hr3 Hx3.
      assert (Hj : pool s3 !! i = Some (IAddInt64 (-1) :: IRun w :: k)).
      { eapply (run_elsewhere i _ later _ s3 Hl); [|exact Hr3].
        cbn [pool with_pool]. apply list_lookup_insert_eq.
        now apply lookup_lt_Some in Hi1. }
      eexists. split; [unfold Sched.exec; rewrite Hx3, Hj; reflexivity|].
      split; reflexivity.
  - intros j rest s5 Hx5 Hj. unfold Sched.exec. rewrite Hx5, Hj.
    destruct w as [p|p z].
    + eexists. split; [reflexivity|]. split; reflexivity.
    + cbn zeta. destruct (Download.value _).
      * eexists. split; [reflexivity|]. repeat split.
      * reflexivity.
Qed.

End MachineFacts.

(** C1 at the first dispatch of a crawl of [/] with a limit of 1: the
    counter goes from 0 to 1, and since 1 is within the limit the crawl
    of [/d/] becomes goroutine 1, which registers with the wait group
    and then stands at the crawl; [main] goes on to its sleep. *)
Lemma admission_decision_witness :
  let s := {| threads := 0; wg := 0;
              pool := [[IAsync (Crawl "/d/"); ISleep; IWgWait; IPrintln "Done!"]];
              disk := Fixtures.empty_disk; log := []; printed := [] |} in
  let s0 := {| threads := 1; wg := 0;
               pool := [[IBranch 1 (Crawl "/d/"); ISleep; IWgWait; IPrintln "Done!"]];
               disk := Fixtures.empty_disk; log := []; printed := [] |} in
  exec_main 1 Fixtures.tree Fixtures.host false 0 s = Some s0
  /\ exists s2 s4,
       exec_main 1 Fixtures.tree Fixtures.host false 0 s0 = Some s2
       /\ pool s2 = [[ISleep; IWgWait; IPrintln "Done!"];
                     [IWgAdd 1; IRun (Crawl "/d/"); IAddInt64 (-1); IWgDone]]
       /\ exec_main 1 Fixtures.tree Fixtures.host false 1 s2 = Some s4
       /\ wg s4 = 1
       /\ pool s4 = [[ISleep; IWgWait; IPrintln "Done!"];
                     [IRun (Crawl "/d/"); IAddInt64 (-1); IWgDone]].
Proof.
  intros s s0. split; [reflexivity|].
  pose proof (proj1 (proj2 (admission_decision 1 (Crawl.crawlDirectory Fixtures.tree)
                              (saveContent_main Fixtures.host false)
                              s 0%nat (Crawl "/d/") [ISleep; IWgWait; IPrintln "Done!"]
                              eq_refl eq_refl))
                    [] s0 s0 eq_refl (Forall_nil_2 _) eq_refl eq_refl) as [Hstart _].
  destruct (Hstart ltac:(vm_compute; discriminate)) as (s2 & He2 & Hp2 & _ & Hlater).
  destruct (Hlater [] s2 (Forall_nil_2 _) eq_refl
              ltac:(unfold exited; rewrite Hp2; reflexivity)
              ltac:(vm_compute in He2; injection He2 as <-; vm_compute; discriminate))
    as (s4 & He4 & Hw4 & Hp4).
  exists s2, s4. split; [exact He2|]. split; [exact Hp2|]. split; [exact He4|].
  split.
  - rewrite Hw4. vm_compute in He2. injection He2 as <-. reflexivity.
  - rewrite Hp4, Hp2. reflexivity.
Defined.

(** C3 on a run over the tree of [Fixtures.tree] with a limit of 1: the
    crawl of [/d/] is admitted as goroutine 1, the download of [/d/f]
    finds the limit reached and runs inline on goroutine 1; both goroutines
    run to their end, and [threads] is 0. *)
Lemma counter_returns_to_zero_witness :
  exists s,
    run_main 1 Fixtures.tree Fixtures.host false
             [0; 0; 0; 1; 1; 1; 1; 1; 1; 1; 1; 0; 0; 0]%nat
             (init "/" Fixtures.empty_disk) = Some s
    /\ branches_complete s = true
    /\ all_done s = true
    /\ printed s = ["Done!"]
    /\ Download.files (disk s) !! "downloads/d/f" = Some "abcde"
    /\ threads s = 0.
Proof.
  eexists. split; [vm_compute; reflexivity|].
  split; [reflexivity|]. split; [reflexivity|]. split; [reflexivity|].
  split; [reflexivity|].
  eapply (counter_returns_to_zero 1 (Crawl.crawlDirectory Fixtures.tree)
            (saveContent_main Fixtures.host false) "/" Fixtures.empty_disk
            [0; 0; 0; 1; 1; 1; 1; 1; 1; 1; 1; 0; 0; 0]%nat).
  - vm_compute. reflexivity.
  - reflexivity.
Defined.

(** ** C9: the join *)

(** C9 fails on the code. Over the tree of [Fixtures.tree], with a
    limit of 4: goroutine 1 (the crawl of [/d/]) registers with the
    wait group, [main] sleeps and then blocks in [wg.Wait()]; goroutine
    1 starts goroutine 2 (the download of [/d/f]), takes its decrement
    and calls [wg.Done()], which brings the wait group to 0 while
    goroutine 2 has not yet run its [wg.Add(1)]. [wg.Wait()] returns,
    [main] prints [Done!] and returns: the process is over with the
    download of [/d/f] not begun, its URL not recorded, and [threads]
    still at 1. *)
Theorem wait_passes_unregistered_goroutine :
  exists blocked s,
    run_main 4 Fixtures.tree Fixtures.host false [0; 0; 0; 1; 0]%nat
             (init "/" Fixtures.empty_disk) = Some blocked
    /\ wg blocked = 1
    /\ exec_main 4 Fixtures.tree Fixtures.host false 0 blocked = None
    /\ run_main 4 Fixtures.tree Fixtures.host false [1; 1; 1; 1; 1; 0; 0]%nat blocked
       = Some s
    /\ exited s = true
    /\ printed s = ["Done!"]
    /\ pool s !! 2%nat = Some (f_async (Save "/d/f" 6))
    /\ log s = []
    /\ Download.urlFile (disk s) = ""
    /\ threads s = 1
    /\ (forall i, exec_main 4 Fixtures.tree Fixtures.host false i s = None).
Proof.
  eexists. eexists.
  split; [vm_compute; reflexivity|].
  split; [reflexivity|].
  split; [reflexivity|].
  split; [vm_compute; reflexivity|].
  repeat split; reflexivity.
Qed.

(* ===================================================================== *)
(** * More of the code                                                   *)
(* ===================================================================== *)

#[local] Arguments Download.make : simpl never.

(** ** [getDownloadPath]: errors, the root, slashes, plain paths *)

Lemma Split_not_nil s sep : Go.Split s sep <> [].
Proof.
  destruct s as [|c rest]; simpl; [discriminate|].
  destruct (Ascii.eqb c sep); [discriminate|].
  destruct (Go.Split rest sep); discriminate.
Qed.

Lemma Split_app a b sep :
  Go.Split (a ++ String sep b) sep = (Go.Split a sep ++ Go.Split b sep)%list.
Proof.
  induction a as [|c a IH]; simpl.
  - now rewrite Ascii.eqb_refl.
  - destruct (Ascii.eqb c sep); [now rewrite IH|].
    rewrite IH. destruct (Go.Split a sep) as [|w ws] eqn:E; [|reflexivity].
    now destruct (Split_not_nil a sep).
Qed.

Lemma Join_cons x y ys sep :
  Go.Join (x :: y :: ys) sep = x ++ sep ++ Go.Join (y :: ys) sep.
Proof. reflexivity. Qed.

(** [strings.Join] undoes [strings.Split]. *)
Lemma Join_Split s : Go.Join (Go.Split s "/") "/" = s.
Proof.
  induction s as [|c rest IH]; [reflexivity|].
  cbn [Go.Split]. destruct (Ascii.eqb_spec c "/") as [->|Hne].
  - destruct (Go.Split rest "/") as [|w ws] eqn:E;
      [now destruct (Split_not_nil rest "/")|].
    rewrite Join_cons, IH. reflexivity.
  - destruct (Go.Split rest "/") as [|w ws] eqn:E;
      [now destruct (Split_not_nil rest "/")|].
    destruct ws as [|w' ws'].
    + rewrite <- IH. reflexivity.
    + rewrite Join_cons, <- IH, Join_cons. reflexivity.
Qed.

Lemma getDownloadPath_loop_app l1 l2 parts :
  Paths.getDownloadPath_loop (l1 ++ l2) parts =
  match Paths.getDownloadPath_loop l1 parts with
  | None => None
  | Some parts' => Paths.getDownloadPath_loop l2 parts'
  end.
Proof.
  revert parts. induction l1 as [|str rest IH]; intros parts; simpl; [reflexivity|].
  destruct (Go.PathUnescape str) as [d|]; [|reflexivity].
  destruct (0 <? Go.len (Go.TrimSpace d))%nat; apply IH.
Qed.

Lemma getDownloadPath_loop_empty parts :
  Paths.getDownloadPath_loop [""] parts = Some parts.
Proof. reflexivity. Qed.

Lemma getDownloadPath_None entryPath :
  Paths.getDownloadPath entryPath = None <->
  Exists (fun c => Go.PathUnescape c = None) (Go.Split entryPath "/").
Proof.
  unfold Paths.getDownloadPath. rewrite getDownloadPath_loop_spec, <- mapM_None.
  destruct (mapM Go.PathUnescape (Go.Split entryPath "/")); split;
    congruence.
Qed.

Lemma Join_root rest :
  Go.Join ("downloads" :: rest) "/" = "downloads"
  \/ Go.HasPrefix (Go.Join ("downloads" :: rest) "/") "downloads/" = true.
Proof.
  destruct rest as [|y ys]; [now left|]. right.
  rewrite Join_cons. apply HasPrefix_split.
  exists (Go.Join (y :: ys) "/"). reflexivity.
Qed.

(** X1. [getDownloadPath] returns its error exactly when some component
    of the path (between slashes) has a percent escape that
    [url.PathUnescape] refuses; when it returns a path, the path is
    [downloads] itself or begins with [downloads/]. *)
Theorem getDownloadPath_error_or_rooted (entryPath : string) :
  (Paths.getDownloadPath entryPath = None <->
   Exists (fun c => Go.PathUnescape c = None) (Go.Split entryPath "/"))
  /\ (forall fileName,
        Paths.getDownloadPath entryPath = Some fileName ->
        fileName = "downloads"
        \/ Go.HasPrefix fileName "downloads/" = true).
Proof.
  split; [apply getDownloadPath_None|].
  intros fileName. unfold Paths.getDownloadPath.
  rewrite getDownloadPath_loop_spec.
  destruct (mapM Go.PathUnescape (Go.Split entryPath "/")) as [decoded|];
    [|discriminate].
  intros [= <-]. apply Join_root.
Qed.

(** X1 on two paths: a dangling [%] in the second component, and a path
    that decodes. *)
Lemma getDownloadPath_error_or_rooted_witness :
  Paths.getDownloadPath "/docs/100%" = None
  /\ Paths.getDownloadPath "/docs/a%20b" = Some "downloads/docs/a b"
  /\ Go.HasPrefix "downloads/docs/a b" "downloads/" = true.
Proof.
  split; [|split; [reflexivity|]].
  - apply (proj1 (getDownloadPath_error_or_rooted "/docs/100%")).
    right. right. left. reflexivity.
  - destruct (proj2 (getDownloadPath_error_or_rooted "/docs/a%20b")
                    "downloads/docs/a b" eq_refl) as [H|H];
      [discriminate H | exact H].
Defined.

Lemma getDownloadPath_app a b :
  Paths.getDownloadPath (a ++ String "/" b) =
  match Paths.getDownloadPath_loop (Go.Split a "/") ["downloads"] with
  | None => None
  | Some parts =>
      match Paths.getDownloadPath_loop (Go.Split b "/") parts with
      | None => None
      | Some parts' => Some (Go.Join parts' "/")
      end
  end.
Proof.
  unfold Paths.getDownloadPath. rewrite Split_app, getDownloadPath_loop_app.
  now destruct (Paths.getDownloadPath_loop (Go.Split a "/") ["downloads"]).
Qed.

(** X2. Slashes that delimit nothing do not count: a slash in front of
    a path, a slash behind it, and a slash doubled anywhere inside it
    leave the result of [getDownloadPath] as it is. Remote paths that
    differ only so are given the same local path. *)
Theorem getDownloadPath_ignores_empty_components (a b : string) :
  Paths.getDownloadPath (String "/" a) = Paths.getDownloadPath a
  /\ Paths.getDownloadPath (a ++ "/") = Paths.getDownloadPath a
  /\ Paths.getDownloadPath (a ++ String "/" (String "/" b))
     = Paths.getDownloadPath (a ++ String "/" b).
Proof.
  split; [|split].
  - change (String "/" a) with ("" ++ String "/" a).
    rewrite getDownloadPath_app. reflexivity.
  - rewrite getDownloadPath_app. unfold Paths.getDownloadPath.
    destruct (Paths.getDownloadPath_loop (Go.Split a "/") ["downloads"]);
      reflexivity.
  - rewrite !getDownloadPath_app.
    destruct (Paths.getDownloadPath_loop (Go.Split a "/") ["downloads"]) as [parts|];
      [|reflexivity].
    change (String "/" b) with ("" ++ String "/" b).
    rewrite Split_app, getDownloadPath_loop_app. reflexivity.
Qed.

(** *** Plain components *)

Lemma visible_not_space c :
  Plain.visible c = true ->
  Go.asciiSpace c = false
  /\ (forall x, Go.space2 c x = false)
  /\ (forall x y, Go.space3 c x y = false)
  /\ Ascii.eqb c "%" = false.
Proof.
  destruct c as [[] [] [] [] [] [] [] []]; intros H;
    try discriminate H; repeat split; intros; reflexivity.
Qed.

Lemma trim_front_visible fwd s :
  Plain.all_visible s = true -> Go.trim_front fwd s = s.
Proof.
  destruct s as [|c1 r1]; [reflexivity|]. cbn [Plain.all_visible].
  intros H. apply andb_true_iff in H as [H1 Hr1].
  destruct (visible_not_space c1 H1) as (Ha & H2 & H3 & _).
  cbn [Go.trim_front]. rewrite Ha.
  destruct r1 as [|c2 r2]; [reflexivity|].
  cbn [Plain.all_visible] in Hr1. apply andb_true_iff in Hr1 as [H1' Hr2].
  destruct (visible_not_space c2 H1') as (_ & H2' & _ & _).
  destruct fwd.
  - rewrite H2. destruct r2 as [|c3 r3]; [reflexivity|]. now rewrite H3.
  - rewrite H2'. destruct r2 as [|c3 r3]; [reflexivity|].
    cbn [Plain.all_visible] in Hr2. apply andb_true_iff in Hr2 as [H1'' _].
    destruct (visible_not_space c3 H1'') as (_ & _ & H3'' & _).
    now rewrite H3''.
Qed.

Lemma rev_app_rev_app s acc t :
  String.rev_app (String.rev_app s acc) t = String.rev_app acc (s ++ t).
Proof.
  revert acc t. induction s as [|a s IH]; intros acc t; simpl; [reflexivity|].
  now rewrite IH.
Qed.

Lemma rev_rev s : String.rev (String.rev s) = s.
Proof.
  unfold String.rev. rewrite rev_app_rev_app. simpl. apply app_empty_r.
Qed.

Lemma all_visible_rev_app s acc :
  Plain.all_visible (String.rev_app s acc)
  = Plain.all_visible s && Plain.all_visible acc.
Proof.
  revert acc. induction s as [|a s IH]; intros acc; simpl; [reflexivity|].
  rewrite IH. simpl. now rewrite andb_assoc, (andb_comm (Plain.all_visible s)).
Qed.

Lemma TrimSpace_visible s : Plain.all_visible s = true -> Go.TrimSpace s = s.
Proof.
  intros H. unfold Go.TrimSpace.
  rewrite (trim_front_visible true s H), trim_front_visible; [apply rev_rev|].
  unfold String.rev. now rewrite all_visible_rev_app, H.
Qed.

Lemma PathUnescape_visible s :
  Plain.all_visible s = true -> Go.PathUnescape s = Some s.
Proof.
  unfold Go.PathUnescape.
  induction s as [|c rest IH]; [reflexivity|]. cbn [Plain.all_visible].
  intros H. apply andb_true_iff in H as [Hc Hrest].
  destruct (visible_not_space c Hc) as (_ & _ & _ & Hp).
  cbn [Go.unescape]. rewrite Hp, (IH Hrest).
  destruct (Ascii.eqb_spec c "+") as [->|]; reflexivity.
Qed.

Lemma plain_components_kept l :
  Forall (fun c => Plain.component c = true) l ->
  mapM Go.PathUnescape l = Some l
  /\ List.filter (fun c => negb (String.eqb c "")) (List.map Go.TrimSpace l) = l.
Proof.
  induction 1 as [|c l Hc Hl [IHm IHf]]; [split; reflexivity|].
  unfold Plain.component in Hc. apply andb_true_iff in Hc as [Hne Hv].
  split.
  - cbn [mapM]. rewrite (PathUnescape_visible c Hv). cbn. rewrite IHm. reflexivity.
  - cbn [List.map List.filter]. rewrite (TrimSpace_visible c Hv), Hne, IHf.
    reflexivity.
Qed.

(** X3. A path whose components (between slashes) are all non-empty
    and made of visible ASCII bytes other than [%] is given the local
    path [downloads/] followed by the path itself: nothing is decoded,
    trimmed or dropped. *)
Theorem getDownloadPath_plain (entryPath : string) :
  Forall (fun c => Plain.component c = true) (Go.Split entryPath "/") ->
  Paths.getDownloadPath entryPath = Some ("downloads/" ++ entryPath).
Proof.
  intros H. unfold Paths.getDownloadPath. rewrite getDownloadPath_loop_spec.
  destruct (plain_components_kept _ H) as [-> ->].
  f_equal. change (["downloads"] ++ Go.Split entryPath "/")%list
    with ("downloads" :: Go.Split entryPath "/").
  destruct (Go.Split entryPath "/") as [|y ys] eqn:E;
    [now destruct (Split_not_nil entryPath "/")|].
  rewrite Join_cons, <- E, Join_Split. reflexivity.
Qed.

(** X3 at [docs/sub/a.txt]. *)
Lemma getDownloadPath_plain_witness :
  Go.Split "docs/sub/a.txt" "/" = ["docs"; "sub"; "a.txt"]
  /\ Paths.getDownloadPath "docs/sub/a.txt" = Some "downloads/docs/sub/a.txt".
Proof.
  split; [reflexivity|].
  apply (getDownloadPath_plain "docs/sub/a.txt").
  repeat (constructor; [reflexivity|]). constructor.
Defined.

(** ** part_001: the URL of an entry and its local path *)

Lemma ParseEntry_001_url tp baseUrl node f :
  Html.accepted tp Html.GetEntrySize_001 node = Some f ->
  Html.entryPath f <> "" ->
  Html.ParseEntry_001 tp baseUrl node
  = Calls (match Html.entryType f with
           | Html.FolderEntry => Crawl (baseUrl ++ without_leading_slash (Html.entryPath f))
           | _ => Save (baseUrl ++ without_leading_slash (Html.entryPath f))
                       (Html.entrySize f)
           end).
Proof.
  unfold Html.accepted, Html.ParseEntry_001.
  destruct (Html.rowFields tp Html.GetEntrySize_001 node) as [f'|]; [|discriminate].
  destruct (Html.entryPath f) as [|c rest] eqn:Hp; [congruence|]. intros Hacc _.
  assert (f' = f) as -> by (destruct (Html.entryType f'); congruence).
  rewrite Hp. cbn [Go.index String.get without_leading_slash].
  replace (String.substring 1 (Go.len (String c rest) - 1) (String c rest)) with rest.
  - destruct (Html.entryType f); try discriminate;
      destruct (Ascii.eqb c "/"); reflexivity.
  - simpl. rewrite Nat.sub_0_r. symmetry. apply substring_all.
Qed.

(** X4. part_001, with a base URL of exactly 25 bytes: a file row that
    passed the parser's type check and has a non-empty href is
    dispatched under the URL made of the base URL and the href without
    its leading slash, and [downloadUrl] derives its local path from
    the href alone: [downloads/] followed by the href, query-unescaped
    ([EscapeError] when it does not unescape). *)
Theorem part_001_local_path_of_href (time_Parse_ok : string -> bool)
    (baseUrl : string) (node : option Html.Node) (f : Html.Fields) :
  Go.len baseUrl = 25%nat ->
  Html.accepted time_Parse_ok Html.GetEntrySize_001 node = Some f ->
  Html.entryType f = Html.FileEntry ->
  Html.entryPath f <> "" ->
  let href := without_leading_slash (Html.entryPath f) in
  Html.ParseEntry_001 time_Parse_ok baseUrl node
    = Calls (Save (baseUrl ++ href) (Html.entrySize f))
  /\ Paths.fileName_001 (baseUrl ++ href)
     = match Go.QueryUnescape href with
       | None => Paths.EscapeError
       | Some decoded => Paths.LocalPath ("downloads/" ++ decoded)
       end.
Proof.
  intros Hlen Hacc Ht Hne. cbn zeta. split.
  - rewrite (ParseEntry_001_url _ _ _ _ Hacc Hne), Ht. reflexivity.
  - unfold Paths.fileName_001. rewrite <- Hlen, slice_from_app. reflexivity.
Qed.

(** X4 under the base URL [http://example.com/files/]. *)
Lemma part_001_local_path_of_href_witness :
  Go.len "http://example.com/files/" = 25%nat
  /\ Html.ParseEntry_001 Fixtures.no_dates "http://example.com/files/"
       (Some (Fixtures.row [Fixtures.icon_cell "file";
                            Fixtures.name_cell "/docs/a+b%21.txt" "a b!.txt";
                            Fixtures.size_cell "3 KB"]))
     = Calls (Save "http://example.com/files/docs/a+b%21.txt" 3)
  /\ Paths.fileName_001 "http://example.com/files/docs/a+b%21.txt"
     = Paths.LocalPath "downloads/docs/a b!.txt".
Proof.
  split; [reflexivity|].
  exact (part_001_local_path_of_href Fixtures.no_dates "http://example.com/files/"
           (Some (Fixtures.row [Fixtures.icon_cell "file";
                                Fixtures.name_cell "/docs/a+b%21.txt" "a b!.txt";
                                Fixtures.size_cell "3 KB"]))
           {| Html.entryType := Html.FileEntry;
              Html.entryPath := "/docs/a+b%21.txt"; Html.entrySize := 3 |}
           eq_refl eq_refl eq_refl ltac:(discriminate)).
Defined.

(** ** part_001: the start of [main] *)

Lemma HasSuffix_app_slash s : Go.HasSuffix (s ++ "/") "/" = true.
Proof.
  unfold Go.HasSuffix. rewrite len_app. cbn [Go.len String.length].
  replace (Go.len s + 1 - 1)%nat with (Go.len s) by lia.
  rewrite substring_skip. cbn.
  destruct (Go.len s + 1)%nat eqn:E; [lia|]. reflexivity.
Qed.

Lemma HasSuffix_char s c d :
  Go.index s (Go.len s - 1) = Some c -> Go.HasSuffix s (String d "") = Ascii.eqb c d.
Proof.
  unfold Go.HasSuffix, Go.index. cbn [Go.len String.length].
  induction s as [|a s IH]; [discriminate|].
  cbn [Go.len String.length]. rewrite Nat.sub_succ, Nat.sub_0_r.
  destruct s as [|b s'].
  - cbn. intros [= ->]. now destruct (Ascii.eqb c d).
  - cbn [Go.len String.length] in *. rewrite Nat.sub_succ, Nat.sub_0_r in IH.
    cbn [String.get]. intros H. specialize (IH H).
    cbn [Nat.leb] in IH |- *.
    cbn [String.substring]. exact IH.
Qed.

Lemma index_last_None s : Go.index s (Go.len s - 1) = None -> s = "".
Proof.
  destruct s as [|c r]; [reflexivity|]. intros Hi. exfalso.
  unfold Go.index in Hi. cbn [Go.len String.length] in Hi.
  rewrite Nat.sub_succ, Nat.sub_0_r in Hi.
  revert c Hi. induction r as [|d r IH]; intros c Hi; [discriminate|].
  cbn [String.length String.get] in Hi. apply (IH d). exact Hi.
Qed.

(** X5. part_001 [main]: with three arguments of which the first (the
    base URL) is empty, the program panics at [baseUrl[len(baseUrl)-1]],
    before the flag is even parsed, and in no other case. The crawl is
    started exactly when there are three arguments, the base URL is not
    empty, the flag parses and [urls.txt] could be created; and it is
    started on the base URL as given when that ends in [/], and with one
    [/] put behind it when it does not. So the base URL of a crawl
    always ends in [/], and in one more than was given at most. *)
Theorem main_001_base_url (Args : list string) (urls_created : bool) :
  (Startup.main_001 Args urls_created = Startup.IndexPanic <->
   exists a0 a2, Args = [a0; ""; a2])
  /\ (forall baseUrl writeUrlOnly,
        Startup.main_001 Args urls_created = Startup.Run baseUrl writeUrlOnly <->
        exists a0 a1 a2,
          Args = [a0; a1; a2]
          /\ a1 <> ""
          /\ baseUrl = (if Go.HasSuffix a1 "/" then a1 else a1 ++ "/")
          /\ Startup.ParseBool a2 = Some writeUrlOnly
          /\ urls_created = true)
  /\ (forall baseUrl writeUrlOnly,
        Startup.main_001 Args urls_created = Startup.Run baseUrl writeUrlOnly ->
        Go.HasSuffix baseUrl "/" = true).
Proof.
  unfold Startup.main_001.
  destruct Args as [|a0 [|a1 [|a2 [|a3 rest]]]]; cbn [length Nat.eqb negb];
    try (split; [split; [discriminate | intros (x & y & H); discriminate]
                | split; [intros b w; split;
                            [discriminate | intros (x & y & z & H & _); discriminate]
                         | intros b w H; discriminate]]).
  cbn [lookup list_lookup].
  destruct (Go.index a1 (Go.len a1 - 1)) as [last|] eqn:Hi.
  - rewrite <- (HasSuffix_char a1 last "/" Hi).
    assert (Hne : a1 <> "") by (intros ->; discriminate Hi).
    split; [|split].
    + split.
      * destruct (Startup.ParseBool a2); [destruct urls_created|]; discriminate.
      * intros (x & y & [= -> -> ->]). discriminate Hi.
    + intros b w. split.
      * intros H.
        destruct (Startup.ParseBool a2) as [w'|] eqn:Hb; [|discriminate].
        destruct urls_created; [|discriminate]. injection H as <- <-.
        exists a0, a1, a2. repeat split; auto.
        now destruct (Go.HasSuffix a1 "/").
      * intros (x & y & z & [= <- <- <-] & _ & -> & -> & ->).
        now destruct (Go.HasSuffix a1 "/").
    + intros b w H.
      destruct (Startup.ParseBool a2) as [w'|] eqn:Hb; [|discriminate].
      destruct urls_created; [|discriminate]. injection H as <- <-.
      destruct (Go.HasSuffix a1 "/") eqn:Hs; cbn [negb];
        [exact Hs | apply HasSuffix_app_slash].
  - apply index_last_None in Hi as ->.
    split; [|split].
    + split; [|reflexivity]. intros _. now exists a0, a2.
    + intros b w. split; [discriminate|].
      intros (x & y & z & [= <- <- <-] & Hne & _). contradiction.
    + intros b w H. discriminate.
Qed.

(** X5 at a base URL given without its final slash and at one given
    with it: both crawls start on the same URL. *)
Lemma main_001_base_url_witness :
  Startup.main_001 ["h5ai-dl"; "http://example.com/files"; "false"] true
    = Startup.Run "http://example.com/files/" false
  /\ Startup.main_001 ["h5ai-dl"; "http://example.com/files/"; "false"] true
     = Startup.Run "http://example.com/files/" false
  /\ Go.HasSuffix "http://example.com/files/" "/" = true
  /\ Startup.main_001 ["h5ai-dl"; ""; "maybe"] true = Startup.IndexPanic.
Proof.
  split; [|split; [|split]].
  - apply (proj2 (proj1 (proj2 (main_001_base_url
                                  ["h5ai-dl"; "http://example.com/files"; "false"] true))
                        "http://example.com/files/" false)).
    exists "h5ai-dl", "http://example.com/files", "false".
    repeat split; (reflexivity || discriminate).
  - apply (proj2 (proj1 (proj2 (main_001_base_url
                                  ["h5ai-dl"; "http://example.com/files/"; "false"] true))
                        "http://example.com/files/" false)).
    exists "h5ai-dl", "http://example.com/files/", "false".
    repeat split; (reflexivity || discriminate).
  - exact (proj2 (proj2 (main_001_base_url
                           ["h5ai-dl"; "http://example.com/files"; "false"] true))
                 "http://example.com/files/" false eq_refl).
  - reflexivity.
Defined.

(** ** [downloadUrl] and [saveContent]: what else they do and do not *)

Ltac unfold_dl :=
  unfold download, mbind, M_bind, mret, M_ret, os_MkdirAll, GetFileSize,
         Printf, emit, os_Remove, http_Get_, os_Create;
  cbn [value world events negb andb fmap option_fmap option_map app
       files urlFile].

Lemma copy_frame env tag fileName reads :
  forall buffer last w,
    urlFile (world (copy env tag fileName buffer reads last w)) = urlFile w
    /\ (forall other, other <> fileName ->
        files (world (copy env tag fileName buffer reads last w)) !! other
        = files w !! other).
Proof.
  induction reads as [|data rest IH]; intros buffer last w.
  - destruct last as [d [|]]; simpl; [split; auto|].
    destruct (os_Remove_ok env fileName true); cbn [files urlFile]; split; auto.
    intros other Hne. now rewrite lookup_delete_ne.
  - simpl. unfold mbind, M_bind.
    destruct (negb (Go.len data =? bufferSize)%nat); unfold file_Write;
      destruct (file_Write_ok env fileName _); cbn [value world events];
      try (match goal with
           | |- context [copy env tag fileName ?b rest last ?w0] =>
               destruct (IH b last w0) as [Hu Hf]
           end;
           rewrite Hu; split; [reflexivity|];
           intros other Hne; rewrite (Hf other Hne); cbn [files];
           now rewrite lookup_insert_ne);
      (simpl; destruct (os_Remove_ok env fileName true); cbn [files urlFile];
       split; auto; intros other Hne; now rewrite lookup_delete_ne).
Qed.

(** An operation that leaves the manifest and every file but
    [fileName] as they are. *)
#[local] Abbreviation frames fileName m :=
  (forall w0 : World,
      urlFile (world (m w0)) = urlFile w0
      /\ (forall other : string, other <> fileName ->
          files (world (m w0)) !! other = files w0 !! other)).

Lemma ret_frames {A} fileName (a : A) : frames fileName (mret a : M A).
Proof. intros w0. split; auto. Qed.

Lemma silent_frames {A} fileName (m : M A) :
  (forall w0, world (m w0) = w0) -> frames fileName m.
Proof. intros H w0. rewrite H. split; auto. Qed.

Lemma bind_frames {A B} fileName (m : M A) (f : A -> M B) :
  frames fileName m -> (forall a, frames fileName (f a)) -> frames fileName (m ≫= f).
Proof.
  intros Hm Hf w0. unfold mbind, M_bind. cbn [world].
  destruct (Hm w0) as [Hu1 Hf1].
  destruct (Hf (value (m w0)) (world (m w0))) as [Hu2 Hf2].
  split; [congruence|]. intros other Hne. rewrite Hf2, Hf1; auto.
Qed.

Lemma Remove_frames env fileName opened : frames fileName (os_Remove env fileName opened).
Proof.
  intros w0. unfold os_Remove. cbn [world].
  destruct (os_Remove_ok env fileName opened); cbn [files urlFile]; split; auto.
  intros other Hne. now rewrite lookup_delete_ne.
Qed.

Lemma Create_frames env fileName : frames fileName (os_Create env fileName).
Proof.
  intros w0. unfold os_Create.
  destruct (os_Create_ok env fileName); cbn [world files urlFile]; split; auto.
  intros other Hne. now rewrite lookup_insert_ne.
Qed.

Lemma download_frames env tag fileName entryUrl downloadSize :
  frames fileName (download env tag fileName entryUrl downloadSize).
Proof.
  unfold download.
  apply bind_frames; [now apply silent_frames|]. intros made.
  destruct made; cbn [negb]; [|apply ret_frames].
  apply bind_frames; [now apply silent_frames|]. intros size.
  apply bind_frames.
  { destruct size as [fileSize|]; [|apply ret_frames].
    destruct (fileSize =? downloadSize).
    - apply bind_frames; [now apply silent_frames|]. intros _. apply ret_frames.
    - apply bind_frames; [now apply silent_frames|]. intros _.
      apply bind_frames; [apply Remove_frames|]. intros _. apply ret_frames. }
  intros intact. destruct intact; [apply ret_frames|].
  apply bind_frames; [now apply silent_frames|]. intros _.
  apply bind_frames; [now apply silent_frames|]. intros resp.
  destruct resp as [body|]; [|now apply silent_frames].
  apply bind_frames; [now apply silent_frames|]. intros _.
  apply bind_frames; [apply Create_frames|]. intros created.
  destruct created; cbn [negb].
  - intros w0. apply copy_frame.
  - apply bind_frames; [now apply silent_frames|]. intros _. apply Remove_frames.
Qed.

Lemma download_frame env tag fileName entryUrl downloadSize w :
  urlFile (world (download env tag fileName entryUrl downloadSize w)) = urlFile w
  /\ (forall other, other <> fileName ->
      files (world (download env tag fileName entryUrl downloadSize w)) !! other
      = files w !! other).
Proof. apply download_frames. Qed.



(** When the request fails, or the file cannot be created, [os.Remove]
    on the closed file decides what is left: nothing, or what there
    was. *)
Lemma download_unanswered env tag fileName entryUrl downloadSize w :
  os_MkdirAll_ok env fileName = true ->
  local_differs w fileName downloadSize = true ->
  http_Get env entryUrl = None ->
  files (world (download env tag fileName entryUrl downloadSize w)) !! fileName
  = if os_Remove_ok env fileName false then None else files w !! fileName.
Proof.
  intros Hm Hd Hg. unfold local_differs in Hd. unfold_dl. rewrite Hm. unfold_dl.
  destruct (files w !! fileName) as [c|] eqn:Hl; unfold_dl.
  - destruct (Z.of_nat (Go.len c) =? downloadSize); [discriminate|]. unfold_dl.
    rewrite Hg. unfold_dl.
    destruct (os_Remove_ok env fileName false); cbn [files];
      [apply lookup_delete_eq | exact Hl].
  - rewrite Hg. unfold_dl. now destruct (os_Remove_ok env fileName false).
Qed.

Lemma download_uncreated env tag fileName entryUrl downloadSize w body :
  os_MkdirAll_ok env fileName = true ->
  local_differs w fileName downloadSize = true ->
  http_Get env entryUrl = Some body ->
  os_Create_ok env fileName = false ->
  files (world (download env tag fileName entryUrl downloadSize w)) !! fileName
  = if os_Remove_ok env fileName false then None else files w !! fileName.
Proof.
  intros Hm Hd Hg Hc. unfold local_differs in Hd. unfold_dl. rewrite Hm. unfold_dl.
  destruct (files w !! fileName) as [c|] eqn:Hl; unfold_dl.
  - destruct (Z.of_nat (Go.len c) =? downloadSize); [discriminate|]. unfold_dl.
    rewrite Hg. unfold_dl. rewrite Hc. unfold_dl.
    destruct (os_Remove_ok env fileName false); cbn [files];
      [apply lookup_delete_eq | exact Hl].
  - rewrite Hg. unfold_dl. rewrite Hc. unfold_dl.
    destruct (os_Remove_ok env fileName false); cbn [files];
      [apply lookup_delete_eq | exact Hl].
Qed.

Lemma download_unfetched env tag fileName entryUrl downloadSize w :
  os_MkdirAll_ok env fileName && local_differs w fileName downloadSize = false ->
  world (download env tag fileName entryUrl downloadSize w) = w.
Proof.
  intros H. apply andb_false_iff in H as [H|H].
  - now apply download_unmade.
  - unfold local_differs in H. destruct (files w !! fileName) as [c|] eqn:Hc;
      [|discriminate].
    apply negb_false_iff, Z.eqb_eq in H. eapply download_intact; eauto.
Qed.

(** X7. What [downloadUrl] (main.go, part_000) leaves at the local path
    of an entry, reads handing over at most the 4096 bytes of the
    buffer. Either nothing is fetched, and then the whole local state
    is as before. Or exactly one request is made, for the entry's URL,
    and afterwards the local path holds no file, or it holds exactly
    the bytes of the error-free reads of a stream that ended cleanly.
    Anything else is left there only where a call of [os.Remove], whose
    error the program drops, has failed: what the path held before,
    when the call on the closed file fails; the reads written until the
    stream broke, when the call on the open file fails. *)
Theorem downloadUrl_leaves (env : Env) (nThreads : Z)
    (entryPath fileName : string) (downloadSize : Z) (w : World) :
  Paths.getDownloadPath entryPath = Some fileName ->
  (forall body,
      http_Get env (getDownloadUrl env entryPath) = Some body ->
      Forall (fun c => (Go.len c <= bufferSize)%nat) (chunks body)) ->
  let r := downloadUrl env nThreads entryPath downloadSize w in
  (fetches r = [] /\ world r = w)
  \/ (fetches r = [EGet (getDownloadUrl env entryPath)]
      /\ (files (world r) !! fileName = None
          \/ (exists body,
                 http_Get env (getDownloadUrl env entryPath) = Some body
                 /\ clean env fileName 0 (chunks body) (last_err body) = true
                 /\ files (world r) !! fileName
                    = Some (String.concat "" (chunks body)))
          \/ (os_Remove_ok env fileName false = false
              /\ files (world r) !! fileName = files w !! fileName)
          \/ (os_Remove_ok env fileName true = false
              /\ exists body,
                   http_Get env (getDownloadUrl env entryPath) = Some body
                   /\ clean env fileName 0 (chunks body) (last_err body) = false
                   /\ files (world r) !! fileName
                      = Some (String.concat ""
                                (kept env fileName 0 (chunks body)))))).
Proof.
  intros Hp Hfit. cbn zeta. rewrite downloadUrl_fetches, Hp.
  unfold downloadUrl. rewrite Hp.
  destruct (os_MkdirAll_ok env fileName && local_differs w fileName downloadSize)
    eqn:Hgo.
  - right. split; [reflexivity|].
    apply andb_true_iff in Hgo as [Hm Hd].
    destruct (http_Get env (getDownloadUrl env entryPath)) as [body|] eqn:Hg.
    + destruct (os_Create_ok env fileName) eqn:Hc.
      * rewrite (download_stream env _ _ _ _ _ body Hm Hd Hg Hc (Hfit body eq_refl)).
        destruct (clean env fileName 0 (chunks body) (last_err body)) eqn:Hcl.
        -- right. left. exists body. auto.
        -- destruct (os_Remove_ok env fileName true) eqn:Hr; [now left|].
           right. right. right. split; [reflexivity|]. exists body. auto.
      * rewrite (download_uncreated env _ _ _ _ _ body Hm Hd Hg Hc).
        destruct (os_Remove_ok env fileName false) eqn:Hr; [now left|].
        right. right. left. auto.
    + rewrite (download_unanswered env _ _ _ _ _ Hm Hd Hg).
      destruct (os_Remove_ok env fileName false) eqn:Hr; [now left|].
      right. right. left. auto.
  - left. split; [reflexivity|]. now apply download_unfetched.
Qed.

(** X7 on a damaged copy and a host that does not answer: where
    [os.Remove] works the copy is gone. And on a stream that breaks
    where an open file cannot be deleted: the three bytes written
    stay. *)
Lemma downloadUrl_leaves_witness :
  files Fixtures.disk_with_copy !! "downloads/a.txt" = Some "hello"
  /\ fetches (downloadUrl Fixtures.host 1 "/a.txt" 9 Fixtures.disk_with_copy)
     = [EGet "http://h/a.txt"]
  /\ files (world (downloadUrl Fixtures.host 1 "/a.txt" 9 Fixtures.disk_with_copy))
       !! "downloads/a.txt" = None
  /\ fetches (downloadUrl Fixtures.host_on_windows 1 "/d/broken" 9 Fixtures.empty_disk)
     = [EGet "http://h/d/broken"]
  /\ files (world (downloadUrl Fixtures.host_on_windows 1 "/d/broken" 9
                     Fixtures.empty_disk))
       !! "downloads/d/broken" = Some "abc".
Proof.
  split; [reflexivity|].
  destruct (downloadUrl_leaves Fixtures.host 1 "/a.txt"
              "downloads/a.txt" 9 Fixtures.disk_with_copy eq_refl
              (fun body => host_reads_fit "http://h/a.txt" body))
    as [[H _] | [H _]]; [discriminate H|].
  split; [exact H|]. split; [reflexivity|].
  destruct (downloadUrl_leaves Fixtures.host_on_windows 1 "/d/broken"
              "downloads/d/broken" 9 Fixtures.empty_disk eq_refl
              (fun body => host_reads_fit "http://h/d/broken" body))
    as [[H' _] | [H' _]]; [discriminate H'|].
  split; [exact H' | reflexivity].
Defined.

(** X8. Resuming. When a download ran through cleanly and the bytes it
    wrote number exactly the entry's size, calling [downloadUrl] for
    the entry again fetches nothing and leaves the local state as it
    is. *)
Theorem downloadUrl_again_is_intact (env : Env) (nThreads nThreads' : Z)
    (entryPath fileName : string) (downloadSize : Z) (w : World) (body : Body) :
  Paths.getDownloadPath entryPath = Some fileName ->
  os_MkdirAll_ok env fileName = true ->
  local_differs w fileName downloadSize = true ->
  http_Get env (getDownloadUrl env entryPath) = Some body ->
  os_Create_ok env fileName = true ->
  Forall (fun c => (Go.len c <= bufferSize)%nat) (chunks body) ->
  clean env fileName 0 (chunks body) (last_err body) = true ->
  Z.of_nat (Go.len (String.concat "" (chunks body))) = downloadSize ->
  let w1 := world (downloadUrl env nThreads entryPath downloadSize w) in
  fetches (downloadUrl env nThreads' entryPath downloadSize w1) = []
  /\ world (downloadUrl env nThreads' entryPath downloadSize w1) = w1.
Proof.
  intros Hp Hm Hd Hg Hc Hall Hcl Hsize. cbn zeta.
  pose proof (downloadUrl_stream env nThreads _ _ _ _ _ Hp Hm Hd Hg Hc Hall) as Hf.
  rewrite Hcl in Hf.
  set (w1 := world (downloadUrl env nThreads entryPath downloadSize w)) in *.
  assert (Hsame : local_differs w1 fileName downloadSize = false).
  { unfold local_differs. rewrite Hf. apply Z.eqb_eq in Hsize. now rewrite Hsize. }
  split.
  - rewrite downloadUrl_fetches, Hp, Hsame, andb_false_r. reflexivity.
  - unfold downloadUrl. rewrite Hp. apply download_unfetched.
    now rewrite Hsame, andb_false_r.
Qed.

Lemma tidy_reads_fit :
  Forall (fun c => (Go.len c <= bufferSize)%nat) ["abc"; "de"].
Proof. repeat (constructor; [apply Nat.leb_le; vm_compute; reflexivity|]). constructor. Qed.

(** X8 on [/d/g], five bytes that arrive before a bare [io.EOF]. *)
Lemma downloadUrl_again_is_intact_witness :
  files (world (downloadUrl Hosts.tidy 1 "/d/g" 5 Fixtures.empty_disk))
    !! "downloads/d/g" = Some "abcde"
  /\ fetches (downloadUrl Hosts.tidy 2 "/d/g" 5
                (world (downloadUrl Hosts.tidy 1 "/d/g" 5 Fixtures.empty_disk))) = []
  /\ world (downloadUrl Hosts.tidy 2 "/d/g" 5
              (world (downloadUrl Hosts.tidy 1 "/d/g" 5 Fixtures.empty_disk)))
     = world (downloadUrl Hosts.tidy 1 "/d/g" 5 Fixtures.empty_disk).
Proof.
  split; [reflexivity|].
  exact (downloadUrl_again_is_intact Hosts.tidy 1 2 "/d/g" "downloads/d/g" 5
           Fixtures.empty_disk
           {| chunks := ["abc"; "de"]; last_data := ""; last_err := io_EOF |}
           eq_refl eq_refl eq_refl eq_refl eq_refl tidy_reads_fit eq_refl eq_refl).
Defined.

(** X9. Never resumed. Where the host hands over the last bytes of a
    body together with [io.EOF], the listing reports the body's true
    size and nothing fails on the local side, every run fetches the
    file again: after any number of runs the local copy is still not of
    the entry's size, and the next [downloadUrl] issues the request
    once more. *)
Theorem fetched_again_on_every_run (env : Env) (nThreads : Z)
    (entryPath fileName : string) (downloadSize : Z) (w : World) (body : Body)
    (k : nat) :
  Paths.getDownloadPath entryPath = Some fileName ->
  os_MkdirAll_ok env fileName = true ->
  os_Create_ok env fileName = true ->
  (forall n, file_Write_ok env fileName n = true) ->
  http_Get env (getDownloadUrl env entryPath) = Some body ->
  Forall (fun c => (Go.len c <= bufferSize)%nat) (chunks body) ->
  last_err body = io_EOF ->
  last_data body <> "" ->
  Z.of_nat (Go.len (content body)) = downloadSize ->
  local_differs w fileName downloadSize = true ->
  fetches (downloadUrl env nThreads entryPath downloadSize
             (Again.rerun env nThreads entryPath downloadSize k w))
  = [EGet (getDownloadUrl env entryPath)].
Proof.
  intros Hp Hm Hc Hw Hg Hall He Hne Hsize Hd.
  assert (Hwrites : forall n reads, writes_ok env fileName n reads = true).
  { intros n reads. revert n. induction reads as [|d rest IH]; intros n;
      [reflexivity|]. cbn [writes_ok]. now rewrite Hw, IH. }
  assert (Hinv : local_differs (Again.rerun env nThreads entryPath downloadSize k w)
                               fileName downloadSize = true).
  { induction k as [|k IH]; [exact Hd|]. cbn [Again.rerun].
    unfold local_differs at 1.
    rewrite (downloadUrl_stream env nThreads _ _ _ _ _ Hp Hm IH Hg Hc Hall).
    unfold clean. rewrite Hwrites, He. cbn [andb].
    apply negb_true_iff, Z.eqb_neq. rewrite <- Hsize. unfold content.
    rewrite len_app. intros Heq.
    apply Hne, len_zero_iff. lia. }
  rewrite downloadUrl_fetches, Hp, Hm, Hinv. reflexivity.
Qed.

(** X9 on [/d/f] of [Fixtures.host], six bytes of which the last
    arrives with [io.EOF]: the third run fetches as the first did. *)
Lemma fetched_again_on_every_run_witness :
  fetches (downloadUrl Fixtures.host 1 "/d/f" 6
             (Again.rerun Fixtures.host 1 "/d/f" 6 2 Fixtures.empty_disk))
  = [EGet "http://h/d/f"]
  /\ files (Again.rerun Fixtures.host 1 "/d/f" 6 2 Fixtures.empty_disk)
       !! "downloads/d/f" = Some "abcde".
Proof.
  split; [|vm_compute; reflexivity].
  exact (fetched_again_on_every_run Fixtures.host 1 "/d/f" "downloads/d/f" 6
           Fixtures.empty_disk
           {| chunks := ["abc"; "de"]; last_data := "f"; last_err := io_EOF |} 2
           eq_refl eq_refl eq_refl (fun _ => eq_refl) eq_refl
           (host_reads_fit "http://h/d/f" _ eq_refl) eq_refl
           ltac:(discriminate) eq_refl eq_refl).
Defined.

(** ** main.go [crawlDirectory]: what is dispatched, and how *)

Lemma reached_map_visit_filter entryPath entries :
  Crawl.reached (List.map (Crawl.visit entryPath) entries)
  = List.map Listing.work_of
             (List.filter (Listing.proper_descendant entryPath) entries).
Proof.
  induction entries as [|entry rest IH]; [reflexivity|].
  cbn [List.map List.filter]. unfold Crawl.visit at 1, Listing.proper_descendant at 1.
  destruct (String.eqb entryPath (Crawl.Path entry)); cbn [negb orb andb];
    [exact IH|].
  destruct (Go.HasPrefix (Crawl.Path entry) entryPath); cbn [negb];
    [|exact IH].
  cbn [List.map]. unfold Listing.work_of at 1.
  destruct (Go.HasSuffix (Crawl.Path entry) "/"); cbn [Crawl.reached]; now rewrite IH.
Qed.

(** X10. main.go [crawlDirectory] makes one call for every listed entry
    whose path extends the directory's path properly, in the order of
    the listing (an entry listed twice is dispatched twice), and no
    other call; a listing that fails dispatches nothing. *)
Theorem crawlDirectory_dispatches_each_descendant_once
    (getFileIndex : string -> option (list Crawl.FileEntry)) (entryPath : string) :
  Crawl.reached (Crawl.crawlDirectory getFileIndex entryPath)
  = match getFileIndex entryPath with
    | Some fileEntries =>
        List.map Listing.work_of
                 (List.filter (Listing.proper_descendant entryPath) fileEntries)
    | None => []
    end.
Proof.
  unfold Crawl.crawlDirectory. destruct (getFileIndex entryPath); [|reflexivity].
  apply reached_map_visit_filter.
Qed.

Lemma proper_longer s p :
  Go.HasPrefix s p = true -> s <> p -> (Go.len p < Go.len s)%nat.
Proof.
  intros Hp Hne. apply HasPrefix_split in Hp as [t ->].
  rewrite len_app. destruct t as [|c t]; [|simpl; lia].
  exfalso. apply Hne. apply app_empty_r.
Qed.

(** X11. Every call main.go [crawlDirectory] makes is for a path
    strictly longer than the directory's own. It is a crawl exactly
    when the path ends in [/], and a download, with the listed size,
    otherwise. *)
Theorem crawlDirectory_descends
    (getFileIndex : string -> option (list Crawl.FileEntry)) (entryPath : string) :
  Forall (fun w =>
            (Go.len entryPath < Go.len (work_path w))%nat
            /\ match w with
               | Crawl p => Go.HasSuffix p "/" = true
               | Save p size =>
                   Go.HasSuffix p "/" = false
                   /\ exists fileEntries entry,
                        getFileIndex entryPath = Some fileEntries
                        /\ In entry fileEntries
                        /\ Crawl.Path entry = p /\ Crawl.Size entry = size
               end)
         (Crawl.reached (Crawl.crawlDirectory getFileIndex entryPath)).
Proof.
  unfold Crawl.crawlDirectory.
  destruct (getFileIndex entryPath) as [fileEntries|]; [|constructor].
  rewrite reached_map_visit_filter.
  apply List.Forall_forall. intros w Hin.
  apply List.in_map_iff in Hin as (entry & <- & Hin).
  apply List.filter_In in Hin as [Hin Hpd].
  unfold Listing.proper_descendant in Hpd.
  apply andb_true_iff in Hpd as [Hne Hp].
  apply negb_true_iff in Hne.
  destruct (String.eqb_spec entryPath (Crawl.Path entry)) as [|Hne']; [discriminate|].
  unfold Listing.work_of.
  destruct (Go.HasSuffix (Crawl.Path entry) "/") eqn:Hs; cbn [work_path]; split;
    try (apply proper_longer; congruence); auto.
  split; [exact Hs|]. exists fileEntries, entry. auto.
Qed.

(** ** The HTML listers: pages, rows and cells *)

Lemma walk_no_tbody ParseEntry :
  forall node, Listing.has_tbody node = false -> Html.walk ParseEntry node = [].
Proof.
  fix IH 1. intros [t d a cs]. cbn [Listing.has_tbody Html.walk].
  intros H. apply orb_false_iff in H as [H1 H2]. rewrite H1. cbn [app].
  induction cs as [|c cs IHcs]; [reflexivity|].
  cbn [existsb] in H2. apply orb_false_iff in H2 as [Hc Hcs].
  cbn [List.flat_map]. rewrite (IH c Hc). cbn [app]. exact (IHcs Hcs).
Qed.

(** X12. part_000 and part_001 [crawlDirectory]: a page that holds no
    [tbody] element (an error page, a listing rendered otherwise)
    dispatches nothing at all, and so does a page that could not be
    fetched or parsed. *)
Theorem page_without_tbody_dispatches_nothing
    (ParseEntry : option Html.Node -> Dispatch)
    (fetch : string -> option Html.Node) (url : string) :
  match fetch url with
  | Some doc => Listing.has_tbody doc = false
  | None => True
  end ->
  Crawl.crawlDirectory_html ParseEntry fetch url = [].
Proof.
  unfold Crawl.crawlDirectory_html. destruct (fetch url) as [doc|]; [|reflexivity].
  apply walk_no_tbody.
Qed.

(** X12 on a page whose table has rows and no body. *)
Lemma page_without_tbody_dispatches_nothing_witness :
  Crawl.crawlDirectory_html (Html.ParseEntry_000 Fixtures.no_dates)
    (fun _ => Some (Html.mkNode Html.DocumentNode "" []
                      [Fixtures.element "table" [] [Fixtures.echo_row]]))
    "/docs/" = [].
Proof.
  exact (page_without_tbody_dispatches_nothing _
           (fun _ => Some (Html.mkNode Html.DocumentNode "" []
                             [Fixtures.element "table" [] [Fixtures.echo_row]]))
           "/docs/" eq_refl).
Defined.

(** A field of the row keeps its initial value when no cell of its
    class is there. *)
Lemma parseCells_keeps_field tp GetEntrySize tds :
  forall f f',
    Html.parseCells tp GetEntrySize tds f = Some f' ->
    (existsb (fun tdNode =>
                match Html.getAttribute (Some tdNode) "class" with
                | Some classAttr => String.eqb (Html.Val classAttr) "fb-i"
                | None => false
                end) tds = false ->
     Html.entryType f' = Html.entryType f)
    /\ (existsb (fun tdNode =>
                   match Html.getAttribute (Some tdNode) "class" with
                   | Some classAttr => String.eqb (Html.Val classAttr) "fb-n"
                   | None => false
                   end) tds = false ->
        Html.entryPath f' = Html.entryPath f).
Proof.
  induction tds as [|td rest IH]; intros f f' Hp;
    cbn [existsb Html.parseCells] in *.
  - injection Hp as <-. auto.
  - destruct (Html.parseCell tp GetEntrySize td f) as [f1|] eqn:Hc; [|discriminate].
    destruct (IH f1 f' Hp) as [IHt IHn].
    unfold Html.parseCell in Hc.
    destruct (Html.getAttribute (Some td) "class") as [a|] eqn:Ha; [|discriminate].
    destruct (String.eqb (Html.Val a) "fb-i") eqn:Ei.
    { apply String.eqb_eq in Ei.
      destruct (Html.GetEntryType (Some td)) as [[|] t]; [|discriminate].
      injection Hc as <-. split.
      - cbn [orb]. discriminate.
      - intros H. apply orb_false_iff in H as [_ H].
        rewrite (IHn H). reflexivity. }
    destruct (String.eqb (Html.Val a) "fb-n") eqn:En.
    { destruct (Html.GetEntryPath (Some td)) as [[|] p]; [|discriminate].
      injection Hc as <-. split.
      - intros H. apply orb_false_iff in H as [_ H].
        rewrite (IHt H). reflexivity.
      - cbn [orb]. discriminate. }
    assert (Hsame : Html.entryType f1 = Html.entryType f
                    /\ Html.entryPath f1 = Html.entryPath f).
    { destruct (String.eqb (Html.Val a) "fb-d").
      - destruct (Html.GetEntryTime tp (Some td)); [|discriminate].
        now injection Hc as <-.
      - destruct (String.eqb (Html.Val a) "fb-s"); [|discriminate].
        destruct (GetEntrySize (Some td)) as [[|] z]; [|discriminate].
        now injection Hc as <-. }
    destruct Hsame as [Ht Hn]. cbn [orb]. split; intros H.
    + rewrite (IHt H). exact Ht.
    + rewrite (IHn H). exact Hn.
Qed.

(** X13. A row the cell loop ran through, but which lacks a cell:
    without an icon cell it is passed over by both parsers; with an
    accepted type and without a name cell, part_000 dispatches it with
    the empty path (a crawl or a download of [""]), and part_001
    panics at [entryPath[0]]. *)
Theorem row_with_missing_cell (time_Parse_ok : string -> bool) (baseUrl : string)
    (node : option Html.Node) :
  (Listing.has_cell "fb-i" node = false ->
   Html.ParseEntry_000 time_Parse_ok node = Skips
   /\ Html.ParseEntry_001 time_Parse_ok baseUrl node = Skips)
  /\ (Listing.has_cell "fb-n" node = false ->
      (forall f,
          Html.accepted time_Parse_ok Html.GetEntrySize_000 node = Some f ->
          Html.ParseEntry_000 time_Parse_ok node
          = Calls (match Html.entryType f with
                   | Html.FolderEntry => Crawl ""
                   | _ => Save "" (Html.entrySize f)
                   end))
      /\ (forall f,
             Html.accepted time_Parse_ok Html.GetEntrySize_001 node = Some f ->
             Html.ParseEntry_001 time_Parse_ok baseUrl node = Panics)).
Proof.
  unfold Listing.has_cell, Html.ParseEntry_000, Html.ParseEntry_001, Html.accepted,
    Html.rowFields.
  destruct node as [n|]; [|split; intros _; [auto | split; intros f H; discriminate]].
  split.
  - intros Hno. split.
    + destruct (Html.parseCells time_Parse_ok Html.GetEntrySize_000
                  (Html.getSubNodes (Some n) "td") Html.Fields0) as [f|] eqn:Hp;
        [|reflexivity].
      destruct (parseCells_keeps_field _ _ _ _ _ Hp) as [Ht _].
      rewrite (Ht Hno). reflexivity.
    + destruct (Html.parseCells time_Parse_ok Html.GetEntrySize_001
                  (Html.getSubNodes (Some n) "td") Html.Fields0) as [f|] eqn:Hp;
        [|reflexivity].
      destruct (parseCells_keeps_field _ _ _ _ _ Hp) as [Ht _].
      rewrite (Ht Hno). reflexivity.
  - intros Hno. split; intros f.
    + destruct (Html.parseCells time_Parse_ok Html.GetEntrySize_000
                  (Html.getSubNodes (Some n) "td") Html.Fields0) as [f'|] eqn:Hp;
        [|discriminate].
      destruct (parseCells_keeps_field _ _ _ _ _ Hp) as [_ Hn].
      rewrite (Hn Hno). cbn [Html.entryPath Html.Fields0].
      destruct (Html.entryType f') eqn:Ht; intros [= <-]; rewrite Ht; reflexivity.
    + destruct (Html.parseCells time_Parse_ok Html.GetEntrySize_001
                  (Html.getSubNodes (Some n) "td") Html.Fields0) as [f'|] eqn:Hp;
        [|discriminate].
      destruct (parseCells_keeps_field _ _ _ _ _ Hp) as [_ Hn].
      rewrite (Hn Hno). cbn [Html.entryPath Html.Fields0].
      destruct (Html.entryType f') eqn:Ht; intros [= <-]; reflexivity.
Qed.

(** X13 on a folder row that has only its icon. *)
Lemma row_with_missing_cell_witness :
  Listing.has_cell "fb-n" (Some (Fixtures.row [Fixtures.icon_cell "folder"])) = false
  /\ Html.ParseEntry_000 Fixtures.no_dates
       (Some (Fixtures.row [Fixtures.icon_cell "folder"])) = Calls (Crawl "")
  /\ Html.ParseEntry_001 Fixtures.no_dates "http://h/"
       (Some (Fixtures.row [Fixtures.icon_cell "folder"])) = Panics.
Proof.
  split; [reflexivity|].
  pose proof (proj2 (row_with_missing_cell Fixtures.no_dates "http://h/"
                       (Some (Fixtures.row [Fixtures.icon_cell "folder"])))
                    eq_refl) as [H0 H1].
  split.
  - exact (H0 {| Html.entryType := Html.FolderEntry; Html.entryPath := "";
                 Html.entrySize := 0 |} eq_refl).
  - exact (H1 {| Html.entryType := Html.FolderEntry; Html.entryPath := "";
                 Html.entrySize := 0 |} eq_refl).
Defined.

(** X14. The two HTML variants read a size cell differently. Whatever
    part_001 accepts (a number with the suffix [KB], kept as it
    stands), part_000 accepts too and reports as 1000 times as much, in
    [int64]. A cell that part_000 accepts and part_001 refuses is a
    bare number, which part_000 reports as it stands. *)
Theorem size_cell_units (node : option Html.Node) (z : Z) :
  (Html.GetEntrySize_001 node = (true, z) ->
   Html.GetEntrySize_000 node = (true, Go.wrap64 (z * 1000))
   /\ (Go.is_int64 (z * 1000) -> Html.GetEntrySize_000 node = (true, z * 1000)))
  /\ (Html.GetEntrySize_000 node = (true, z) ->
      fst (Html.GetEntrySize_001 node) = false ->
      exists n c, node = Some n /\ Html.FirstChild n = Some c
                  /\ Go.HasSuffix (Html.Data c) " KB" = false
                  /\ Go.ParseInt (Html.Data c) = Some z).
Proof.
  unfold Html.GetEntrySize_000, Html.GetEntrySize_001.
  destruct node as [n|]; [|split; intros H; discriminate].
  destruct (Html.FirstChild n) as [c|] eqn:Hfc; [|split; intros H; discriminate].
  destruct (Go.HasSuffix (Html.Data c) " KB") eqn:Hs; cbn [negb].
  - destruct (Go.ParseInt (String.substring 0 (Go.len (Html.Data c) - 3) (Html.Data c)))
      as [i|]; split; try discriminate.
    intros [= <-]. split; [reflexivity|].
    intros Hr. now rewrite (wrap64_small _ Hr).
  - split; [discriminate|].
    destruct (Go.ParseInt (Html.Data c)) as [i|] eqn:Hi; [|discriminate].
    intros [= <-] _. exists n, c. repeat split; assumption.
Qed.

(** X14 on the cell [12 KB]. *)
Lemma size_cell_units_witness :
  Html.GetEntrySize_001 (Some (Fixtures.size_cell "12 KB")) = (true, 12)
  /\ Html.GetEntrySize_000 (Some (Fixtures.size_cell "12 KB")) = (true, 12000).
Proof.
  split; [reflexivity|].
  exact (proj1 (proj1 (size_cell_units (Some (Fixtures.size_cell "12 KB")) 12)
                      eq_refl)).
Defined.

Lemma parseCell_unknown tp GetEntrySize td f :
  Listing.known_cell td = false -> Html.parseCell tp GetEntrySize td f = None.
Proof.
  unfold Listing.known_cell, Html.parseCell.
  destruct (Html.getAttribute (Some td) "class") as [a|]; [|reflexivity].
  cbn [existsb]. intros H.
  apply orb_false_iff in H as [H1 H]. apply orb_false_iff in H as [H2 H].
  apply orb_false_iff in H as [H3 H]. apply orb_false_iff in H as [H4 _].
  now rewrite H1, H2, H3, H4.
Qed.

Lemma parseCells_unknown tp GetEntrySize tds :
  forall f,
    forallb Listing.known_cell tds = false ->
    Html.parseCells tp GetEntrySize tds f = None.
Proof.
  induction tds as [|td rest IH]; intros f H; [discriminate|].
  cbn [forallb] in H. cbn [Html.parseCells].
  destruct (Listing.known_cell td) eqn:Hk.
  - destruct (Html.parseCell tp GetEntrySize td f); [|reflexivity].
    apply IH. exact H.
  - now rewrite parseCell_unknown.
Qed.

(** X15. One cell the parser does not know (a [td] without a [class]
    attribute, or with a class other than [fb-i], [fb-n], [fb-d],
    [fb-s]) makes both parsers pass over the whole row, whatever its
    other cells say. *)
Theorem row_with_unknown_cell_skipped (time_Parse_ok : string -> bool)
    (baseUrl : string) (node : option Html.Node) :
  forallb Listing.known_cell (Html.getSubNodes node "td") = false ->
  Html.ParseEntry_000 time_Parse_ok node = Skips
  /\ Html.ParseEntry_001 time_Parse_ok baseUrl node = Skips.
Proof.
  intros H. unfold Html.ParseEntry_000, Html.ParseEntry_001, Html.rowFields.
  destruct node as [n|]; [|auto].
  now rewrite !(parseCells_unknown _ _ _ _ H).
Qed.

(** X15 on a file row with one more cell, of class [fb-x]. *)
Lemma row_with_unknown_cell_skipped_witness :
  Html.ParseEntry_000 Fixtures.no_dates
    (Some (Fixtures.row [Fixtures.icon_cell "file"; Fixtures.name_cell "/a" "a";
                         Fixtures.element "td"
                           [{| Html.Key := "class"; Html.Val := "fb-x" |}] []]))
  = Skips
  /\ Html.ParseEntry_000 Fixtures.no_dates
       (Some (Fixtures.row [Fixtures.icon_cell "file"; Fixtures.name_cell "/a" "a"]))
     = Calls (Save "/a" 0).
Proof.
  split; [|reflexivity].
  exact (proj1 (row_with_unknown_cell_skipped Fixtures.no_dates ""
                  (Some (Fixtures.row [Fixtures.icon_cell "file";
                                       Fixtures.name_cell "/a" "a";
                                       Fixtures.element "td"
                                         [{| Html.Key := "class"; Html.Val := "fb-x" |}]
                                         []]))
                  eq_refl)).
Defined.

(** ** The wait group and the shapes of the goroutines *)

Import Pool.

Lemma count_insert (f : list Instr -> bool) (l : list (list Instr)) j g g' :
  l !! j = Some g ->
  Z.of_nat (length (List.filter f (<[j := g']> l)))
  = Z.of_nat (length (List.filter f l)) - Z.b2z (f g) + Z.b2z (f g').
Proof.
  revert j. induction l as [|g0 l IH]; intros [|j] H; simpl in *; try discriminate.
  - injection H as ->. destruct (f g), (f g'); simpl; lia.
  - specialize (IH j H). destruct (f g0); simpl; lia.
Qed.

Lemma count_app (f : list Instr -> bool) (l1 l2 : list (list Instr)) :
  Z.of_nat (length (List.filter f (l1 ++ l2)))
  = Z.of_nat (length (List.filter f l1)) + Z.of_nat (length (List.filter f l2)).
Proof. rewrite List.filter_app, length_app. lia. Qed.

Lemma count_pos (f : list Instr -> bool) (l : list (list Instr)) j g :
  l !! j = Some g -> f g = true -> 1 <= Z.of_nat (length (List.filter f l)).
Proof.
  revert j. induction l as [|g0 l IH]; intros [|j] H Hf; simpl in *; try discriminate.
  - injection H as ->. rewrite Hf. simpl. lia.
  - specialize (IH j H Hf). destruct (f g0); simpl; lia.
Qed.

Lemma count_zero (f : list Instr -> bool) (l : list (list Instr)) :
  Z.of_nat (length (List.filter f l)) = 0 <-> Forall (fun g => f g = false) l.
Proof.
  induction l as [|g l IH]; simpl.
  - split; [constructor|reflexivity].
  - destruct (f g) eqn:Hf; simpl.
    + split; [lia|]. intros H. inversion H; congruence.
    + rewrite IH. split; [now constructor|]. intros H. now inversion H.
Qed.

Lemma lay_out_inline ds : forallb inline (List.flat_map lay_out ds) = true.
Proof.
  induction ds as [|d ds IH]; simpl; [reflexivity|].
  rewrite forallb_app, IH. destruct d; reflexivity.
Qed.

Lemma Main_inv instr k :
  Main (instr :: k) ->
  (inline instr = true /\ exists b, forallb inline b = true /\ k = (b ++ epilogue)%list)
  \/ (instr = ISleep /\ k = [IWgWait; IPrintln "Done!"])
  \/ (instr = IWgWait /\ k = [IPrintln "Done!"])
  \/ (instr = IPrintln "Done!" /\ k = []).
Proof.
  intros H. inversion H as [b Hb Heq| | |]; subst; auto.
  destruct b as [|i b]; simpl in Heq; injection Heq as <- <-; auto.
  simpl in Hb. apply andb_true_iff in Hb as [Hi Hb]. left. eauto.
Qed.

Lemma Spawned_inv instr k :
  Spawned (instr :: k) ->
  (exists w, instr = IWgAdd 1 /\ k = ([IRun w] ++ release)%list)
  \/ (inline instr = true /\ exists b, forallb inline b = true /\ k = (b ++ release)%list)
  \/ (instr = IAddInt64 (-1) /\ k = [IWgDone])
  \/ (instr = IWgDone /\ k = []).
Proof.
  intros H. inversion H as [w|b Hb Heq| |]; subst; eauto.
  destruct b as [|i b]; simpl in Heq; injection Heq as <- <-; auto.
  simpl in Hb. apply andb_true_iff in Hb as [Hi Hb]. right. left. eauto.
Qed.

Lemma Spawned_registered g :
  Spawned g -> registered g = false <-> g = [] \/ exists w, g = f_async w.
Proof.
  intros H. split.
  - destruct H as [w|b Hb| |]; eauto; try discriminate.
    destruct b as [|i b]; [discriminate|]. simpl in Hb.
    destruct i; simpl in *; discriminate.
  - intros [->|[w ->]]; reflexivity.
Qed.

Section PoolFacts.

Variable maxThreads : Z.
Variable crawlDirectory : string -> list Dispatch.
Variable saveContent : Z -> string -> Z -> Download.M Download.Exit.

Abbreviation exec := (Sched.exec maxThreads crawlDirectory saveContent).
Abbreviation run := (Sched.run maxThreads crawlDirectory saveContent).

Lemma exec_head i s s' :
  exec i s = Some s' -> exists instr k, pool s !! i = Some (instr :: k).
Proof.
  unfold Sched.exec. destruct (exited s); [discriminate|].
  destruct (pool s !! i) as [[|instr k]|]; try discriminate. eauto.
Qed.

(** A step of the loop of [crawlDirectory], wherever it runs: it leaves
    steps of the same kind in front of what followed, starts at most one
    goroutine, and leaves the wait group alone. *)
Lemma exec_inline i s s' instr b tl :
  exec i s = Some s' ->
  pool s !! i = Some (instr :: b ++ tl)%list ->
  inline instr = true ->
  forallb inline b = true ->
  exists b' sp,
    forallb inline b' = true
    /\ pool s' = (<[i := (b' ++ tl)%list]> (pool s) ++ sp)%list
    /\ (sp = [] \/ exists w, sp = [f_async w])
    /\ wg s' = wg s.
Proof.
  unfold Sched.exec. intros He Hi Hin Hb. rewrite Hi in He.
  destruct (exited s); [discriminate|].
  destruct instr as [w|n w|delta|[p|p z]|delta| | | |line|]; try discriminate.
  - injection He as <-. exists (IBranch (Go.wrap64 (threads s + 1)) w :: b), [].
    rewrite app_nil_r. cbn. repeat split; auto.
  - destruct (n <=? maxThreads); injection He as <-.
    + exists b, [f_async w]. cbn. repeat split; eauto.
    + exists (IAddInt64 (-1) :: IRun w :: b), []. rewrite app_nil_r. cbn. repeat split; auto.
  - injection He as <-. exists b, []. rewrite app_nil_r. cbn. repeat split; auto.
  - injection He as <-. exists (List.flat_map lay_out (crawlDirectory p) ++ b)%list, [].
    rewrite app_nil_r, forallb_app, lay_out_inline, <- app_assoc. cbn. repeat split; auto.
  - destruct (Download.value _); [|discriminate]. injection He as <-.
    exists b, []. rewrite app_nil_r. cbn. repeat split; auto.
Qed.

Lemma exec_joined i s s' : joined s -> exec i s = Some s' -> joined s'.
Proof.
  intros (m & rest & Hp & Hm & Hr & Hw) He.
  destruct (exec_head _ _ _ He) as (instr & k & Hi).
  pose proof Hi as Hi'. rewrite Hp in Hi'.
  destruct i as [|j]; simpl in Hi'.
  - injection Hi' as ->.
    destruct (Main_inv _ _ Hm) as [(Hin & b & Hb & ->)|[(-> & ->)|[(-> & ->)|(-> & ->)]]].
    + destruct (exec_inline _ _ _ _ _ _ He Hi Hin Hb) as (b' & sp & Hb' & Hp' & Hsp & Hwg).
      exists (b' ++ epilogue)%list, (rest ++ sp)%list.
      rewrite Hp', Hp, Hwg, Hw, count_app. simpl.
      split; [reflexivity|]. split; [now constructor|].
      split.
      * apply Forall_app. split; [exact Hr|].
        destruct Hsp as [->|[w ->]]; repeat constructor.
      * destruct Hsp as [->|[w ->]]; simpl; lia.
    + unfold Sched.exec in He. rewrite Hi in He.
      destruct (exited s); [discriminate|]. injection He as <-.
      exists [IWgWait; IPrintln "Done!"], rest. cbn. rewrite Hp. simpl.
      repeat split; auto. constructor.
    + unfold Sched.exec in He. rewrite Hi in He.
      destruct (exited s); [discriminate|].
      destruct (wg s =? 0); [|discriminate]. injection He as <-.
      exists [IPrintln "Done!"], rest. cbn. rewrite Hp. simpl.
      repeat split; auto. constructor.
    + unfold Sched.exec in He. rewrite Hi in He.
      destruct (exited s); [discriminate|]. injection He as <-.
      exists [], rest. cbn. rewrite Hp. simpl.
      repeat split; auto. constructor.
  - pose proof (Forall_lookup_1 _ _ _ _ Hr Hi') as Hs.
    destruct (Spawned_inv _ _ Hs)
      as [(w & -> & ->)|[(Hin & b & Hb & ->)|[(-> & ->)|(-> & ->)]]].
    + unfold Sched.exec in He. rewrite Hi in He.
      destruct (exited s); [discriminate|].
      destruct (wg s + 1 <? 0); [discriminate|]. injection He as <-.
      exists m, (<[j := ([IRun w] ++ release)%list]> rest). cbn. rewrite Hp. simpl.
      split; [reflexivity|]. split; [exact Hm|]. split.
      * apply Forall_insert; [exact Hr|]. exact (working [IRun w] eq_refl).
      * rewrite (count_insert _ _ _ _ _ Hi'), Hw. simpl. lia.
    + destruct (exec_inline _ _ _ _ _ _ He Hi Hin Hb) as (b' & sp & Hb' & Hp' & Hsp & Hwg).
      exists m, (<[j := (b' ++ release)%list]> rest ++ sp)%list.
      rewrite Hp', Hp, Hwg, Hw, count_app, (count_insert _ _ _ _ _ Hi'). simpl.
      split; [reflexivity|]. split; [exact Hm|]. split.
      * apply Forall_app. split.
        -- apply Forall_insert; [exact Hr|]. now apply working.
        -- destruct Hsp as [->|[w ->]]; repeat constructor.
      * assert (Hreg : forall i0, inline i0 = true ->
                  match i0 with IWgAdd _ => false | _ => true end = true)
          by (intros [] ?; (discriminate || reflexivity)).
        assert (Hreg' : registered (b' ++ release) = true).
        { destruct b' as [|i0 b0]; [reflexivity|]. simpl in Hb'.
          apply andb_true_iff in Hb' as [Hi0 _]. exact (Hreg _ Hi0). }
        rewrite (Hreg instr Hin), Hreg'.
        destruct Hsp as [->|[w ->]]; simpl; lia.
    + unfold Sched.exec in He. rewrite Hi in He.
      destruct (exited s); [discriminate|]. injection He as <-.
      exists m, (<[j := [IWgDone]]> rest). cbn. rewrite Hp. simpl.
      split; [reflexivity|]. split; [exact Hm|]. split.
      * apply Forall_insert; [exact Hr|]. constructor.
      * rewrite (count_insert _ _ _ _ _ Hi'), Hw. simpl. lia.
    + unfold Sched.exec in He. rewrite Hi in He.
      destruct (exited s); [discriminate|].
      destruct (wg s - 1 <? 0); [discriminate|]. injection He as <-.
      exists m, (<[j := []]> rest). cbn. rewrite Hp. simpl.
      split; [reflexivity|]. split; [exact Hm|]. split.
      * apply Forall_insert; [exact Hr|]. constructor.
      * rewrite (count_insert _ _ _ _ _ Hi'), Hw. simpl. lia.
Qed.

Lemma run_joined schedule :
  forall s s', joined s -> run schedule s = Some s' -> joined s'.
Proof.
  induction schedule as [|i rest IH]; intros s s' Hj; simpl.
  - now intros [= <-].
  - destruct (exec i s) as [s1|] eqn:He; [|discriminate].
    apply IH. exact (exec_joined _ _ _ Hj He).
Qed.

Lemma init_joined requestPath w : joined (init requestPath w).
Proof.
  exists (main requestPath), []. repeat split; auto.
  exact (crawling [IRun (Crawl requestPath)] eq_refl).
Qed.

(** What stands at the head of a goroutine of a joined pool. *)
Lemma joined_head i s instr k :
  joined s ->
  pool s !! i = Some (instr :: k) ->
  match instr with
  | IWgAdd delta => delta = 1 /\ 0 <= wg s
  | IWgDone => 1 <= wg s
  | IWgWait => i = 0%nat
  | _ => True
  end.
Proof.
  intros (m & rest & Hp & Hm & Hr & Hw) Hi. rewrite Hp in Hi.
  destruct i as [|j]; simpl in Hi.
  - injection Hi as ->.
    destruct (Main_inv _ _ Hm) as [(Hin & _)|[(-> & _)|[(-> & _)|(-> & _)]]]; auto.
    destruct instr; (discriminate || exact I).
  - pose proof (Forall_lookup_1 _ _ _ _ Hr Hi) as Hs.
    destruct (Spawned_inv _ _ Hs)
      as [(w & -> & _)|[(Hin & _)|[(-> & _)|(-> & ->)]]]; auto.
    + split; [reflexivity|lia].
    + destruct instr; (discriminate || exact I).
    + rewrite Hw. exact (count_pos _ _ _ _ Hi eq_refl).
Qed.

(** A goroutine of a joined pool that has a step left takes it, unless
    the step is a panic or it is [main] waiting for a wait group that is
    not at 0. *)
Lemma joined_progress i s instr k :
  joined s ->
  exited s = false ->
  pool s !! i = Some (instr :: k) ->
  exec i s = None
  <-> panics saveContent s instr = true \/ (i = 0%nat /\ instr = IWgWait /\ wg s <> 0).
Proof.
  intros Hj Hx Hi. pose proof (joined_head _ _ _ _ Hj Hi) as Hh.
  unfold Sched.exec. rewrite Hx, Hi.
  destruct instr as [w|n w|delta|[p|p z]|delta| | | |line|]; cbn [panics].
  - split; [discriminate|]. intros [H|(_ & H & _)]; discriminate.
  - destruct (n <=? maxThreads); (split; [discriminate|]);
      intros [H|(_ & H & _)]; discriminate.
  - split; [discriminate|]. intros [H|(_ & H & _)]; discriminate.
  - split; [discriminate|]. intros [H|(_ & H & _)]; discriminate.
  - destruct (Download.value _).
    + split; [discriminate|]. intros [H|(_ & H & _)]; discriminate.
    + split; auto.
  - destruct Hh as [-> H0]. destruct (Z.ltb_spec (wg s + 1) 0); [lia|].
    split; [discriminate|]. intros [H1|(_ & H1 & _)]; discriminate.
  - destruct (Z.ltb_spec (wg s - 1) 0); [lia|].
    split; [discriminate|]. intros [H1|(_ & H1 & _)]; discriminate.
  - split; [discriminate|]. intros [H|(_ & H & _)]; discriminate.
  - destruct (Z.eqb_spec (wg s) 0) as [H0|H0].
    + split; [discriminate|]. intros [H|(_ & _ & H)]; [discriminate|contradiction].
    + split; auto.
  - split; [discriminate|]. intros [H|(_ & H & _)]; discriminate.
  - split; auto.
Qed.

End PoolFacts.

(** ** The places behind the admission limit *)

Lemma tickets_nonneg maxThreads g : 0 <= tickets maxThreads g.
Proof.
  induction g as [|instr k IH]; simpl; [lia|].
  destruct instr; simpl; try lia. destruct (_ <=? _); lia.
Qed.

Lemma tickets_app maxThreads g1 g2 :
  tickets maxThreads (g1 ++ g2) = tickets maxThreads g1 + tickets maxThreads g2.
Proof. induction g1 as [|instr g1 IH]; simpl; lia. Qed.

Lemma tickets_lay_out maxThreads ds : tickets maxThreads (List.flat_map lay_out ds) = 0.
Proof.
  induction ds as [|d ds IH]; simpl; [reflexivity|].
  rewrite tickets_app, IH. destruct d; reflexivity.
Qed.

Lemma holds_lay_out ds k : holds (List.flat_map lay_out ds ++ k) = holds k.
Proof.
  induction ds as [|d ds IH]; simpl; [reflexivity|].
  rewrite <- app_assoc. destruct d; simpl; exact IH.
Qed.

Lemma holds_after_decrement delta k :
  Z.b2z (holds k) <= Z.b2z (holds (IAddInt64 delta :: k)).
Proof.
  destruct k as [|[] [|]]; simpl; try lia; destruct (holds _); simpl; lia.
Qed.

Lemma places_in_app maxThreads p1 p2 :
  places_in maxThreads (p1 ++ p2) = places_in maxThreads p1 + places_in maxThreads p2.
Proof. induction p1 as [|g p1 IH]; simpl; lia. Qed.

Lemma places_in_insert maxThreads (p : list (list Instr)) i g g' :
  p !! i = Some g ->
  places_in maxThreads (<[i := g']> p)
  = places_in maxThreads p - places maxThreads g + places maxThreads g'.
Proof.
  revert i. induction p as [|g0 p IH]; intros [|i] H; simpl in *; try discriminate.
  - injection H as ->. lia.
  - rewrite (IH i H). lia.
Qed.

(** Every place is a decrement still owed to [threads]. *)
Lemma places_le_owed maxThreads g :
  forallb decrements g = true -> places maxThreads g <= owed_by g.
Proof.
  unfold places. induction g as [|instr k IH]; [simpl; lia|].
  intros H. apply andb_true_iff in H as [Hi Hk]. specialize (IH Hk).
  pose proof (tickets_nonneg maxThreads k) as Ht.
  destruct instr as [w|n w|delta|w|delta| | | |line|];
    try (change (holds (_ :: k)) with (holds k); simpl tickets; simpl owed_by; lia).
  - change (holds (_ :: k)) with (holds k). simpl tickets. simpl owed_by.
    destruct (n <=? maxThreads); lia.
  - simpl in Hi. apply Z.eqb_eq in Hi as ->. simpl tickets. simpl owed_by.
    destruct (holds (IAddInt64 (-1) :: k)); simpl; [|destruct (holds k); simpl in *; lia].
    destruct (holds k); simpl in *; lia.
Qed.

Lemma places_in_le_owed maxThreads p :
  Forall (fun g => forallb decrements g = true) p ->
  places_in maxThreads p <= owed_in p.
Proof.
  induction 1 as [|g p Hg _ IH]; simpl; [lia|].
  pose proof (places_le_owed maxThreads g Hg). lia.
Qed.

Lemma holders_le_places maxThreads p :
  Z.of_nat (length (List.filter holds p)) <= places_in maxThreads p.
Proof.
  induction p as [|g p IH]; simpl; [lia|]. unfold places.
  pose proof (tickets_nonneg maxThreads g).
  destruct (holds g); simpl; lia.
Qed.

Lemma lay_out_decrements ds : forallb decrements (List.flat_map lay_out ds) = true.
Proof.
  induction ds as [|d ds IH]; simpl; [reflexivity|].
  rewrite forallb_app, IH. destruct d; reflexivity.
Qed.

Section AdmissionFacts.

Variable maxThreads : Z.
Variable crawlDirectory : string -> list Dispatch.
Variable saveContent : Z -> string -> Z -> Download.M Download.Exit.

Abbreviation exec := (Sched.exec maxThreads crawlDirectory saveContent).
Abbreviation run := (Sched.run maxThreads crawlDirectory saveContent).

Lemma exec_admitting i s s' n :
  admitting maxThreads n s ->
  n < Go.int64_max ->
  exec i s = Some s' ->
  admitting maxThreads (n + 1) s'.
Proof.
  intros (Hd & Hb & Hn & Hp) Hmax He.
  pose proof (exec_balanced maxThreads crawlDirectory saveContent _ _ _ Hb He) as Hb'.
  pose proof (places_in_le_owed maxThreads _ Hd) as Hpo.
  assert (H0 : 0 <= places_in maxThreads (pool s)).
  { pose proof (holders_le_places maxThreads (pool s)). lia. }
  unfold admitting. split; [|split; [exact Hb'|]]; revert He; unfold Sched.exec;
    (destruct (exited s); [discriminate|]);
    destruct (pool s !! i) as [[|instr k]|] eqn:Hi; try discriminate;
    pose proof (Forall_lookup_1 _ _ _ _ Hd Hi) as Hg;
    simpl in Hg; apply andb_true_iff in Hg as [Hg Hk].
  - (* the decrements still to come *)
    destruct instr as [w|nT w|delta|[p|p z]|delta| | | |line|].
    + intros [= <-]. cbn. apply Forall_insert; [exact Hd|]. exact Hk.
    + destruct (nT <=? maxThreads); intros [= <-]; cbn.
      * apply Forall_app. split; [apply Forall_insert; [exact Hd|exact Hk]|].
        repeat constructor.
      * apply Forall_insert; [exact Hd|]. exact Hk.
    + intros [= <-]. cbn. apply Forall_insert; [exact Hd|]. exact Hk.
    + intros [= <-]. cbn. apply Forall_insert; [exact Hd|].
      rewrite forallb_app, lay_out_decrements. exact Hk.
    + destruct (Download.value _); [|discriminate].
      intros [= <-]. cbn. apply Forall_insert; [exact Hd|]. exact Hk.
    + destruct (wg s + delta <? 0); [discriminate|].
      intros [= <-]. cbn. apply Forall_insert; [exact Hd|]. exact Hk.
    + destruct (wg s - 1 <? 0); [discriminate|].
      intros [= <-]. cbn. apply Forall_insert; [exact Hd|]. exact Hk.
    + intros [= <-]. cbn. apply Forall_insert; [exact Hd|]. exact Hk.
    + destruct (wg s =? 0); [|discriminate].
      intros [= <-]. cbn. apply Forall_insert; [exact Hd|]. exact Hk.
    + intros [= <-]. cbn. apply Forall_insert; [exact Hd|]. exact Hk.
    + discriminate.
  - (* what is owed, and the places *)
    assert (Hthreads : threads s = owed_in (pool s)).
    { rewrite Hb. apply wrap64_small. unfold Go.is_int64, Go.int64_min, Go.int64_max in *.
      lia. }
    destruct instr as [w|nT w|delta|[p|p z]|delta| | | |line|].
    + intros [= <-]. cbn [pool with_pool with_threads].
      rewrite (owed_in_insert _ _ _ _ Hi), (places_in_insert _ _ _ _ _ Hi).
      unfold places. change (holds (_ :: k)) with (holds k) at 1 2.
      simpl tickets. simpl owed_by.
      rewrite Hthreads, wrap64_small
        by (unfold Go.is_int64, Go.int64_min, Go.int64_max in *; lia).
      split; [lia|]. destruct (Z.leb_spec (owed_in (pool s) + 1) maxThreads); lia.
    + destruct (Z.leb_spec nT maxThreads) as [Hle|Hgt]; intros [= <-];
        cbn [pool with_pool].
      * rewrite owed_in_app, places_in_app,
          (owed_in_insert _ _ _ _ Hi), (places_in_insert _ _ _ _ _ Hi).
        unfold places. change (holds (_ :: k)) with (holds k).
        simpl. change (places maxThreads (f_async w)) with 1.
        destruct (Z.leb_spec nT maxThreads); lia.
      * rewrite (owed_in_insert _ _ _ _ Hi), (places_in_insert _ _ _ _ _ Hi).
        unfold places. change (holds (IBranch nT w :: k)) with (holds k).
        change (holds (IAddInt64 (-1) :: IRun w :: k)) with (holds k).
        simpl. destruct (Z.leb_spec nT maxThreads); lia.
    + intros [= <-]. cbn [pool with_pool with_threads].
      rewrite (owed_in_insert _ _ _ _ Hi), (places_in_insert _ _ _ _ _ Hi).
      unfold places. pose proof (holds_after_decrement delta k).
      simpl in Hg. apply Z.eqb_eq in Hg as ->.
      simpl tickets. simpl owed_by. lia.
    + intros [= <-]. cbn [pool with_pool].
      rewrite (owed_in_insert _ _ _ _ Hi), (places_in_insert _ _ _ _ _ Hi).
      unfold places. change (holds (_ :: k)) with (holds k) at 1.
      rewrite holds_lay_out, tickets_app, tickets_lay_out, owed_by_app, owed_by_lay_out.
      simpl. lia.
    + destruct (Download.value _); [|discriminate].
      intros [= <-]. cbn [pool].
      rewrite (owed_in_insert _ _ _ _ Hi), (places_in_insert _ _ _ _ _ Hi).
      unfold places. change (holds (_ :: k)) with (holds k) at 1. simpl. lia.
    + destruct (wg s + delta <? 0); [discriminate|].
      intros [= <-]. cbn [pool with_pool with_wg].
      rewrite (owed_in_insert _ _ _ _ Hi), (places_in_insert _ _ _ _ _ Hi).
      unfold places. change (holds (_ :: k)) with (holds k) at 1. simpl. lia.
    + destruct (wg s - 1 <? 0); [discriminate|].
      intros [= <-]. cbn [pool with_pool with_wg].
      rewrite (owed_in_insert _ _ _ _ Hi), (places_in_insert _ _ _ _ _ Hi).
      unfold places. change (holds (_ :: k)) with (holds k) at 1. simpl. lia.
    + intros [= <-]. cbn [pool with_pool].
      rewrite (owed_in_insert _ _ _ _ Hi), (places_in_insert _ _ _ _ _ Hi).
      unfold places. change (holds (_ :: k)) with (holds k) at 1. simpl. lia.
    + destruct (wg s =? 0); [|discriminate].
      intros [= <-]. cbn [pool with_pool].
      rewrite (owed_in_insert _ _ _ _ Hi), (places_in_insert _ _ _ _ _ Hi).
      unfold places. change (holds (_ :: k)) with (holds k) at 1. simpl. lia.
    + intros [= <-]. cbn [pool].
      rewrite (owed_in_insert _ _ _ _ Hi), (places_in_insert _ _ _ _ _ Hi).
      unfold places. change (holds (_ :: k)) with (holds k) at 1. simpl. lia.
    + discriminate.
Qed.

Lemma run_admitting schedule :
  forall s s' n,
    admitting maxThreads n s ->
    n + Z.of_nat (length schedule) <= Go.int64_max ->
    run schedule s = Some s' ->
    admitting maxThreads (n + Z.of_nat (length schedule)) s'.
Proof.
  induction schedule as [|i rest IH]; intros s s' n Ha Hn; simpl.
  - intros [= <-]. now rewrite Z.add_0_r.
  - destruct (exec i s) as [s1|] eqn:He; [|discriminate].
    intros Hr. simpl length in Hn.
    replace (n + Z.of_nat (S (length rest))) with (n + 1 + Z.of_nat (length rest)) in * by lia.
    apply (IH s1 s' (n + 1)); [|lia|exact Hr].
    apply (exec_admitting i s s1 n Ha); [lia|exact He].
Qed.

Lemma init_admitting requestPath w : admitting maxThreads 0 (init requestPath w).
Proof.
  split; [repeat constructor|]. split; [apply init_balanced|].
  cbn. change (places maxThreads (main requestPath)) with 0. lia.
Qed.

End AdmissionFacts.

(** ** What holds in every state a run reaches *)

Lemma Forall_Spawned_unregistered rest :
  Forall Spawned rest ->
  Forall (fun g => registered g = false) rest
  <-> Forall (fun g => g = [] \/ exists w, g = f_async w) rest.
Proof.
  induction 1 as [|g rest Hg _ IH].
  - split; constructor.
  - split; intros H; inversion H; subst; constructor;
      try (apply IH; assumption); now apply (Spawned_registered g Hg).
Qed.

Lemma count_some (f : list Instr -> bool) (l : list (list Instr)) :
  Z.of_nat (length (List.filter f l)) <> 0 ->
  exists j g, l !! j = Some g /\ f g = true.
Proof.
  induction l as [|g l IH]; simpl; [lia|].
  destruct (f g) eqn:Hf.
  - intros _. exists 0%nat, g. auto.
  - intros H. destruct (IH H) as (j & g' & Hj & Hg). exists (S j), g'. auto.
Qed.

Lemma alone_lookup {A} (l : list A) i x :
  length l = 1%nat -> l !! i = Some x -> i = 0%nat /\ l = [x].
Proof.
  destruct l as [|y [|z l]]; try discriminate. intros _.
  destruct i as [|i]; simpl; [|discriminate]. now intros [= ->].
Qed.

Section ReachableFacts.

Variable maxThreads : Z.
Variable crawlDirectory : string -> list Dispatch.
Variable saveContent : Z -> string -> Z -> Download.M Download.Exit.

Abbreviation exec := (Sched.exec maxThreads crawlDirectory saveContent).
Abbreviation run := (Sched.run maxThreads crawlDirectory saveContent).

Lemma reach_joined requestPath w schedule s :
  run schedule (init requestPath w) = Some s -> joined s.
Proof.
  apply (run_joined maxThreads crawlDirectory saveContent), init_joined.
Qed.

Lemma reach_admitting requestPath w schedule s :
  run schedule (init requestPath w) = Some s ->
  Z.of_nat (length schedule) <= Go.int64_max ->
  admitting maxThreads (Z.of_nat (length schedule)) s.
Proof.
  intros Hr Hn.
  exact (run_admitting maxThreads crawlDirectory saveContent schedule _ _ 0
           (init_admitting maxThreads requestPath w) Hn Hr).
Qed.

(** With a limit that is not positive no branch starts a goroutine:
    [main] stays alone, and only [main] steps. *)
Lemma exec_alone i s s' n :
  maxThreads <= 0 ->
  admitting maxThreads n s ->
  length (pool s) = 1%nat ->
  exec i s = Some s' ->
  length (pool s') = 1%nat /\ i = 0%nat.
Proof.
  intros Hm (_ & _ & _ & Hp) Hl He.
  destruct (exec_head _ _ _ _ _ _ He) as (instr & k & Hi).
  destruct (alone_lookup _ _ _ Hl Hi) as [-> Hpool]. split; [|reflexivity].
  revert He. unfold Sched.exec. rewrite Hi.
  destruct (exited s); [discriminate|].
  destruct instr as [w|nT w|delta|[p|p z]|delta| | | |line|];
    try (intros [= <-]; cbn; now rewrite length_insert).
  - destruct (Z.leb_spec nT maxThreads) as [Hle|Hgt].
    + exfalso. rewrite Hpool in Hp. simpl in Hp. unfold places in Hp. simpl in Hp.
      pose proof (tickets_nonneg maxThreads k).
      destruct (Z.leb_spec nT maxThreads); [|lia].
      destruct (holds _); simpl in Hp; lia.
    + intros [= <-]. cbn. now rewrite length_insert.
  - destruct (Download.value _); [|discriminate].
    intros [= <-]. cbn. now rewrite length_insert.
  - destruct (wg s + delta <? 0); [discriminate|].
    intros [= <-]. cbn. now rewrite length_insert.
  - destruct (wg s - 1 <? 0); [discriminate|].
    intros [= <-]. cbn. now rewrite length_insert.
  - destruct (wg s =? 0); [|discriminate].
    intros [= <-]. cbn. now rewrite length_insert.
Qed.

Lemma run_alone schedule :
  forall s s' n,
    maxThreads <= 0 ->
    admitting maxThreads n s ->
    length (pool s) = 1%nat ->
    n + Z.of_nat (length schedule) <= Go.int64_max ->
    run schedule s = Some s' ->
    length (pool s') = 1%nat /\ Forall (fun i => i = 0%nat) schedule.
Proof.
  induction schedule as [|i rest IH]; intros s s' n Hm Ha Hl Hn; simpl.
  - intros [= <-]. split; [exact Hl|constructor].
  - destruct (exec i s) as [s1|] eqn:He; [|discriminate].
    intros Hr. simpl length in Hn.
    destruct (exec_alone _ _ _ _ Hm Ha Hl He) as [Hl1 ->].
    assert (Ha1 : admitting maxThreads (n + 1) s1).
    { apply (exec_admitting maxThreads crawlDirectory saveContent 0%nat s s1 n Ha);
        [lia|exact He]. }
    destruct (IH s1 s' (n + 1) Hm Ha1 Hl1 ltac:(lia) Hr) as [Hl' Hall].
    split; [exact Hl'|]. now constructor.
Qed.

(** X16. In every state a run reaches, the wait group holds the number
    of goroutines that are between their [wg.Add(1)] and their
    [wg.Done()]; every [wg.Add] still to come adds 1; and a goroutine
    about to call [wg.Done()] finds the counter positive, so the call
    takes 1 off and never panics on a negative counter. *)
Theorem wait_group_counts_registered (requestPath : string) (w : Download.World)
    (schedule : list nat) (s : State) :
  run schedule (init requestPath w) = Some s ->
  wg s = Z.of_nat (length (List.filter registered (spawned s)))
  /\ (forall i delta k, pool s !! i = Some (IWgAdd delta :: k) -> delta = 1)
  /\ (forall i k,
        pool s !! i = Some (IWgDone :: k) ->
        exited s = false ->
        1 <= wg s
        /\ exec i s = Some (with_pool (<[i := k]> (pool s)) (with_wg (wg s - 1) s))).
Proof.
  intros Hr. pose proof (reach_joined _ _ _ _ Hr) as Hj. split; [|split].
  - destruct Hj as (m & rest & Hp & _ & _ & Hw). unfold spawned. now rewrite Hp.
  - intros i delta k Hi. exact (proj1 (joined_head _ _ _ _ Hj Hi)).
  - intros i k Hi Hx. pose proof (joined_head _ _ _ _ Hj Hi) as H1. simpl in H1.
    split; [exact H1|]. unfold Sched.exec. rewrite Hx, Hi.
    destruct (Z.ltb_spec (wg s - 1) 0); [lia|reflexivity].
Qed.

(** X17. When [main] stands at [wg.Wait()], the call returns exactly
    when every other goroutine either is over or has not yet run its
    first statement, [wg.Add(1)]: the wait covers the goroutines that
    have registered, and only those. *)
Theorem wait_returns_iff_registered_are_done (requestPath : string)
    (w : Download.World) (schedule : list nat) (s : State) (k : list Instr) :
  run schedule (init requestPath w) = Some s ->
  pool s !! 0%nat = Some (IWgWait :: k) ->
  exec 0 s = Some (with_pool (<[0%nat := k]> (pool s)) s)
  <-> Forall (fun g => g = [] \/ exists w', g = f_async w') (spawned s).
Proof.
  intros Hr Hi. pose proof (reach_joined _ _ _ _ Hr) as (m & rest & Hp & _ & Hs & Hw).
  unfold spawned, Sched.exec, exited. rewrite Hi, Hp. simpl drop.
  rewrite <- (Forall_Spawned_unregistered _ Hs), <- count_zero, <- Hw.
  destruct (Z.eqb_spec (wg s) 0) as [H0|H0].
  - split; auto.
  - split; [discriminate|contradiction].
Qed.

(** X18. Until [main] calls [wg.Wait()] nothing blocks and no call on
    the wait group fails: in every state a run reaches in which [main]
    still has its sleep before it, a goroutine that has a step left can
    take it unless the step is a panic of the program's own (an index
    out of range in part_001). *)
Theorem no_step_fails_before_wait (requestPath : string) (w : Download.World)
    (schedule : list nat) (s : State) (m : list Instr)
    (i : nat) (instr : Instr) (k : list Instr) :
  run schedule (init requestPath w) = Some s ->
  pool s !! 0%nat = Some m ->
  In ISleep m ->
  pool s !! i = Some (instr :: k) ->
  exited s = false
  /\ (exec i s = None <-> panics saveContent s instr = true).
Proof.
  intros Hr Hm Hin Hi. pose proof (reach_joined _ _ _ _ Hr) as Hj.
  assert (Hx : exited s = false).
  { unfold exited. rewrite Hm. destruct m; [destruct Hin|reflexivity]. }
  split; [exact Hx|].
  rewrite (joined_progress _ _ _ _ _ _ _ Hj Hx Hi).
  split; [|now left].
  intros [Hp|(-> & -> & _)]; [exact Hp|]. exfalso.
  destruct Hj as (m' & rest & Hp & HM & _).
  rewrite Hm in Hi. injection Hi as ->.
  rewrite Hp in Hm. injection Hm as ->.
  destruct (Main_inv _ _ HM) as [(Hinl & _)|[(H & _)|[(_ & ->)|(H & _)]]];
    try discriminate.
  destruct Hin as [H|[H|[]]]; discriminate.
Qed.

(** X19. No deadlock: in every state a run reaches before [main] has
    returned, some goroutine has a step that it can take or that is a
    panic. When [main] is held in [wg.Wait()], a registered goroutine
    is there to go on. *)
Theorem some_goroutine_can_step (requestPath : string) (w : Download.World)
    (schedule : list nat) (s : State) :
  run schedule (init requestPath w) = Some s ->
  exited s = false ->
  exists i instr k,
    pool s !! i = Some (instr :: k)
    /\ (panics saveContent s instr = true \/ exists s', exec i s = Some s').
Proof.
  intros Hr Hx. pose proof (reach_joined _ _ _ _ Hr) as Hj.
  pose proof Hj as (m & rest & Hp & _ & Hs & Hw).
  assert (Hm : exists instr k, pool s !! 0%nat = Some (instr :: k)).
  { unfold exited in Hx. rewrite Hp in *. simpl in *.
    destruct m as [|instr k]; [discriminate|]. eauto. }
  destruct Hm as (instr & k & Hi).
  destruct (exec 0 s) as [s'|] eqn:He.
  - exists 0%nat, instr, k. eauto.
  - apply (joined_progress _ _ _ _ _ _ _ Hj Hx Hi) in He as [Hpanic|(_ & -> & H0)].
    + exists 0%nat, instr, k. auto.
    + rewrite Hw in H0. destruct (count_some _ _ H0) as (j & g & Hg & Hreg).
      destruct g as [|instr' k']; [discriminate|].
      assert (Hi' : pool s !! S j = Some (instr' :: k')) by (rewrite Hp; exact Hg).
      exists (S j), instr', k'. split; [exact Hi'|].
      destruct (exec (S j) s) as [s'|] eqn:He'; [eauto|].
      apply (joined_progress _ _ _ _ _ _ _ Hj Hx Hi') in He' as [Hpanic|(H & _)];
        [auto|discriminate].
Qed.

(** X20. The admission limit holds. In every state reached by a run
    short enough for [threads] not to overflow, the goroutines started
    by [go f_async()] that have not yet run their
    [atomic.AddInt64(&threads, -1)] number at most [maxThreads] (none
    when [maxThreads] is negative); [threads] is not negative, counts at
    least these goroutines, and never exceeds the number of steps
    taken. *)
Theorem running_goroutines_within_limit (requestPath : string)
    (w : Download.World) (schedule : list nat) (s : State) :
  run schedule (init requestPath w) = Some s ->
  Z.of_nat (length schedule) <= Go.int64_max ->
  Z.of_nat (length (List.filter holds (pool s))) <= Z.max 0 maxThreads
  /\ Z.of_nat (length (List.filter holds (pool s))) <= threads s
  /\ threads s <= Z.of_nat (length schedule).
Proof.
  intros Hr Hn.
  destruct (reach_admitting _ _ _ _ Hr Hn) as (Hd & Hb & Ho & Hp).
  pose proof (holders_le_places maxThreads (pool s)) as Hh.
  pose proof (places_in_le_owed maxThreads _ Hd) as Hpo.
  assert (Hthreads : threads s = owed_in (pool s)).
  { rewrite Hb. apply wrap64_small.
    unfold Go.is_int64, Go.int64_min, Go.int64_max in *. lia. }
  rewrite Hthreads. lia.
Qed.

(** X21. With a limit of 0 or less the program is sequential: no
    goroutine is ever started, only [main] steps, the wait group stays
    at 0, and when [main] has returned nothing is left undone. *)
Theorem sequential_when_limit_not_positive (requestPath : string)
    (w : Download.World) (schedule : list nat) (s : State) :
  maxThreads <= 0 ->
  run schedule (init requestPath w) = Some s ->
  Z.of_nat (length schedule) <= Go.int64_max ->
  spawned s = []
  /\ wg s = 0
  /\ Forall (fun i => i = 0%nat) schedule
  /\ (exited s = true -> all_done s = true).
Proof.
  intros Hm Hr Hn.
  destruct (run_alone schedule _ _ 0 Hm (init_admitting maxThreads requestPath w)
              eq_refl Hn Hr) as [Hl Hall].
  destruct (reach_joined _ _ _ _ Hr) as (m & rest & Hp & _ & _ & Hw).
  rewrite Hp in Hl. destruct rest as [|g rest]; [|discriminate].
  unfold spawned, exited, all_done. rewrite Hp. simpl.
  repeat split; auto. destruct m; [reflexivity|discriminate].
Qed.

End ReachableFacts.

(** ** main.go: no panic of its own; the manifest of a whole run *)

Lemma lay_out_calm ds :
  Forall (fun d => d <> Panics) ds -> forallb calm (List.flat_map lay_out ds) = true.
Proof.
  induction 1 as [|d ds Hd _ IH]; simpl; [reflexivity|].
  rewrite forallb_app, IH. destruct d; try reflexivity. contradiction.
Qed.

Lemma crawlDirectory_calm getFileIndex entryPath :
  Forall (fun d => d <> Panics) (Crawl.crawlDirectory getFileIndex entryPath).
Proof.
  unfold Crawl.crawlDirectory. destruct (getFileIndex entryPath) as [entries|]; [|constructor].
  induction entries as [|entry rest IH]; simpl; constructor; [|exact IH].
  unfold Crawl.visit. destruct (_ || _); [discriminate|].
  destruct (Go.HasSuffix _ _); discriminate.
Qed.

Lemma manifest_app env l1 l2 :
  manifest env (l1 ++ l2) = manifest env l1 ++ manifest env l2.
Proof.
  induction l1 as [|e l1 IH]; [reflexivity|].
  destruct e; simpl; try exact IH. rewrite IH. now rewrite app_assoc_s.
Qed.

Lemma manifest_records env l :
  List.filter is_EWriteString l = [] -> manifest env l = "".
Proof.
  induction l as [|e l IH]; [reflexivity|].
  destruct e; simpl; try exact IH. discriminate.
Qed.

Lemma downloadUrl_urlFile env nThreads entryPath downloadSize w :
  urlFile (world (downloadUrl env nThreads entryPath downloadSize w)) = urlFile w.
Proof.
  unfold downloadUrl. destruct (Paths.getDownloadPath entryPath); [|reflexivity].
  apply download_frame.
Qed.

Lemma downloadUrl_001_urlFile env fileUrl downloadSize w :
  urlFile (world (downloadUrl_001 env fileUrl downloadSize w)) = urlFile w.
Proof.
  unfold downloadUrl_001. destruct (Paths.fileName_001 fileUrl); try reflexivity.
  unfold mbind, M_bind, mret, M_ret. cbn [world]. apply download_frame.
Qed.

Lemma saveContent_main_manifest env writeUrlOnly nThreads fileUrl downloadSize w :
  urlFile (world (saveContent_main env writeUrlOnly nThreads fileUrl downloadSize w))
  = urlFile w
    ++ manifest env (events (saveContent_main env writeUrlOnly nThreads fileUrl
                                              downloadSize w)).
Proof.
  unfold saveContent_main, saveContent, writeUrl, mbind, M_bind, mret, M_ret.
  cbn [world events value app]. rewrite app_nil_r. cbn [manifest].
  destruct writeUrlOnly; cbn [negb world events manifest].
  - destruct (urlFile_Write_ok env _); cbn [urlFile]; now rewrite ?app_empty_r.
  - rewrite downloadUrl_urlFile, (manifest_records env _ (downloadUrl_records env _ _ _ _)).
    destruct (urlFile_Write_ok env _); cbn [urlFile]; now rewrite ?app_empty_r.
Qed.

Lemma saveContent_001_manifest env writeUrlOnly fileUrl downloadSize w :
  urlFile (world (saveContent_001 env writeUrlOnly fileUrl downloadSize w))
  = urlFile w
    ++ manifest env (events (saveContent_001 env writeUrlOnly fileUrl downloadSize w)).
Proof.
  unfold saveContent_001, writeUrl, mbind, M_bind, mret, M_ret.
  cbn [world events value app manifest].
  destruct writeUrlOnly; cbn [negb world events manifest].
  - destruct (urlFile_Write_ok env _); cbn [urlFile]; now rewrite ?app_empty_r.
  - rewrite downloadUrl_001_urlFile,
      (manifest_records env _ (downloadUrl_001_records env _ _ _)).
    destruct (urlFile_Write_ok env _); cbn [urlFile]; now rewrite ?app_empty_r.
Qed.

Section RunFacts.

Variable maxThreads : Z.
Variable crawlDirectory : string -> list Dispatch.
Variable saveContent : Z -> string -> Z -> Download.M Download.Exit.

Abbreviation exec := (Sched.exec maxThreads crawlDirectory saveContent).
Abbreviation run := (Sched.run maxThreads crawlDirectory saveContent).

Lemma exec_calm i s s' :
  (forall entryPath, Forall (fun d => d <> Panics) (crawlDirectory entryPath)) ->
  Forall (fun g => forallb calm g = true) (pool s) ->
  exec i s = Some s' ->
  Forall (fun g => forallb calm g = true) (pool s').
Proof.
  intros Hc Hd. unfold Sched.exec.
  destruct (exited s); [discriminate|].
  destruct (pool s !! i) as [[|instr k]|] eqn:Hi; try discriminate.
  pose proof (Forall_lookup_1 _ _ _ _ Hd Hi) as Hg.
  simpl in Hg. apply andb_true_iff in Hg as [Hg Hk].
  destruct instr as [w|nT w|delta|[p|p z]|delta| | | |line|].
  - intros [= <-]. cbn. apply Forall_insert; [exact Hd|]. exact Hk.
  - destruct (nT <=? maxThreads); intros [= <-]; cbn.
    + apply Forall_app. split; [apply Forall_insert; [exact Hd|exact Hk]|].
      repeat constructor.
    + apply Forall_insert; [exact Hd|]. exact Hk.
  - intros [= <-]. cbn. apply Forall_insert; [exact Hd|]. exact Hk.
  - intros [= <-]. cbn. apply Forall_insert; [exact Hd|].
    rewrite forallb_app, (lay_out_calm _ (Hc p)). exact Hk.
  - destruct (Download.value _); [|discriminate].
    intros [= <-]. cbn. apply Forall_insert; [exact Hd|]. exact Hk.
  - destruct (wg s + delta <? 0); [discriminate|].
    intros [= <-]. cbn. apply Forall_insert; [exact Hd|]. exact Hk.
  - destruct (wg s - 1 <? 0); [discriminate|].
    intros [= <-]. cbn. apply Forall_insert; [exact Hd|]. exact Hk.
  - intros [= <-]. cbn. apply Forall_insert; [exact Hd|]. exact Hk.
  - destruct (wg s =? 0); [|discriminate].
    intros [= <-]. cbn. apply Forall_insert; [exact Hd|]. exact Hk.
  - intros [= <-]. cbn. apply Forall_insert; [exact Hd|]. exact Hk.
  - discriminate.
Qed.

Lemma run_calm schedule :
  forall s s',
    (forall entryPath, Forall (fun d => d <> Panics) (crawlDirectory entryPath)) ->
    Forall (fun g => forallb calm g = true) (pool s) ->
    run schedule s = Some s' ->
    Forall (fun g => forallb calm g = true) (pool s').
Proof.
  induction schedule as [|i rest IH]; intros s s' Hc Hd; simpl.
  - now intros [= <-].
  - destruct (exec i s) as [s1|] eqn:He; [|discriminate].
    apply (IH _ _ Hc). exact (exec_calm _ _ _ Hc Hd He).
Qed.

Variable env : Download.Env.
Variable u0 : string.

Hypothesis saveContent_manifest :
  forall nThreads fileUrl downloadSize w,
    urlFile (world (saveContent nThreads fileUrl downloadSize w))
    = urlFile w ++ manifest env (events (saveContent nThreads fileUrl downloadSize w)).

Lemma exec_manifest i s s' :
  urlFile (disk s) = u0 ++ manifest env (log s) ->
  exec i s = Some s' ->
  urlFile (disk s') = u0 ++ manifest env (log s').
Proof.
  intros Hu. unfold Sched.exec.
  destruct (exited s); [discriminate|].
  destruct (pool s !! i) as [[|instr k]|]; try discriminate.
  destruct instr as [w|nT w|delta|[p|p z]|delta| | | |line|];
    try (intros [= <-]; exact Hu).
  - destruct (nT <=? maxThreads); intros [= <-]; exact Hu.
  - destruct (Download.value _) eqn:Hv; [|discriminate].
    intros [= <-]. cbn [disk log].
    rewrite saveContent_manifest, Hu, manifest_app. apply app_assoc_s.
  - destruct (wg s + delta <? 0); [discriminate|]. intros [= <-]; exact Hu.
  - destruct (wg s - 1 <? 0); [discriminate|]. intros [= <-]; exact Hu.
  - destruct (wg s =? 0); [|discriminate]. intros [= <-]; exact Hu.
Qed.

Lemma run_manifest schedule :
  forall s s',
    urlFile (disk s) = u0 ++ manifest env (log s) ->
    run schedule s = Some s' ->
    urlFile (disk s') = u0 ++ manifest env (log s').
Proof.
  induction schedule as [|i rest IH]; intros s s' Hu; simpl.
  - now intros [= <-].
  - destruct (exec i s) as [s1|] eqn:He; [|discriminate].
    apply IH. exact (exec_manifest _ _ _ Hu He).
Qed.

End RunFacts.

(** X22. None of main.go's own statements panics: in every state a run
    of main.go reaches, the step a goroutine stands at is neither an
    index out of range nor a download that ends in one. And until
    [main] calls [wg.Wait()] the crawl of main.go cannot stop: every
    goroutine that has a step left can take it. *)
Theorem main_go_steps_before_wait (maxThreads : Z)
    (getFileIndex : string -> option (list Crawl.FileEntry))
    (env : Download.Env) (writeUrlOnly : bool)
    (requestPath : string) (w : Download.World)
    (schedule : list nat) (s : State) (i : nat) (instr : Instr) (k : list Instr) :
  run_main maxThreads getFileIndex env writeUrlOnly schedule (init requestPath w) = Some s ->
  pool s !! i = Some (instr :: k) ->
  panics (saveContent_main env writeUrlOnly) s instr = false
  /\ (forall m,
        pool s !! 0%nat = Some m ->
        In ISleep m ->
        exists s', exec_main maxThreads getFileIndex env writeUrlOnly i s = Some s').
Proof.
  intros Hr Hi. unfold run_main in Hr. unfold exec_main.
  pose proof (run_joined _ _ _ _ _ _ (init_joined requestPath w) Hr) as Hj.
  assert (Hcalm : Forall (fun g => forallb calm g = true) (pool s)).
  { assert (H0 : Forall (fun g => forallb calm g = true) (pool (init requestPath w)))
      by (repeat constructor).
    exact (run_calm _ _ _ _ _ _ (crawlDirectory_calm getFileIndex) H0 Hr). }
  pose proof (Forall_lookup_1 _ _ _ _ Hcalm Hi) as Hg.
  simpl in Hg. apply andb_true_iff in Hg as [Hg _].
  assert (Hp : panics (saveContent_main env writeUrlOnly) s instr = false).
  { destruct instr as [| | |[|]| | | | | |]; try reflexivity; discriminate. }
  split; [exact Hp|].
  intros m Hm Hin.
  assert (Hx : exited s = false).
  { unfold exited. rewrite Hm. destruct m; [destruct Hin|reflexivity]. }
  destruct (Sched.exec maxThreads (Crawl.crawlDirectory getFileIndex)
              (saveContent_main env writeUrlOnly) i s) as [s'|] eqn:He; [eauto|].
  exfalso.
  apply (joined_progress _ _ _ _ _ _ _ Hj Hx Hi) in He as [He|(-> & -> & _)];
    [congruence|].
  destruct Hj as (m' & rest & Hpool & HM & _).
  rewrite Hm in Hi. injection Hi as ->.
  rewrite Hpool in Hm. injection Hm as ->.
  destruct (Main_inv _ _ HM) as [(Hinl & _)|[(H & _)|[(_ & ->)|(H & _)]]];
    try discriminate.
  destruct Hin as [H|[H|[]]]; discriminate.
Qed.


(** ** The facts above on runs over the tree of [Fixtures.tree] *)

(** X16 with a limit of 4, when goroutine 1 (the crawl of [/d/]) has
    run its [wg.Add(1)]: the wait group is at 1. *)
Lemma wait_group_counts_registered_witness :
  exists s,
    run_main 4 Fixtures.tree Fixtures.host false [0; 0; 0; 1]%nat
             (init "/" Fixtures.empty_disk) = Some s
    /\ spawned s = [[IRun (Crawl "/d/"); IAddInt64 (-1); IWgDone]]
    /\ wg s = 1
    /\ wg s = Z.of_nat (length (List.filter registered (spawned s))).
Proof.
  eexists. split; [vm_compute; reflexivity|].
  split; [reflexivity|]. split; [reflexivity|].
  eapply (proj1 (wait_group_counts_registered 4 (Crawl.crawlDirectory Fixtures.tree)
                   (saveContent_main Fixtures.host false) "/" Fixtures.empty_disk
                   [0; 0; 0; 1]%nat _ _)).
  Unshelve. vm_compute. reflexivity.
Defined.

(** X17 with a limit of 4, when goroutine 1 is over and goroutine 2
    (the download of [/d/f]) has not begun: [wg.Wait()] returns. *)
Lemma wait_returns_iff_registered_are_done_witness :
  exists s,
    run_main 4 Fixtures.tree Fixtures.host false [0; 0; 0; 1; 0; 1; 1; 1; 1; 1]%nat
             (init "/" Fixtures.empty_disk) = Some s
    /\ pool s !! 0%nat = Some [IWgWait; IPrintln "Done!"]
    /\ spawned s = [[]; f_async (Save "/d/f" 6)]
    /\ exec_main 4 Fixtures.tree Fixtures.host false 0 s
       = Some (with_pool (<[0%nat := [IPrintln "Done!"]]> (pool s)) s).
Proof.
  eexists. split; [vm_compute; reflexivity|].
  split; [reflexivity|]. split; [reflexivity|].
  lazymatch goal with
  | |- exec_main _ _ _ _ _ ?s = _ =>
      apply (proj2 (wait_returns_iff_registered_are_done 4
                      (Crawl.crawlDirectory Fixtures.tree)
                      (saveContent_main Fixtures.host false) "/" Fixtures.empty_disk
                      [0; 0; 0; 1; 0; 1; 1; 1; 1; 1]%nat s [IPrintln "Done!"]
                      ltac:(vm_compute; reflexivity) eq_refl))
  end.
  constructor; [now left|]. constructor; [right; now exists (Save "/d/f" 6)|].
  constructor.
Defined.

(** X18 with a limit of 4, when goroutine 1 has registered and [main]
    has its sleep before it: goroutine 1 crawls [/d/]. *)
Lemma no_step_fails_before_wait_witness :
  exists s,
    run_main 4 Fixtures.tree Fixtures.host false [0; 0; 0; 1]%nat
             (init "/" Fixtures.empty_disk) = Some s
    /\ pool s = [[ISleep; IWgWait; IPrintln "Done!"];
                 [IRun (Crawl "/d/"); IAddInt64 (-1); IWgDone]]
    /\ panics (saveContent_main Fixtures.host false) s (IRun (Crawl "/d/")) = false
    /\ exists s', exec_main 4 Fixtures.tree Fixtures.host false 1 s = Some s'.
Proof.
  eexists. split; [vm_compute; reflexivity|].
  split; [reflexivity|]. split; [reflexivity|].
  lazymatch goal with
  | |- exists s', exec_main _ _ _ _ _ ?s = _ =>
      pose proof (proj2 (no_step_fails_before_wait 4 (Crawl.crawlDirectory Fixtures.tree)
                           (saveContent_main Fixtures.host false) "/"
                           Fixtures.empty_disk [0; 0; 0; 1]%nat s
                           [ISleep; IWgWait; IPrintln "Done!"] 1%nat
                           (IRun (Crawl "/d/")) [IAddInt64 (-1); IWgDone]
                           ltac:(vm_compute; reflexivity) eq_refl
                           (or_introl eq_refl) eq_refl)) as [Hnone _];
      destruct (exec_main 4 Fixtures.tree Fixtures.host false 1 s) as [s'|] eqn:He
  end.
  - now exists s'.
  - discriminate (Hnone He).
Defined.

(** X19 in the same state: [main] is held, and goroutine 1 can go on. *)
Lemma some_goroutine_can_step_witness :
  exists s,
    run_main 4 Fixtures.tree Fixtures.host false [0; 0; 0; 1; 0]%nat
             (init "/" Fixtures.empty_disk) = Some s
    /\ exec_main 4 Fixtures.tree Fixtures.host false 0 s = None
    /\ exists i instr k,
         pool s !! i = Some (instr :: k)
         /\ (panics (saveContent_main Fixtures.host false) s instr = true
             \/ exists s', exec_main 4 Fixtures.tree Fixtures.host false i s = Some s').
Proof.
  eexists. split; [vm_compute; reflexivity|]. split; [reflexivity|].
  eapply (some_goroutine_can_step 4 (Crawl.crawlDirectory Fixtures.tree)
            (saveContent_main Fixtures.host false) "/" Fixtures.empty_disk
            [0; 0; 0; 1; 0]%nat).
  - vm_compute. reflexivity.
  - reflexivity.
Defined.

(** X20 with a limit of 1, when goroutine 1 holds the one place and has
    dispatched the download of [/d/f], which will run inline: one
    goroutine holds a place, and [threads] is at 2. *)
Lemma running_goroutines_within_limit_witness :
  exists s,
    run_main 1 Fixtures.tree Fixtures.host false [0; 0; 0; 1; 1; 1]%nat
             (init "/" Fixtures.empty_disk) = Some s
    /\ length (List.filter holds (pool s)) = 1%nat
    /\ threads s = 2
    /\ Z.of_nat (length (List.filter holds (pool s))) <= Z.max 0 1
    /\ Z.of_nat (length (List.filter holds (pool s))) <= threads s
    /\ threads s <= 6.
Proof.
  eexists. split; [vm_compute; reflexivity|].
  split; [reflexivity|]. split; [reflexivity|].
  eapply (running_goroutines_within_limit 1 (Crawl.crawlDirectory Fixtures.tree)
            (saveContent_main Fixtures.host false) "/" Fixtures.empty_disk
            [0; 0; 0; 1; 1; 1]%nat).
  - vm_compute. reflexivity.
  - unfold Go.int64_max. simpl length. lia.
Defined.

(** X21 with a limit of 0: [main] alone crawls [/] and [/d/] and
    downloads [/d/f], in twelve steps. *)
Lemma sequential_when_limit_not_positive_witness :
  exists s,
    run_main 0 Fixtures.tree Fixtures.host false
             [0; 0; 0; 0; 0; 0; 0; 0; 0; 0; 0; 0]%nat
             (init "/" Fixtures.empty_disk) = Some s
    /\ exited s = true
    /\ printed s = ["Done!"]
    /\ Download.files (disk s) !! "downloads/d/f" = Some "abcde"
    /\ spawned s = []
    /\ wg s = 0
    /\ all_done s = true.
Proof.
  eexists. split; [vm_compute; reflexivity|].
  split; [reflexivity|]. split; [reflexivity|]. split; [reflexivity|].
  lazymatch goal with
  | |- spawned ?s = _ /\ _ =>
      pose proof (sequential_when_limit_not_positive 0
                    (Crawl.crawlDirectory Fixtures.tree)
                    (saveContent_main Fixtures.host false) "/" Fixtures.empty_disk
                    [0; 0; 0; 0; 0; 0; 0; 0; 0; 0; 0; 0]%nat s
                    ltac:(lia) ltac:(vm_compute; reflexivity)
                    ltac:(unfold Go.int64_max; simpl length; lia))
        as (Hs & Hw & _ & Hd)
  end.
  split; [exact Hs|]. split; [exact Hw|]. exact (Hd eq_refl).
Defined.

(** X22 with a limit of 1, when goroutine 1 stands at the download of
    [/d/f], which it runs itself: the step is no panic, and it can be
    taken. *)
Lemma main_go_steps_before_wait_witness :
  exists s,
    run_main 1 Fixtures.tree Fixtures.host false [0; 0; 0; 1; 1; 1; 1; 1]%nat
             (init "/" Fixtures.empty_disk) = Some s
    /\ pool s = [[ISleep; IWgWait; IPrintln "Done!"];
                 [IRun (Save "/d/f" 6); IAddInt64 (-1); IWgDone]]
    /\ panics (saveContent_main Fixtures.host false) s (IRun (Save "/d/f" 6)) = false
    /\ exists s', exec_main 1 Fixtures.tree Fixtures.host false 1 s = Some s'.
Proof.
  eexists. split; [vm_compute; reflexivity|]. split; [reflexivity|].
  lazymatch goal with
  | |- panics _ ?s _ = _ /\ _ =>
      pose proof (main_go_steps_before_wait 1 Fixtures.tree Fixtures.host false "/"
                    Fixtures.empty_disk [0; 0; 0; 1; 1; 1; 1; 1]%nat s 1%nat
                    (IRun (Save "/d/f" 6)) [IAddInt64 (-1); IWgDone]
                    ltac:(vm_compute; reflexivity) eq_refl) as [Hp Hstep]
  end.
  split; [exact Hp|].
  exact (Hstep [ISleep; IWgWait; IPrintln "Done!"] eq_refl (or_introl eq_refl)).
Defined.

